(** * Ranking de entregadores: the scoring engine of [ranking-calculator.js]

    A shallow embedding of the point calculator (per-shift score, daily-goal
    bonus, ranking aggregation) and the properties of its specification.

    Conventions of the embedding.
    - A JavaScript Number that holds a duration or a percentage is an IEEE
      binary64 value: Rocq's primitive [float], whose operations round to
      nearest-even as JavaScript's do.
    - Delivery counts and points are integers in the data model (INTEGER
      columns); they are embedded as [Z], i.e. inside the safe-integer range
      where binary64 arithmetic on integers is exact.
    - A JavaScript string is a [string]: a sequence of code units below 256.
    - A plain object used as a dictionary is a finite map: the dictionary of
      the groups as a [gmap], the dictionary of the workers, whose values
      are enumerated, as a list of properties in the order of
      [Object.values]. A worker whose identifier names a member inherited
      from [Object.prototype] finds that member in the dictionary and gets
      no entry of its own: see [herdado] and [acumular].
    - An object that is compared by identity carries its address.
    - A [Date] is its time value; the host is a parameter: its local time
      zone, and what its engine makes of a date text outside the date-time
      string format of the language.
    - The client of the data store is embedded with the store as a
      parameter: see [SupabaseClient].

    The file has three parts: the embedding, the vocabulary of the
    properties, and the properties with their proofs. *)

From Stdlib Require Import ZArith Floats Uint63 String Ascii List Bool Lia.
From Stdlib Require Import Sorting.Sorted Sorting.Permutation.
From stdpp Require Import gmap strings.

Local Open Scope string_scope.
Local Open Scope Z_scope.

(** ** JavaScript values and numbers *)

Module Js.

(** The values a duration field can hold when it reaches the engine. *)
Inductive Value : Type :=
| Undefined
| Null
| Boolean (b : bool)
| Number (x : float)
| Str (s : string)
| Object.

(** [ToBoolean] on numbers: NaN, +0 and -0 are falsy. *)
Definition truthyNumber (x : float) : bool :=
  negb (PrimFloat.is_nan x || PrimFloat.eqb x 0%float).

(** [ToBoolean]. *)
Definition truthy (v : Value) : bool :=
  match v with
  | Undefined | Null => false
  | Boolean b => b
  | Number x => truthyNumber x
  | Str s => negb (String.eqb s "")
  | Object => true
  end.

(** [typeof v === 'string'] *)
Definition isString (v : Value) : bool :=
  match v with Str _ => true | _ => false end.

(** [x || 0] on a Number. *)
Definition orZero (x : float) : float :=
  if truthyNumber x then x else 0%float.

(** [n || 0] on an integer field that may be missing ([undefined || 0]). *)
Definition orZeroZ (n : option Z) : Z :=
  match n with
  | Some k => if k =? 0 then 0 else k
  | None => 0
  end.

(** *** Conversion of exact values to binary64, round to nearest-even *)

(** The Number value of a mathematical integer. *)
Definition ofZ (z : Z) : float :=
  SF2Prim (binary_normalize prec emax z 0 false).

(** The Number value of the non-negative rational [n / d]: the quotient is
    computed with more than [prec] bits and a sticky last bit, then rounded
    once. *)
Definition ofFraction (n : Z) (d : Z) : float :=
  if (n <=? 0) || (d <=? 0) then 0%float
  else
    let k := Z.max 0 (Z.log2 d + 60 - Z.log2 n) in
    let q := Z.shiftl n k / d in
    let r := Z.shiftl n k mod d in
    let m := 2 * q + (if r =? 0 then 0 else 1) in
    SF2Prim (binary_normalize prec emax m (- k - 1) false).

(** The Number value of [m * 10^e], [m >= 0]. Decimal exponents beyond the
    binary64 range are decided without computing the power. *)
Definition ofDecimal (m : Z) (e : Z) : float :=
  if m <=? 0 then 0%float
  else if 400 <? e then PrimFloat.infinity
  else if e + Z.log2 m <? -1200 then 0%float
  else if 0 <=? e then ofZ (m * 10 ^ e)
  else ofFraction m (10 ^ (- e)).

(** *** Strings *)

(** [s.split(sep)] for a one-character separator. The result is never
    empty: a string without separator is its own single field. *)
Fixpoint split (sep : ascii) (s : string) : list string :=
  match s with
  | EmptyString => [EmptyString]
  | String c rest =>
      if Ascii.eqb c sep then EmptyString :: split sep rest
      else match split sep rest with
           | field :: fields => String c field :: fields
           | [] => [String c EmptyString]
           end
  end.

(** [arr[0]] of a split result. *)
Definition first (fields : list string) : string :=
  match fields with
  | f :: _ => f
  | [] => EmptyString
  end.

(** White space that [parseInt] and [parseFloat] skip: TAB, LF, VT, FF, CR,
    SP and NBSP. *)
Definition isWhiteSpace (c : ascii) : bool :=
  let n := N_of_ascii c in
  ((9 <=? n) && (n <=? 13) || (n =? 32) || (n =? 160))%N.

Fixpoint trimStart (s : list ascii) : list ascii :=
  match s with
  | c :: rest => if isWhiteSpace c then trimStart rest else s
  | [] => []
  end.

(** The value of a character as a digit of the given radix (10 or 16). *)
Definition digitValue (radix : Z) (c : ascii) : option Z :=
  let n := Z.of_N (N_of_ascii c) in
  let v := if (48 <=? n) && (n <=? 57) then n - 48
           else if (97 <=? n) && (n <=? 102) then n - 87
           else if (65 <=? n) && (n <=? 70) then n - 55
           else 99 in
  if v <? radix then Some v else None.

(** Reads the longest prefix of digits: the accumulated value, the number
    of digits read and the rest of the text. *)
Fixpoint readDigits (radix : Z) (s : list ascii) (acc : Z) (count : Z)
  : Z * Z * list ascii :=
  match s with
  | c :: rest =>
      match digitValue radix c with
      | Some v => readDigits radix rest (acc * radix + v) (count + 1)
      | None => (acc, count, s)
      end
  | [] => (acc, count, [])
  end.

(** An optional sign: [true] when the text starts with a minus. *)
Definition readSign (s : list ascii) : bool * list ascii :=
  match s with
  | "+"%char :: rest => (false, rest)
  | "-"%char :: rest => (true, rest)
  | _ => (false, s)
  end.

Definition withSign (neg : bool) (x : float) : float :=
  if neg then PrimFloat.opp x else x.

(** [parseInt(s)] without radix: leading white space, a sign, a [0x] or
    [0X] prefix that selects radix 16, then the longest run of digits; NaN
    when there is none. *)
Definition parseInt (s : string) : float :=
  let '(neg, body) := readSign (trimStart (list_ascii_of_string s)) in
  let '(radix, digits) :=
    match body with
    | "0"%char :: "x"%char :: rest => (16, rest)
    | "0"%char :: "X"%char :: rest => (16, rest)
    | _ => (10, body)
    end in
  let '(value, count, _) := readDigits radix digits 0 0 in
  if count =? 0 then PrimFloat.nan else withSign neg (ofZ value).

(** The exponent part of a decimal literal, [e] or [E], an optional sign
    and at least one digit; 0 when the text has no well-formed one. *)
Definition readExponent (s : list ascii) : Z :=
  match s with
  | c :: rest =>
      if Ascii.eqb c "e" || Ascii.eqb c "E" then
        let '(neg, ds) := readSign rest in
        let '(value, count, _) := readDigits 10 ds 0 0 in
        if count =? 0 then 0 else if neg then - value else value
      else 0
  | [] => 0
  end.

Definition startsWith (p : string) (s : list ascii) : bool :=
  let lp := list_ascii_of_string p in
  if decide (firstn (List.length lp) s = lp) then true else false.

(** [parseFloat(s)]: leading white space, a sign, then [Infinity] or the
    longest decimal literal (digits, optional fraction, optional exponent);
    NaN when there is none. *)
Definition parseFloat (s : string) : float :=
  let '(neg, body) := readSign (trimStart (list_ascii_of_string s)) in
  if startsWith "Infinity" body then withSign neg PrimFloat.infinity
  else
    let '(ipart, icount, afterInt) := readDigits 10 body 0 0 in
    let '(mant, fcount, afterFrac) :=
      match afterInt with
      | "."%char :: rest => readDigits 10 rest ipart 0
      | _ => (ipart, 0, afterInt)
      end in
    if icount + fcount =? 0 then PrimFloat.nan
    else withSign neg (ofDecimal mant (readExponent afterFrac - fcount)).

(** [parseFloat(x.toFixed(2))]: the decimal with two fraction digits
    nearest to [x] (the larger one on a tie, on the absolute value), read
    back as a Number. From 1e21 on [toFixed] prints the Number itself, which
    [parseFloat] reads back unchanged; so it does NaN and the infinities. *)
Definition toFixed2 (x : float) : float :=
  match Prim2SF x with
  | S754_finite neg m e =>
      let n := if 0 <=? e
               then 100 * Z.pos m * 2 ^ e
               else (200 * Z.pos m + 2 ^ (- e)) / 2 ^ (1 - e) in
      if 10 ^ 23 <=? n then x else withSign neg (ofFraction n 100)
  | S754_zero _ => 0%float
  | _ => x
  end.

End Js.

(** ** Dates: the time value of a [Date] and its UTC calendar fields *)

Module JsDate.

Import Js.

(** A [Date] holds a time value, milliseconds since 1970-01-01T00:00:00Z,
    or NaN ([None], an Invalid Date). *)
Definition Date : Type := option Z.

Definition msPerDay : Z := 86400000.

Definition Day (t : Z) : Z := t / msPerDay.

Definition TimeWithinDay (t : Z) : Z := t mod msPerDay.

Definition DaysInYear (y : Z) : Z :=
  if negb (y mod 4 =? 0) then 365
  else if negb (y mod 100 =? 0) then 366
  else if negb (y mod 400 =? 0) then 365
  else 366.

(** The day number of the first day of year [y]. *)
Definition DayFromYear (y : Z) : Z :=
  365 * (y - 1970) + (y - 1969) / 4 - (y - 1901) / 100 + (y - 1601) / 400.

(** The year of day number [d]: the largest [y] with [DayFromYear y <= d].
    The estimate from the mean length of a year is off by one at most. *)
Definition YearFromDay (d : Z) : Z :=
  let y := 1970 + d * 400 / 146097 in
  if DayFromYear (y + 1) <=? d then y + 1
  else if DayFromYear y <=? d then y
  else y - 1.

Definition YearFromTime (t : Z) : Z := YearFromDay (Day t).

Definition InLeapYear (t : Z) : Z :=
  if DaysInYear (YearFromTime t) =? 366 then 1 else 0.

Definition DayWithinYear (t : Z) : Z := Day t - DayFromYear (YearFromTime t).

(** The day within the year on which month [m] (0 to 11) starts; [leap] is
    1 in a leap year and 0 otherwise. Month 12 stands for the end of the
    year. *)
Definition monthStart (leap : Z) (m : Z) : Z :=
  match m with
  | 0 => 0
  | 1 => 31
  | 2 => 59 + leap
  | 3 => 90 + leap
  | 4 => 120 + leap
  | 5 => 151 + leap
  | 6 => 181 + leap
  | 7 => 212 + leap
  | 8 => 243 + leap
  | 9 => 273 + leap
  | 10 => 304 + leap
  | 11 => 334 + leap
  | _ => 365 + leap
  end.

(** The month, 0 to 11, of a time value. *)
Definition MonthFromTime (t : Z) : Z :=
  let d := DayWithinYear t in
  let leap := InLeapYear t in
  if d <? 31 then 0
  else if d <? 59 + leap then 1
  else if d <? 90 + leap then 2
  else if d <? 120 + leap then 3
  else if d <? 151 + leap then 4
  else if d <? 181 + leap then 5
  else if d <? 212 + leap then 6
  else if d <? 243 + leap then 7
  else if d <? 273 + leap then 8
  else if d <? 304 + leap then 9
  else if d <? 334 + leap then 10
  else 11.

(** The day of the month, 1 to 31, of a time value. *)
Definition DateFromTime (t : Z) : Z :=
  DayWithinYear t - monthStart (InLeapYear t) (MonthFromTime t) + 1.

Definition MakeTime (hour min sec ms : Z) : Z :=
  hour * 3600000 + min * 60000 + sec * 1000 + ms.

(** The day number of a year, a month (0-based, any integer) and a day of
    the month. *)
Definition MakeDay (year month date : Z) : Z :=
  let ym := year + month / 12 in
  let mn := month mod 12 in
  let leap := if DaysInYear ym =? 366 then 1 else 0 in
  DayFromYear ym + monthStart leap mn + date - 1.

Definition MakeDate (day time : Z) : Z := day * msPerDay + time.

Definition TimeClip (t : Z) : Date :=
  if 8640000000000000 <? Z.abs t then None else Some t.

(** Reads exactly [n] decimal digits. *)
Fixpoint readFixed (n : nat) (s : list ascii) (acc : Z)
  : option (Z * list ascii) :=
  match n with
  | O => Some (acc, s)
  | S n' =>
      match s with
      | c :: rest =>
          match digitValue 10 c with
          | Some v => readFixed n' rest (acc * 10 + v)
          | None => None
          end
      | [] => None
      end
  end.

Definition inRange (lo hi : Z) (x : Z) : option Z :=
  if (lo <=? x) && (x <=? hi) then Some x else None.

(** [YYYY], or a sign and six digits; minus zero is not a year. *)
Definition readYear (s : list ascii) : option (Z * list ascii) :=
  match s with
  | "+"%char :: rest => readFixed 6 rest 0
  | "-"%char :: rest =>
      '(y, rest') ← readFixed 6 rest 0;
      if y =? 0 then None else Some (- y, rest')
  | _ => readFixed 4 s 0
  end.

(** An optional [-NN] field within [lo..hi]; [lo] when absent. *)
Definition readDashField (lo hi : Z) (s : list ascii)
  : option (Z * list ascii) :=
  match s with
  | "-"%char :: rest =>
      '(v, rest') ← readFixed 2 rest 0;
      _ ← inRange lo hi v;
      Some (v, rest')
  | _ => Some (lo, s)
  end.

(** [:NN] within [0..59]. *)
Definition readColonField (s : list ascii) : option (Z * list ascii) :=
  match s with
  | ":"%char :: rest =>
      '(v, rest') ← readFixed 2 rest 0;
      _ ← inRange 0 59 v;
      Some (v, rest')
  | _ => None
  end.

(** An optional fraction of a second, in milliseconds: the first three of
    its digits count. *)
Definition readMillis (s : list ascii) : option (Z * list ascii) :=
  match s with
  | "."%char :: rest =>
      let '(v, count, rest') := readDigits 10 rest 0 0 in
      if count =? 0 then None
      else Some (if count <? 3 then v * 10 ^ (3 - count)
                 else v / 10 ^ (count - 3), rest')
  | _ => Some (0, s)
  end.

(** Where the text places its time: in UTC, at an offset from UTC in
    milliseconds, or in the host's local time. *)
Inductive Zone : Type :=
| ZoneUTC
| ZoneOffset (ms : Z)
| ZoneLocal.

Definition readZone (s : list ascii) : option Zone :=
  match s with
  | [] => Some ZoneLocal
  | ["Z"%char] => Some ZoneUTC
  | sign :: rest =>
      '(h, rest') ← readFixed 2 rest 0;
      _ ← inRange 0 23 h;
      '(m, rest'') ← readColonField rest';
      let off := MakeTime h m 0 0 in
      match rest'' with
      | [] =>
          if Ascii.eqb sign "+" then Some (ZoneOffset off)
          else if Ascii.eqb sign "-" then Some (ZoneOffset (- off))
          else None
      | _ => None
      end
  end.

(** The time of day after the [T], [HH:mm], [HH:mm:ss] or [HH:mm:ss.sss]
    with 24:00:00 as the only time of hour 24, and the zone. *)
Definition readTime (s : list ascii) : option (Z * Zone) :=
  '(h, r1) ← readFixed 2 s 0;
  _ ← inRange 0 24 h;
  '(m, r2) ← readColonField r1;
  '(sec, ms, r3) ←
    match r2 with
    | ":"%char :: _ =>
        '(sec, r) ← readColonField r2;
        '(ms, r') ← readMillis r;
        Some (sec, ms, r')
    | _ => Some (0, 0, r2)
    end;
  zone ← readZone r3;
  if (h =? 24) && negb ((m =? 0) && (sec =? 0) && (ms =? 0)) then None
  else Some (MakeTime h m sec ms, zone).

(** The host of the program: what the language leaves to the
    implementation. [LocalTZA] is the offset of the host's local time from
    UTC, in milliseconds, at a given local time (-10800000 in São Paulo).
    [fallbackParse] is what the host's engine makes of a date text outside
    the date-time string format of the language, a time value or NaN: there
    [Date.parse] "may fall back to any implementation-specific heuristics
    or implementation-specific date formats". *)
Record Host : Type := {
  LocalTZA : Z -> Z;
  fallbackParse : string -> option Z
}.

Section Parse.

Variable host : Host.

(** The date-time string format of the language: a date [YYYY], [YYYY-MM]
    or [YYYY-MM-DD], alone (then it is a UTC date) or followed by [T], a
    time and an optional [Z] or [+HH:mm] / [-HH:mm] offset (without offset
    it is a local time). A day of the month up to 31 rolls over into the
    next month. [None] on a text outside the format. *)
Definition parseDateTimeFormat (s : string) : Date :=
  '(y, r1) ← readYear (list_ascii_of_string s);
  '(mo, r2) ← readDashField 1 12 r1;
  '(d, r3) ←
    match r1 with
    | "-"%char :: _ => readDashField 1 31 r2
    | _ => Some (1, r2)
    end;
  let day := MakeDay y (mo - 1) d in
  match r3 with
  | [] => TimeClip (MakeDate day 0)
  | "T"%char :: rest =>
      '(time, zone) ← readTime rest;
      let t := MakeDate day time in
      match zone with
      | ZoneUTC => TimeClip t
      | ZoneOffset off => TimeClip (t - off)
      | ZoneLocal => TimeClip (t - LocalTZA host t)
      end
  | _ => None
  end.

(** [Date.parse], the time value of [new Date(text)]: the text is read in
    the date-time string format first, and left to the engine when it is
    outside the format. *)
Definition parse (s : string) : Date :=
  match parseDateTimeFormat s with
  | Some t => Some t
  | None => t ← fallbackParse host s; TimeClip t
  end.

End Parse.

(** [date.getUTCDate()]: NaN ([None]) on an Invalid Date. *)
Definition getUTCDate (date : Date) : option Z := DateFromTime <$> date.

(** [date.getUTCMonth()], 0 to 11. *)
Definition getUTCMonth (date : Date) : option Z := MonthFromTime <$> date.

End JsDate.

(** ** The point calculator *)

Import Js.

(** A shift as imported: the fields the calculator reads. *)
Record Turno : Type := {
  id_da_pessoa_entregadora : string;
  pessoa_entregadora : string;
  data_do_periodo : string;
  duracao_do_periodo : Value;
  tempo_disponivel_absoluto : Value;
  numero_de_corridas_completadas : option Z
}.

(** The object [calcularPontosTurno] returns. *)
Record Pontos : Type := {
  percentual_tempo_online : float;
  pontos_entregas : Z;
  bonus_90_online : Z;
  bonus_data_especial : Z;
  total_pontos_turno : Z
}.

(** [{...turno, ...pontos}] *)
Record TurnoComPontos : Type := {
  turno_de : Turno;
  pontos_de : Pontos
}.

(** An object of the heap: its identity and its contents. The objects of
    the calculator are never mutated once built, so a reference carries
    the contents along; [===] on objects compares the identities. *)
Record Ref (A : Type) : Type := {
  addr : nat;
  deref : A
}.
Arguments addr {A} _.
Arguments deref {A} _.

(** A finalized shift: the scored shift and the daily-goal fields. *)
Record TurnoFinal : Type := {
  pontuado : TurnoComPontos;
  entregas_no_dia : Z;
  bonus_meta_diaria : Z;
  total_pontos_final : Z
}.

(** [date.getUTCDate() === n], false on NaN. *)
Definition strictEq (x : option Z) (n : Z) : bool :=
  match x with
  | Some v => v =? n
  | None => false
  end.

Definition isDataEspecial (date : JsDate.Date) : bool :=
  let dia := JsDate.getUTCDate date in
  let mes := (fun m => m + 1) <$> JsDate.getUTCMonth date in
  (strictEq dia 24 && strictEq mes 12) ||
  (strictEq dia 25 && strictEq mes 12) ||
  (strictEq dia 31 && strictEq mes 12) ||
  (strictEq dia 1 && strictEq mes 1).

Definition durationToSeconds (duration : Value) : float :=
  if negb (truthy duration) || negb (isString duration) then 0%float
  else
    match duration with
    | Str text =>
        match split ":" text with
        | [p0; p1; p2] =>
            let hours := orZero (parseInt p0) in
            let minutes := orZero (parseInt p1) in
            let seconds := orZero (parseFloat p2) in
            (hours * 3600 + minutes * 60 + seconds)%float
        | _ => 0%float
        end
    | _ => 0%float
    end.

Definition calcularPercentualOnline (tempoOnline duracaoTurno : Value) : float :=
  let segundosOnline := durationToSeconds tempoOnline in
  let segundosTurno := durationToSeconds duracaoTurno in
  if PrimFloat.eqb segundosTurno 0 then 0%float
  else (segundosOnline / segundosTurno * 100)%float.

Definition calcularBonusMetaDiaria (entregasNoDia : Z) : Z :=
  if 30 <=? entregasNoDia then 300
  else if 20 <=? entregasNoDia then 200
  else 0.

(** The day text a shift is grouped under: [data_do_periodo.split('T')[0]],
    the text before the first [T]. *)
Definition diaDoTurno (turno : Turno) : string :=
  first (split "T" (data_do_periodo turno)).

(** The key of a group: [`${id}|${data}`] *)
Definition chave (turno : Turno) : string :=
  id_da_pessoa_entregadora turno ++ "|" ++ diaDoTurno turno.

(** The body of the [forEach] of [agruparPorDiaEntregador]: the group of
    the key is created empty when there is none, then the shift is pushed.
    A key holds a bar, which the name of no member inherited from
    [Object.prototype] does: [grupos[chave]] finds own properties only. *)
Definition agruparPasso (grupos : gmap string (list (Ref TurnoComPontos)))
  (turno : Ref TurnoComPontos) : gmap string (list (Ref TurnoComPontos)) :=
  let k := chave (turno_de (deref turno)) in
  let grupos' :=
    match grupos !! k with
    | None => <[k := []]> grupos
    | Some _ => grupos
    end in
  alter (fun g => (g ++ [turno])%list) k grupos'.

Definition agruparPorDiaEntregador (turnos : list (Ref TurnoComPontos))
  : gmap string (list (Ref TurnoComPontos)) :=
  foldl agruparPasso ∅ turnos.

Definition calcularEntregasNoDia (turnosDoDia : list (Ref TurnoComPontos)) : Z :=
  foldl (fun total turno =>
           total + orZeroZ (numero_de_corridas_completadas (turno_de (deref turno))))
        0 turnosDoDia.

(** [turnosDoDia[0] === turno] *)
Definition primeiroDoDia (turnosDoDia : list (Ref TurnoComPontos))
  (turno : Ref TurnoComPontos) : bool :=
  match turnosDoDia !! 0%nat with
  | Some r => Nat.eqb (addr r) (addr turno)
  | None => false
  end.

Section Calculator.

(** The host, as [JsDate.parse] takes it. *)
Variable host : JsDate.Host.

Definition calcularPontosTurno (turno : Turno) : Pontos :=
  let percentualOnline :=
    calcularPercentualOnline (tempo_disponivel_absoluto turno)
                             (duracao_do_periodo turno) in
  let isOnline90Plus := PrimFloat.leb 90 percentualOnline in
  let dataEspecial := isDataEspecial (JsDate.parse host (data_do_periodo turno)) in
  let pontosEntregas := orZeroZ (numero_de_corridas_completadas turno) * 10 in
  let bonus90Online := if isOnline90Plus then 50 else 0 in
  let bonusDataEspecial := if isOnline90Plus && dataEspecial then 50 else 0 in
  let totalPontosTurno := pontosEntregas + bonus90Online + bonusDataEspecial in
  {| percentual_tempo_online := toFixed2 percentualOnline;
     pontos_entregas := pontosEntregas;
     bonus_90_online := bonus90Online;
     bonus_data_especial := bonusDataEspecial;
     total_pontos_turno := totalPontosTurno |}.

(** Step 1 of [processarTodosOsTurnos]: a fresh object per shift, in the
    order of the input. *)
Definition pontuarTurnos (turnos : list Turno) : list (Ref TurnoComPontos) :=
  imap (fun index turno =>
          {| addr := index;
             deref := {| turno_de := turno; pontos_de := calcularPontosTurno turno |} |})
       turnos.

(** Step 3, for one shift. The group of a shift's own key is always
    defined (lemma [grupo_do_turno] below), so the default of the lookup
    is never taken. *)
Definition finalizarTurno (gruposPorDia : gmap string (list (Ref TurnoComPontos)))
  (turno : Ref TurnoComPontos) : TurnoFinal :=
  let turnosDoDia := default [] (gruposPorDia !! chave (turno_de (deref turno))) in
  let entregasNoDia := calcularEntregasNoDia turnosDoDia in
  let primeiroTurnoDoDia := primeiroDoDia turnosDoDia turno in
  let bonusMetaDiaria :=
    if primeiroTurnoDoDia then calcularBonusMetaDiaria entregasNoDia else 0 in
  let totalPontosFinal := total_pontos_turno (pontos_de (deref turno)) + bonusMetaDiaria in
  {| pontuado := deref turno;
     entregas_no_dia := entregasNoDia;
     bonus_meta_diaria := bonusMetaDiaria;
     total_pontos_final := totalPontosFinal |}.

Definition processarTodosOsTurnos (turnos : list Turno) : list TurnoFinal :=
  let turnosComPontos := pontuarTurnos turnos in
  let gruposPorDia := agruparPorDiaEntregador turnosComPontos in
  map (finalizarTurno gruposPorDia) turnosComPontos.

End Calculator.

(** *** The ranking *)

(** The accumulator of one worker inside [calcularRanking]. *)
Module Acc.
Record t : Type := {
  id_da_pessoa_entregadora : string;
  pessoa_entregadora : string;
  total_pontos : Z;
  total_entregas : Z;
  total_turnos : Z;
  _soma_percentual_online : float
}.
End Acc.

(** An entry of the ranking. *)
Module Rank.
Record t : Type := {
  id_da_pessoa_entregadora : string;
  pessoa_entregadora : string;
  total_pontos : Z;
  total_entregas : Z;
  total_turnos : Z;
  media_percentual_online : float
}.
End Rank.

(** The fields of the raw shift, read on a finalized one. *)
Definition turnoBase (f : TurnoFinal) : Turno := turno_de (pontuado f).

(** A dictionary object whose values are enumerated: the own properties in
    the order of their creation. *)
Abbreviation Dict A := (list (string * A)).

Fixpoint dictLookup {A} (key : string) (d : Dict A) : option A :=
  match d with
  | [] => None
  | (k, v) :: rest => if String.eqb k key then Some v else dictLookup key rest
  end.

(** [d[key] = v] on a key that is not there yet. *)
Definition dictAdd {A} (key : string) (v : A) (d : Dict A) : Dict A :=
  (d ++ [(key, v)])%list.

(** An update of the object stored under [key]. *)
Fixpoint dictUpdate {A} (key : string) (f : A -> A) (d : Dict A) : Dict A :=
  match d with
  | [] => []
  | (k, v) :: rest =>
      if String.eqb k key then (k, f v) :: rest
      else (k, v) :: dictUpdate key f rest
  end.

(** [arr.sort(cmp)]: the sort is stable, and [cmp a b > 0] places [a]
    after [b]. *)
Fixpoint insertSorted {A} (cmp : A -> A -> Z) (x : A) (l : list A) : list A :=
  match l with
  | [] => [x]
  | y :: rest => if 0 <? cmp x y then y :: insertSorted cmp x rest else x :: l
  end.

Definition sort {A} (cmp : A -> A -> Z) (l : list A) : list A :=
  foldr (insertSorted cmp) [] l.

(** The array index a property key denotes, if any: a canonical decimal
    numeral up to 2^32 - 2. *)
Definition arrayIndex (key : string) : option Z :=
  match list_ascii_of_string key with
  | [] => None
  | c :: rest =>
      if Ascii.eqb c "0" && negb (Nat.eqb (List.length rest) 0) then None
      else
        match readDigits 10 (c :: rest) 0 0 with
        | (v, _, []) => if v <=? 4294967294 then Some v else None
        | _ => None
        end
  end.

(** [Object.values(d)]: the properties whose key is an array index come
    first, by ascending index, then the others in the order of their
    creation. *)
Definition objectValues {A} (d : Dict A) : list A :=
  let indexed :=
    omap (fun kv => (fun i => (i, kv.2)) <$> arrayIndex kv.1) d in
  let named :=
    filter (fun kv => arrayIndex kv.1 = None) d in
  (map snd (sort (fun a b => a.1 - b.1) indexed) ++ map snd named)%list.

(** The object a worker enters the dictionary with. *)
Definition novoAcc (turno : TurnoFinal) : Acc.t :=
  {| Acc.id_da_pessoa_entregadora := id_da_pessoa_entregadora (turnoBase turno);
     Acc.pessoa_entregadora := pessoa_entregadora (turnoBase turno);
     Acc.total_pontos := 0;
     Acc.total_entregas := 0;
     Acc.total_turnos := 0;
     Acc._soma_percentual_online := 0%float |}.

(** The four [+=] of a shift on the object of its worker. *)
Definition somarAcc (turno : TurnoFinal) (e : Acc.t) : Acc.t :=
  {| Acc.id_da_pessoa_entregadora := Acc.id_da_pessoa_entregadora e;
     Acc.pessoa_entregadora := Acc.pessoa_entregadora e;
     Acc.total_pontos :=
       Acc.total_pontos e + orZeroZ (Some (total_pontos_final turno));
     Acc.total_entregas :=
       Acc.total_entregas e
       + orZeroZ (numero_de_corridas_completadas (turnoBase turno));
     Acc.total_turnos := Acc.total_turnos e + 1;
     Acc._soma_percentual_online :=
       (Acc._soma_percentual_online e
        + orZero (percentual_tempo_online (pontos_de (pontuado turno))))%float |}.

(** The names of the members that the object literal [{}] inherits from
    [Object.prototype]: under one of them [entregadores[id]] is that
    member, whatever the own properties of the dictionary are. *)
Definition membrosDeObject : list string :=
  [ "constructor"; "__defineGetter__"; "__defineSetter__"; "hasOwnProperty";
    "__lookupGetter__"; "__lookupSetter__"; "isPrototypeOf";
    "propertyIsEnumerable"; "toString"; "valueOf"; "__proto__";
    "toLocaleString" ].

Definition herdado (key : string) : bool :=
  existsb (String.eqb key) membrosDeObject.

(** The body of the [forEach] of [calcularRanking]. Under an inherited
    name, [entregadores[id]] is a function or the prototype itself: it is
    truthy, so [if (!entregadores[id])] creates no entry, and the four [+=]
    write on the inherited member; the dictionary keeps its own properties
    as they were. *)
Definition acumular (entregadores : Dict Acc.t) (turno : TurnoFinal) : Dict Acc.t :=
  let id := id_da_pessoa_entregadora (turnoBase turno) in
  if herdado id then entregadores
  else
    let entregadores' :=
      match dictLookup id entregadores with
      | None => dictAdd id (novoAcc turno) entregadores
      | Some _ => entregadores
      end in
    dictUpdate id (somarAcc turno) entregadores'.

Definition entradaDoRanking (entregador : Acc.t) : Rank.t :=
  {| Rank.id_da_pessoa_entregadora := Acc.id_da_pessoa_entregadora entregador;
     Rank.pessoa_entregadora := Acc.pessoa_entregadora entregador;
     Rank.total_pontos := Acc.total_pontos entregador;
     Rank.total_entregas := Acc.total_entregas entregador;
     Rank.total_turnos := Acc.total_turnos entregador;
     Rank.media_percentual_online :=
       toFixed2 (Acc._soma_percentual_online entregador
                 / ofZ (Acc.total_turnos entregador))%float |}.

Definition calcularRanking (turnos : list TurnoFinal) : list Rank.t :=
  let entregadores := foldl acumular [] turnos in
  let ranking := map entradaDoRanking (objectValues entregadores) in
  sort (fun a b => Rank.total_pontos b - Rank.total_pontos a) ranking.

(** ** The client of the data store

    The module that talks to the store ([part_001]): a module variable
    [supabase], null until [initSupabase] sets it, and asynchronous
    functions that await one query after the other. The store and
    [createClient] are parameters. A function is a state transformer over
    the module variable and the store that returns, throws or, for a
    loop, is cut short by its bound; the properties show that the bounds
    are never reached. Writes to the console are left out. *)

Module SupabaseClient.

(** What [inserirTurnos] returns: [{ success: true, data }]. *)
Module Inserido.
Record t (Linha : Type) : Type := { success : bool; data : option (list Linha) }.
Arguments success {Linha}.
Arguments data {Linha}.
End Inserido.

(** [{ success: true }] *)
Module Feito.
Record t : Type := { success : bool }.
End Feito.

(** What [uploadCompleto] returns. *)
Module Upload.
Record t : Type := { success : bool; turnosInseridos : nat }.
End Upload.

(** The [limit] argument of [buscarRanking]: left out, [null] or a
    number, taken to be an integer. *)
Inductive Limite : Type :=
| Omitido
| Nulo
| Numero (n : Z).

Section Client.

(** The rows the store answers with, the records that are inserted, the
    error values of the store, the client object and the state of the
    store. *)
Variables (Linha Registro Erro Cliente Loja : Type).

(** The queries the module builds. *)
Inductive Consulta : Type :=
| RankingLimit (limit : Z)
| RankingRange (from to : Z)
| RankingIlike (padrao : string) (limit : Z)
| RankingCount
| TurnosInsert (turnos : list Registro)
| Rpc (fn : string)
| DeleteAll (tabela : string).

(** The object a query resolves to: [{ data, error }]. *)
Record Resposta : Type := { data : option (list Linha); error : option Erro }.

(** An awaited query resolves to a response or rejects. *)
Inductive Desfecho : Type :=
| Resolvido (r : Resposta)
| Rejeitado (e : Erro).

(** What is thrown: the [TypeError] of a property read on [null], or an
    error value of the store. *)
Inductive Excecao : Type :=
| TypeError
| Lancado (e : Erro).

(** [createClient] and the store behind the client. *)
Variable createClient : Js.Value -> Js.Value -> Excecao + Cliente.
Variable executa : Cliente -> Consulta -> Loja -> Desfecho * Loja.

(** The module variable [supabase] and the store; [chamadas] records the
    queries that were sent, with what they came to. *)
Record Mundo : Type := {
  supabase : option Cliente;
  loja : Loja;
  chamadas : list (Consulta * Desfecho)
}.

(** How a call ends; [Esgotado] is a loop cut short by its bound, which
    the loops of the module never are. *)
Inductive Resultado (A : Type) : Type :=
| Retorna (a : A)
| Lanca (e : Excecao)
| Esgotado.

Arguments Retorna {A}.
Arguments Lanca {A}.
Arguments Esgotado {A}.

Definition M (A : Type) : Type := Mundo -> Resultado A * Mundo.

Definition retornar {A} (a : A) : M A := fun w => (Retorna a, w).

Definition lancar {A} (e : Excecao) : M A := fun w => (Lanca e, w).

Definition esgotar {A} : M A := fun w => (Esgotado, w).

Definition vincular {A B} (m : M A) (k : A -> M B) : M B :=
  fun w =>
    match m w with
    | (Retorna a, w') => k a w'
    | (Lanca e, w') => (Lanca e, w')
    | (Esgotado, w') => (Esgotado, w')
    end.

(** [try { m } catch (error) { h(error) }] *)
Definition tentar {A} (m : M A) (h : Excecao -> M A) : M A :=
  fun w =>
    match m w with
    | (Lanca e, w') => h e w'
    | r => r
    end.

#[local] Instance M_bind : MBind M := fun A B k m => vincular m k.

(** [await supabase.<query>]: a [TypeError] when [supabase] is [null]. *)
Definition consultar (q : Consulta) : M Resposta :=
  fun w =>
    match supabase w with
    | None => (Lanca TypeError, w)
    | Some cliente =>
        let '(d, loja') := executa cliente q (loja w) in
        let w' := {| supabase := supabase w; loja := loja';
                     chamadas := (chamadas w ++ [(q, d)])%list |} in
        match d with
        | Resolvido r => (Retorna r, w')
        | Rejeitado e => (Lanca (Lancado e), w')
        end
    end.

(** [if (error) throw error] *)
Definition seErroLancar (r : Resposta) : M unit :=
  match error r with
  | Some e => lancar (Lancado e)
  | None => retornar tt
  end.

Definition initSupabase (url key : Js.Value) : M (option Cliente) :=
  if negb (Js.truthy url) || negb (Js.truthy key) then retornar None
  else
    fun w =>
      match createClient url key with
      | inl e => (Lanca e, w)
      | inr cliente =>
          (Retorna (Some cliente),
           {| supabase := Some cliente; loja := loja w; chamadas := chamadas w |})
      end.

(** The [while] loop of [buscarRanking]; [voltas] bounds its
    iterations. *)
Fixpoint paginar (voltas : nat) (totalLimit : Z)
         (todosEntregadores : list Linha) (from : Z) (buscarMais : bool)
  : M (list Linha) :=
  if buscarMais && (Z.of_nat (length todosEntregadores) <? totalLimit) then
    match voltas with
    | O => esgotar
    | S voltas' =>
        let to := from + 1000 - 1 in
        r ← consultar (RankingRange from to);
        seErroLancar r ;;
        match data r with
        | Some ((_ :: _) as linhas) =>
            paginar voltas' totalLimit (todosEntregadores ++ linhas)%list
                    (from + 1000)
                    (negb (Z.of_nat (length linhas) <? 1000))
        | _ => paginar voltas' totalLimit todosEntregadores from false
        end
    end
  else retornar todosEntregadores.

Definition buscarRanking (limit : Limite) : M (list Linha) :=
  let limit := match limit with
               | Omitido => Some 1000
               | Nulo => None
               | Numero n => Some n
               end in
  let verdadeiro := match limit with Some n => negb (n =? 0) | None => false end in
  let n := default 0 limit in
  tentar
    (if verdadeiro && (n <=? 1000) then
       r ← consultar (RankingLimit n);
       seErroLancar r ;;
       retornar (default [] (data r))
     else
       let totalLimit := if verdadeiro then n else 1000000 in
       todosEntregadores ←
         paginar (Z.to_nat (totalLimit / 1000 + 1)) totalLimit [] 0 true;
       if verdadeiro && (n <? Z.of_nat (length todosEntregadores))
       then retornar (take (Z.to_nat n) todosEntregadores)
       else retornar todosEntregadores)
    (fun e => lancar e).

Definition buscarEntregadoresPorNome (termoPesquisa : string) (limit : option Z)
  : M (list Linha) :=
  let limit := default 50 limit in
  tentar
    (r ← consultar (RankingIlike ("%" ++ termoPesquisa ++ "%") limit);
     seErroLancar r ;;
     retornar (default [] (data r)))
    (fun e => lancar e).

Definition inserirTurnos (turnos : list Registro) : M (Inserido.t Linha) :=
  tentar
    (r ← consultar (TurnosInsert turnos);
     seErroLancar r ;;
     retornar {| Inserido.success := true; Inserido.data := data r |})
    (fun e => lancar e).

Definition recalcularRanking : M Feito.t :=
  tentar
    (r ← consultar (Rpc "recalcular_ranking");
     seErroLancar r ;;
     retornar {| Feito.success := true |})
    (fun e => lancar e).

Definition limparTodosDados : M Feito.t :=
  tentar
    (consultar (DeleteAll "ranking_entregadores") ;;
     consultar (DeleteAll "turnos_entregadores") ;;
     retornar {| Feito.success := true |})
    (fun e => lancar e).

(** [arr.slice(i, j)] for [0 <= i <= j]. *)
Definition slice {A} (i j : nat) (arr : list A) : list A :=
  take (j - i) (drop i arr).

(** The [for] loop of [uploadCompleto], from index [i] on. *)
Fixpoint inserirLotes (voltas : nat) (turnosProcessados : list Registro) (i : nat)
  : M unit :=
  if (i <? length turnosProcessados)%nat then
    match voltas with
    | O => esgotar
    | S voltas' =>
        let batch := slice i (i + 500) turnosProcessados in
        inserirTurnos batch ;;
        inserirLotes voltas' turnosProcessados (i + 500)
    end
  else retornar tt.

Definition uploadCompleto (turnosProcessados : list Registro) : M Upload.t :=
  tentar
    (limparTodosDados ;;
     inserirLotes (length turnosProcessados) turnosProcessados 0 ;;
     recalcularRanking ;;
     retornar {| Upload.success := true;
                 Upload.turnosInseridos := length turnosProcessados |})
    (fun e => lancar e).

Definition verificarConexao : M bool :=
  tentar
    (r ← consultar RankingCount;
     seErroLancar r ;;
     retornar true)
    (fun _ => retornar false).

End Client.

Arguments Retorna {Erro A}.
Arguments Lanca {Erro A}.
Arguments Esgotado {Erro A}.
Arguments TypeError {Erro}.
Arguments Lancado {Erro}.
Arguments RankingLimit {Registro}.
Arguments RankingRange {Registro}.
Arguments RankingIlike {Registro}.
Arguments RankingCount {Registro}.
Arguments TurnosInsert {Registro}.
Arguments Rpc {Registro}.
Arguments DeleteAll {Registro}.
Arguments Resolvido {Linha Erro}.
Arguments Rejeitado {Linha Erro}.
Arguments data {Linha Erro}.
Arguments error {Linha Erro}.
Arguments supabase {Linha Registro Erro Cliente Loja}.
Arguments loja {Linha Registro Erro Cliente Loja}.
Arguments chamadas {Linha Registro Erro Cliente Loja}.
Arguments Build_Mundo {Linha Registro Erro Cliente Loja}.
Arguments Build_Resposta {Linha Erro}.
Arguments retornar {Linha Registro Erro Cliente Loja A}.
Arguments lancar {Linha Registro Erro Cliente Loja A}.
Arguments vincular {Linha Registro Erro Cliente Loja A B}.
Arguments tentar {Linha Registro Erro Cliente Loja A}.
Arguments consultar {Linha Registro Erro Cliente Loja}.
Arguments seErroLancar {Linha Registro Erro Cliente Loja}.
Arguments initSupabase {Linha Registro Erro Cliente Loja}.
Arguments paginar {Linha Registro Erro Cliente Loja}.
Arguments buscarRanking {Linha Registro Erro Cliente Loja}.
Arguments buscarEntregadoresPorNome {Linha Registro Erro Cliente Loja}.
Arguments inserirTurnos {Linha Registro Erro Cliente Loja}.
Arguments recalcularRanking {Linha Registro Erro Cliente Loja}.
Arguments limparTodosDados {Linha Registro Erro Cliente Loja}.
Arguments inserirLotes {Linha Registro Erro Cliente Loja}.
Arguments uploadCompleto {Linha Registro Erro Cliente Loja}.
Arguments verificarConexao {Linha Registro Erro Cliente Loja}.

End SupabaseClient.

(** * The vocabulary of the properties *)

(** The percentage [calcularPontosTurno] computes for a shift. *)
Definition percentualDoTurno (turno : Turno) : float :=
  calcularPercentualOnline (tempo_disponivel_absoluto turno)
                           (duracao_do_periodo turno).

(** The shift [turno] as worked by the worker [id]. *)
Definition turnoDoEntregador (id : string) (turno : Turno) : Turno :=
  {| id_da_pessoa_entregadora := id;
     pessoa_entregadora := pessoa_entregadora turno;
     data_do_periodo := data_do_periodo turno;
     duracao_do_periodo := duracao_do_periodo turno;
     tempo_disponivel_absoluto := tempo_disponivel_absoluto turno;
     numero_de_corridas_completadas := numero_de_corridas_completadas turno |}.

(** A shift from its duration texts, for the examples. *)
Definition turnoDe (data duracao online : string) (entregas : Z) : Turno :=
  {| id_da_pessoa_entregadora := "e1";
     pessoa_entregadora := "Entregador 1";
     data_do_periodo := data;
     duracao_do_periodo := Str duracao;
     tempo_disponivel_absoluto := Str online;
     numero_de_corridas_completadas := Some entregas |}.

(** The order of a list sorted by descending [key]. *)
Definition descending {A : Type} (key : A -> Z) (a b : A) : Prop := key b <= key a.

Definition somaZ (l : list Z) : Z := foldr Z.add 0 l.

(** The shifts of one worker, in the order of the input. *)
Definition turnosDe (w : string) (turnos : list TurnoFinal) : list TurnoFinal :=
  filter (fun f => id_da_pessoa_entregadora (turnoBase f) = w) turnos.

(** The shifts of the workers that get an entry in the dictionary of
    [calcularRanking]: those whose identifier names no inherited member. *)
Definition turnosComEntrada (turnos : list TurnoFinal) : list TurnoFinal :=
  filter (fun f => herdado (id_da_pessoa_entregadora (turnoBase f)) = false) turnos.

(** What [acumular] does to the entry of the worker of a shift. *)
Definition passoAcc (o : option Acc.t) (turno : TurnoFinal) : option Acc.t :=
  Some (somarAcc turno (default (novoAcc turno) o)).

(** The entries of the dictionary carry their key, and no key twice. *)
Definition dictOk (d : Dict Acc.t) : Prop :=
  NoDup (map fst d)
  /\ Forall (fun kv => Acc.id_da_pessoa_entregadora kv.2 = kv.1) d.

(** Whether a character occurs in a text. *)
Fixpoint contem (c : ascii) (s : string) : bool :=
  match s with
  | EmptyString => false
  | String c' rest => Ascii.eqb c' c || contem c rest
  end.

(** The shifts of a key, in the order of the input. *)
Definition grupoDe (k : string) (turnos : list (Ref TurnoComPontos))
  : list (Ref TurnoComPontos) :=
  filter (fun r => chave (turno_de (deref r)) = k) turnos.

(** A Number that is +0, a positive finite value or +Infinity. *)
Definition naoNegativo (sf : spec_float) : Prop :=
  match sf with
  | S754_zero false | S754_finite false _ _ | S754_infinity false => True
  | _ => False
  end.

(** *** Decimal numerals *)

Definition ehDigito (c : ascii) : bool :=
  let n := N_of_ascii c in ((48 <=? n) && (n <=? 57))%N.

Definition valorDigito (c : ascii) : Z := Z.of_N (N_of_ascii c) - 48.

(** The number a decimal numeral denotes. *)
Definition valorDeDigitos (l : list ascii) : Z :=
  fold_left (fun acc c => acc * 10 + valorDigito c) l 0.

Definition valorDecimal (s : string) : Z := valorDeDigitos (list_ascii_of_string s).

(** A non-empty text of decimal digits. *)
Definition soDigitos (s : string) : bool :=
  negb (String.eqb s "") && forallb ehDigito (list_ascii_of_string s).

(** What stops a run of digits: the end of the text or a character that
    is no digit. *)
Definition semDigitoInicial (l : list ascii) : Prop :=
  match l with
  | [] => True
  | c :: _ => ehDigito c = false
  end.

(** The text of a field after its leading white space and optional sign. *)
Definition corpo (s : string) : list ascii :=
  snd (readSign (trimStart (list_ascii_of_string s))).

(** A field that holds no number: its text starts neither with a digit
    nor with a point and a digit. *)
Definition semNumero (s : string) : bool :=
  match corpo s with
  | [] => true
  | c :: resto =>
      negb (ehDigito c)
      && negb (Ascii.eqb c "." && match resto with
                                  | d :: _ => ehDigito d
                                  | [] => false
                                  end)
  end.

(** The text of a duration from its fields. *)
Definition textoDuracao (hh mm ss : string) (fracao : option string) : string :=
  hh ++ ":" ++ mm ++ ":" ++ ss ++ from_option (fun f => "." ++ f) "" fracao.

(** The Gregorian calendar of the specification. *)
Definition bissexto (y : Z) : bool :=
  ((y mod 4 =? 0) && negb (y mod 100 =? 0)) || (y mod 400 =? 0).

Definition diasNoMes (y m : Z) : Z :=
  match m with
  | 1 | 3 | 5 | 7 | 8 | 10 | 12 => 31
  | 4 | 6 | 9 | 11 => 30
  | 2 => if bissexto y then 29 else 28
  | _ => 0
  end.

(** A calendar date with a four-digit year. *)
Definition dataValida (y m d : Z) : Prop :=
  0 <= y <= 9999 /\ 1 <= m <= 12 /\ 1 <= d <= diasNoMes y m.

(** The decimal digit of a value from 0 to 9. *)
Definition digito (v : Z) : ascii := ascii_of_N (Z.to_N (48 + v)).

(** The numeral of [n] on [k] digits, most significant first. *)
Fixpoint digitos (k : nat) (n : Z) : list ascii :=
  match k with
  | O => []
  | S k' => digito (n / 10 ^ Z.of_nat k') :: digitos k' (n mod 10 ^ Z.of_nat k')
  end.

(** The date-only text [YYYY-MM-DD]. *)
Definition textoData (y m d : Z) : string :=
  string_of_list_ascii
    (digitos 4 y ++ "-"%char :: digitos 2 m ++ "-"%char :: digitos 2 d).

(** The characters of a date-only text: digits and the dash. *)
Definition caractereDeData (c : ascii) : bool := ehDigito c || Ascii.eqb c "-".

(** The date-only text of a calendar day, a year, a month and a day. *)
Definition textoDoDia (dia : Z * Z * Z) : string :=
  let '(y, m, d) := dia in textoData y m d.

(** A date text written on the calendar day [dia]: the date [YYYY-MM-DD]
    of the day, alone or followed by [T] and a time of day. *)
Definition escritoEm (dia : Z * Z * Z) (texto : string) : Prop :=
  (let '(y, m, d) := dia in dataValida y m d)
  /\ exists horario : option string,
       texto = textoDoDia dia ++ from_option (fun h => "T" ++ h) "" horario.

(** The special dates: 24, 25 and 31 December, 1 January. *)
Definition natalOuAnoNovo (dia mes : Z) : Prop :=
  (dia = 24 /\ mes = 12) \/ (dia = 25 /\ mes = 12)
  \/ (dia = 31 /\ mes = 12) \/ (dia = 1 /\ mes = 1).

(** A date whose day and month, read in UTC, are a special date. *)
Definition dataEspecialUTC (date : JsDate.Date) : Prop :=
  exists dia mes,
    JsDate.getUTCDate date = Some dia
    /\ JsDate.getUTCMonth date = Some (mes - 1)
    /\ natalOuAnoNovo dia mes.

(** Two shifts of one worker on Christmas day, the second one stored with
    a time of day. *)
Definition turnosExemplo : list Turno :=
  [turnoDe "2024-12-25" "08:00:00" "07:30:00" 12;
   turnoDe "2024-12-25T14:00:00" "04:00:00" "01:00:00" 10].

(** A host in São Paulo, three hours behind UTC, with an engine that reads
    the date-time string format and no other. *)
Definition fusoSaoPaulo : JsDate.Host :=
  {| JsDate.LocalTZA := fun _ => -10800000;
     JsDate.fallbackParse := fun _ => None |}.

(** *** The order of the ranking *)

(** The distinct elements of a list, in the order of their first
    occurrence. *)
Fixpoint primeiros {A : Type} `{EqDecision A} (l : list A) : list A :=
  match l with
  | [] => []
  | x :: l' => x :: filter (fun y => y <> x) (primeiros l')
  end.

(** The order in which [Object.values] enumerates the properties created
    in the order [keys]. *)
Definition ordemDeEnumeracao (keys : list string) : list string :=
  objectValues (map (fun k => (k, k)) keys).

(** What [acumular] does to the keys of the dictionary, for a worker that
    gets an entry. *)
Definition passoChave (acc : list string) (x : string) : list string :=
  if decide (x ∈ acc) then acc else (acc ++ [x])%list.

(** *** The daily bonus along the input *)

(** The daily bonus of a shift that comes after the shifts [antes]: that
    of its key, [V], unless one of them has the key. *)
Definition bonusApos (V : string -> Z) (antes : list Turno) (t : Turno) : Z :=
  if decide (Exists (fun t' => chave t' = chave t) antes) then 0 else V (chave t).

(** The deliveries of a key in the input. *)
Definition entregasDaChave (turnos : list Turno) (k : string) : Z :=
  somaZ (map (fun t => default 0 (numero_de_corridas_completadas t))
             (filter (fun t => chave t = k) turnos)).

(** *** Text after the number of a field *)

(** A text that does not continue a numeral: it is empty, or starts with
    a character that is neither a digit nor one of [proibidos]. *)
Definition naoContinua (proibidos : list ascii) (r : string) : bool :=
  match r with
  | EmptyString => true
  | String c _ => negb (ehDigito c) && negb (existsb (Ascii.eqb c) proibidos)
  end.

(** *** Date-time texts *)

(** The time of day [HH:mm:ss]. *)
Definition textoHorario (h mi s : Z) : list ascii :=
  (digitos 2 h ++ ":"%char :: digitos 2 mi ++ ":"%char :: digitos 2 s)%list.

(** What follows the time of day: [Z], nothing (a local time), or an
    offset [+HH:mm] ahead of UTC or [-HH:mm] behind it. *)
Inductive Fuso : Type :=
| FusoUTC
| FusoLocal
| FusoDesvio (adiante : bool) (h mi : Z).

Definition textoFuso (f : Fuso) : list ascii :=
  match f with
  | FusoUTC => ["Z"%char]
  | FusoLocal => []
  | FusoDesvio adiante h mi =>
      ((if adiante then "+" else "-")%char :: digitos 2 h ++ ":"%char :: digitos 2 mi)%list
  end.

(** The text [YYYY-MM-DDTHH:mm:ss] and its zone. *)
Definition textoDataHora (y m d h mi s : Z) (f : Fuso) : string :=
  textoData y m d ++ "T" ++ string_of_list_ascii (textoHorario h mi s ++ textoFuso f).

(** How far the clock of the text is ahead of UTC, in milliseconds, at
    the time value [t] read as UTC. *)
Definition desvioDoFuso (host : JsDate.Host) (f : Fuso) (t : Z) : Z :=
  match f with
  | FusoUTC => 0
  | FusoLocal => JsDate.LocalTZA host t
  | FusoDesvio adiante h mi =>
      if adiante then JsDate.MakeTime h mi 0 0 else - JsDate.MakeTime h mi 0 0
  end.

(** An offset of the text has hours to 23 and minutes to 59; the offset
    of the host is within a day. *)
Definition fusoValido (host : JsDate.Host) (f : Fuso) (t : Z) : Prop :=
  match f with
  | FusoUTC => True
  | FusoLocal => - JsDate.msPerDay < JsDate.LocalTZA host t < JsDate.msPerDay
  | FusoDesvio _ h mi => 0 <= h <= 23 /\ 0 <= mi <= 59
  end.

(** *** The queries of the client *)

Section ClientVocabulary.

Import SupabaseClient.

Context {Linha Registro Erro Cliente Loja : Type}.

Variable executa :
  Cliente -> Consulta Registro -> Loja -> Desfecho Linha Erro * Loja.

(** What the module throws on the outcome of a query, if anything: the
    reason of a rejection, or the [error] of the response, which the two
    deletions of [limparTodosDados] do not look at. *)
Definition falha (qd : Consulta Registro * Desfecho Linha Erro) : option (Excecao Erro) :=
  match qd with
  | (_, Rejeitado e) => Some (Lancado e)
  | (DeleteAll _, Resolvido _) => None
  | (_, Resolvido r) => Lancado <$> error r
  end.

(** The batches of [n] elements of a list, in order, the last one with
    what is left; [voltas] bounds their number. *)
Fixpoint lotesAte (voltas : nat) (n : nat) (l : list Registro) : list (list Registro) :=
  match voltas, l with
  | S voltas', _ :: _ => take n l :: lotesAte voltas' n (drop n l)
  | _, _ => []
  end.

Definition lotes (n : nat) (l : list Registro) : list (list Registro) :=
  lotesAte (length l) n l.

(** The queries of a complete upload. *)
Definition plano (turnos : list Registro) : list (Consulta Registro) :=
  ([DeleteAll "ranking_entregadores"; DeleteAll "turnos_entregadores"]
   ++ map TurnosInsert (lotes 500 turnos)
   ++ [Rpc "recalcular_ranking"])%list.

(** How a run of queries [p] relates to the queries [qs] it was to make
    and to its result: it returns when all of [qs] were sent and none
    failed, and throws what the first failing query makes it throw, the
    last one sent. *)
Definition cumpre {A} (qs : list (Consulta Registro)) (Q : A -> Prop)
           (res : Resultado Erro A) (p : list (Consulta Registro * Desfecho Linha Erro))
  : Prop :=
  match res with
  | Retorna a => Q a /\ map fst p = qs /\ Forall (fun qd => falha qd = None) p
  | Lanca e =>
      exists p0 qd,
        p = (p0 ++ [qd])%list
        /\ Forall (fun qd => falha qd = None) p0
        /\ falha qd = Some e
        /\ map fst p `prefix_of` qs
  | Esgotado => False
  end.

(** A computation that, with a client, sends the queries [qs] in order
    and stops at the first that fails. *)
Definition envia {A} (m : M Linha Registro Erro Cliente Loja A)
           (qs : list (Consulta Registro)) (Q : A -> Prop) : Prop :=
  forall (w : Mundo Linha Registro Erro Cliente Loja) c,
    supabase w = Some c ->
    exists p,
      supabase (m w).2 = Some c
      /\ chamadas (m w).2 = (chamadas w ++ p)%list
      /\ cumpre qs Q (m w).1 p.

(** The page [j] of the ranking. *)
Definition pagina (j : nat) : Consulta Registro :=
  RankingRange (Z.of_nat (1000 * j)) (Z.of_nat (1000 * j) + 1000 - 1).

(** The rows of an answer. *)
Definition linhasDe (qd : Consulta Registro * Desfecho Linha Erro) : list Linha :=
  match qd.2 with
  | Resolvido r => default [] (data r)
  | Rejeitado _ => []
  end.

(** A search that goes by pages: the limit is [null], 0 or above 1000. *)
Definition buscaPaginada (limit : Limite) : Prop :=
  match limit with
  | Omitido => False
  | Nulo => True
  | Numero n => n = 0 \/ 1000 < n
  end.

(** The number of rows a search asks for: 1000 when the limit is left
    out, a million when it is [null] or 0. *)
Definition limiteEfetivo (limit : Limite) : Z :=
  match limit with
  | Omitido => 1000
  | Nulo => 1000000
  | Numero n => if n =? 0 then 1000000 else n
  end.

(** A store that holds the ranking [tabela], in descending order of
    points, and answers every search with the rows asked for, whatever its
    state. *)
Definition serve (tabela : list Linha) : Prop :=
  forall c s,
    (forall n, 0 <= n ->
       executa c (RankingLimit n) s
       = (Resolvido {| data := Some (take (Z.to_nat n) tabela); error := None |}, s))
    /\ (forall a b, 0 <= a <= b ->
          executa c (RankingRange a b) s
          = (Resolvido {| data := Some (take (Z.to_nat (b - a + 1))
                                             (drop (Z.to_nat a) tabela));
                          error := None |}, s)).

End ClientVocabulary.

(** A store for the examples: it serves the ranking [tabela] and accepts
    every other query. *)
Definition lojaExemplo (tabela : list Z) (c : unit) (q : SupabaseClient.Consulta Z)
           (s : unit) : SupabaseClient.Desfecho Z string * unit :=
  match q with
  | SupabaseClient.RankingLimit n =>
      (SupabaseClient.Resolvido
         {| SupabaseClient.data := Some (take (Z.to_nat n) tabela);
            SupabaseClient.error := None |}, s)
  | SupabaseClient.RankingRange a b =>
      (SupabaseClient.Resolvido
         {| SupabaseClient.data := Some (take (Z.to_nat (b - a + 1))
                                              (drop (Z.to_nat a) tabela));
            SupabaseClient.error := None |}, s)
  | _ =>
      (SupabaseClient.Resolvido
         {| SupabaseClient.data := None; SupabaseClient.error := None |}, s)
  end.

(** The module after [initSupabase], nothing sent yet. *)
Definition mundoExemplo : SupabaseClient.Mundo Z Z string unit unit :=
  {| SupabaseClient.supabase := Some tt;
     SupabaseClient.loja := tt;
     SupabaseClient.chamadas := [] |}.

(** * Properties *)

(** ** Properties of the per-shift score *)

Section ShiftScore.

Variable host : JsDate.Host.

Lemma percentual_armazenado turno :
  percentual_tempo_online (calcularPontosTurno host turno)
  = toFixed2 (percentualDoTurno turno).
Proof. reflexivity. Qed.

Lemma bonus_90_online_eq turno :
  bonus_90_online (calcularPontosTurno host turno)
  = if PrimFloat.leb 90 (percentualDoTurno turno) then 50 else 0.
Proof. reflexivity. Qed.

Lemma bonus_data_especial_eq turno :
  bonus_data_especial (calcularPontosTurno host turno)
  = if PrimFloat.leb 90 (percentualDoTurno turno)
       && isDataEspecial (JsDate.parse host (data_do_periodo turno))
    then 50 else 0.
Proof. reflexivity. Qed.

(** C3: the online bonus is 50 exactly when the computed percentage is at
    least 90, and 0 otherwise. The threshold is inclusive: 7h12 online out
    of 8h is exactly 90 and earns the bonus; 89999 seconds out of 100000
    (89.999 percent) does not. *)
Theorem bonus_90_online_threshold turno :
  (bonus_90_online (calcularPontosTurno host turno) = 50
   <-> PrimFloat.leb 90 (percentualDoTurno turno) = true)
  /\ (bonus_90_online (calcularPontosTurno host turno) = 0
      <-> PrimFloat.leb 90 (percentualDoTurno turno) = false)
  /\ (let exato := turnoDe "2024-03-10" "08:00:00" "07:12:00" 0 in
      percentualDoTurno exato = 90%float
      /\ bonus_90_online (calcularPontosTurno host exato) = 50)
  /\ (let abaixo := turnoDe "2024-03-10" "27:46:40" "24:59:59" 0 in
      durationToSeconds (tempo_disponivel_absoluto abaixo) = 89999%float
      /\ durationToSeconds (duracao_do_periodo abaixo) = 100000%float
      /\ PrimFloat.ltb (percentualDoTurno abaixo) 90 = true
      /\ bonus_90_online (calcularPontosTurno host abaixo) = 0).
Proof.
  rewrite bonus_90_online_eq.
  split; [|split; [|split]].
  - destruct (PrimFloat.leb 90 (percentualDoTurno turno)); split; congruence.
  - destruct (PrimFloat.leb 90 (percentualDoTurno turno)); split; congruence.
  - split; [vm_compute; reflexivity | rewrite bonus_90_online_eq; vm_compute; reflexivity].
  - repeat split; try (vm_compute; reflexivity).
Qed.

(** The guard of [calcularPercentualOnline]: a scheduled duration equal to
    zero gives the percentage 0, whatever the online duration. *)
Lemma percentual_duracao_zero tempoOnline duracaoTurno :
  PrimFloat.eqb (durationToSeconds duracaoTurno) 0 = true ->
  calcularPercentualOnline tempoOnline duracaoTurno = 0%float.
Proof. intros H. unfold calcularPercentualOnline. now rewrite H. Qed.

(** The division is only reached with a divisor that is not zero. *)
Lemma percentual_divide tempoOnline duracaoTurno :
  PrimFloat.eqb (durationToSeconds duracaoTurno) 0 = false ->
  calcularPercentualOnline tempoOnline duracaoTurno
  = (durationToSeconds tempoOnline / durationToSeconds duracaoTurno * 100)%float.
Proof. intros H. unfold calcularPercentualOnline. now rewrite H. Qed.

(** C7: when the scheduled duration of a shift parses to 0 seconds, the
    online percentage is 0 (the division is not performed), the stored
    percentage is 0, and the shift earns neither the online bonus nor the
    special-date bonus, whatever its online duration. *)
Theorem duracao_zero_sem_bonus turno :
  PrimFloat.eqb (durationToSeconds (duracao_do_periodo turno)) 0 = true ->
  percentualDoTurno turno = 0%float
  /\ percentual_tempo_online (calcularPontosTurno host turno) = 0%float
  /\ bonus_90_online (calcularPontosTurno host turno) = 0
  /\ bonus_data_especial (calcularPontosTurno host turno) = 0.
Proof.
  intros H.
  assert (Hp : percentualDoTurno turno = 0%float)
    by (apply percentual_duracao_zero; exact H).
  rewrite percentual_armazenado, bonus_90_online_eq, bonus_data_especial_eq, Hp.
  repeat split.
Qed.

(** C10: the bonus is decided on the unrounded percentage and the stored
    percentage is that value rounded to two decimals; 89996 seconds online
    out of 100000 (89.996 percent) is stored as 90 and earns no bonus. *)
Theorem percentual_armazenado_nao_decide :
  (forall turno,
      percentual_tempo_online (calcularPontosTurno host turno)
      = toFixed2 (percentualDoTurno turno)
      /\ (bonus_90_online (calcularPontosTurno host turno) = 50
          <-> PrimFloat.leb 90 (percentualDoTurno turno) = true))
  /\ (let turno := turnoDe "2024-03-10" "27:46:40" "24:59:56" 0 in
      durationToSeconds (tempo_disponivel_absoluto turno) = 89996%float
      /\ durationToSeconds (duracao_do_periodo turno) = 100000%float
      /\ PrimFloat.ltb (percentualDoTurno turno) 90 = true
      /\ percentual_tempo_online (calcularPontosTurno host turno) = 90%float
      /\ bonus_90_online (calcularPontosTurno host turno) = 0).
Proof.
  split.
  - intros turno. split; [reflexivity|].
    rewrite bonus_90_online_eq.
    destruct (PrimFloat.leb 90 (percentualDoTurno turno)); split; congruence.
  - repeat split; vm_compute; reflexivity.
Qed.

(** C9, evaluated: one hour online written with a minus sign, out of eight
    hours, gives the percentage -12.5, computed and stored. *)
Theorem percentual_negativo :
  let turno := turnoDe "2024-03-10" "08:00:00" "-01:00:00" 0 in
  percentualDoTurno turno = (-12.5)%float
  /\ percentual_tempo_online (calcularPontosTurno host turno) = (-12.5)%float
  /\ PrimFloat.leb 0 (percentualDoTurno turno) = false.
Proof. repeat split; vm_compute; reflexivity. Qed.

End ShiftScore.

(** The scheduled duration "00:00:00" with 7h30 online. *)
Lemma duracao_zero_sem_bonus_witness :
  let turno := turnoDe "2024-12-25" "00:00:00" "07:30:00" 12 in
  percentualDoTurno turno = 0%float
  /\ percentual_tempo_online (calcularPontosTurno fusoSaoPaulo turno) = 0%float
  /\ bonus_90_online (calcularPontosTurno fusoSaoPaulo turno) = 0
  /\ bonus_data_especial (calcularPontosTurno fusoSaoPaulo turno) = 0.
Proof.
  apply (duracao_zero_sem_bonus fusoSaoPaulo
           (turnoDe "2024-12-25" "00:00:00" "07:30:00" 12)).
  vm_compute. reflexivity.
Defined.

(** ** Properties of the stable sort *)

Section Sort.

Context {A : Type}.

Lemma insertSorted_perm (cmp : A -> A -> Z) x l :
  Permutation (insertSorted cmp x l) (x :: l).
Proof.
  induction l as [|y l IH]; simpl; [reflexivity|].
  destruct (0 <? cmp x y); [|reflexivity].
  rewrite IH. apply perm_swap.
Qed.

Lemma sort_perm (cmp : A -> A -> Z) l : Permutation (sort cmp l) l.
Proof.
  induction l as [|x l IH]; simpl; [reflexivity|].
  unfold sort in *. simpl. rewrite insertSorted_perm. now constructor.
Qed.

(** Sorting by a comparator [key b - key a] yields descending keys. *)
Variable key : A -> Z.

Lemma insertSorted_HdRel x y l :
  descending key y x -> HdRel (descending key) y l ->
  HdRel (descending key) y (insertSorted (fun a b => key b - key a) x l).
Proof.
  intros Hyx Hhd. destruct l as [|z l]; simpl; [now constructor|].
  destruct (0 <? key z - key x); constructor; auto.
  now inversion Hhd.
Qed.

Lemma insertSorted_sorted x l :
  Sorted (descending key) l ->
  Sorted (descending key) (insertSorted (fun a b => key b - key a) x l).
Proof.
  induction 1 as [|y l Hs IH Hhd]; simpl.
  - repeat constructor.
  - destruct (0 <? key y - key x) eqn:E.
    + constructor; [exact IH|].
      apply insertSorted_HdRel; [|exact Hhd].
      apply Z.ltb_lt in E. unfold descending. lia.
    + constructor; [now constructor|].
      constructor. apply Z.ltb_ge in E. unfold descending. lia.
Qed.

Lemma sort_sorted l :
  Sorted (descending key) (sort (fun a b => key b - key a) l).
Proof.
  induction l as [|x l IH]; [constructor|].
  apply insertSorted_sorted, IH.
Qed.

Lemma sorted_adjacent l i a b :
  Sorted (descending key) l ->
  l !! i = Some a -> l !! S i = Some b -> key b <= key a.
Proof.
  intros Hs. revert i. induction Hs as [|x l Hs IH Hhd]; intros i Ha Hb.
  - discriminate.
  - destruct i as [|i]; simpl in *.
    + injection Ha as ->. destruct l as [|y l]; [discriminate|].
      simpl in Hb. injection Hb as ->. now inversion Hhd.
    + eapply IH; eassumption.
Qed.

End Sort.

(** ** Properties of the ranking *)

(** C6: the ranking is sorted by [total_pontos] in descending order: no
    entry has fewer points than the entry that follows it. *)
Theorem ranking_ordenado (turnos : list TurnoFinal) :
  Sorted (fun a b => Rank.total_pontos b <= Rank.total_pontos a)
         (calcularRanking turnos)
  /\ forall i a b,
       calcularRanking turnos !! i = Some a ->
       calcularRanking turnos !! S i = Some b ->
       Rank.total_pontos a >= Rank.total_pontos b.
Proof.
  assert (Hs : Sorted (descending Rank.total_pontos) (calcularRanking turnos))
    by apply sort_sorted.
  split; [exact Hs|].
  intros i a b Ha Hb.
  apply Z.le_ge. eapply sorted_adjacent; eassumption.
Qed.

Lemma orZeroZ_default n : orZeroZ n = default 0 n.
Proof. destruct n as [k|]; simpl; [|reflexivity]. destruct (Z.eqb_spec k 0); congruence. Qed.

Section Dict.

Context {A : Type}.

Lemma dictLookup_add (d : Dict A) key k v :
  dictLookup k (dictAdd key v d)
  = match dictLookup k d with
    | Some x => Some x
    | None => if String.eqb key k then Some v else None
    end.
Proof.
  unfold dictAdd. induction d as [|[k' v'] d IH]; simpl; [reflexivity|].
  destruct (String.eqb k' k); [reflexivity | exact IH].
Qed.

Lemma dictLookup_update (d : Dict A) key f k :
  dictLookup k (dictUpdate key f d)
  = if String.eqb key k then f <$> dictLookup k d else dictLookup k d.
Proof.
  induction d as [|[k' v'] d IH]; simpl.
  - now destruct (String.eqb key k).
  - destruct (String.eqb_spec k' key) as [->|Hne]; simpl.
    + destruct (String.eqb_spec key k) as [->|Hne']; simpl; [reflexivity|].
      reflexivity.
    + destruct (String.eqb_spec k' k) as [->|Hne']; simpl.
      * destruct (String.eqb_spec key k); [congruence | reflexivity].
      * exact IH.
Qed.

Lemma dictUpdate_keys (d : Dict A) key f :
  map fst (dictUpdate key f d) = map fst d.
Proof.
  induction d as [|[k' v'] d IH]; simpl; [reflexivity|].
  destruct (String.eqb k' key); simpl; [reflexivity | now rewrite IH].
Qed.

Lemma dictLookup_None (d : Dict A) k :
  dictLookup k d = None <-> ~ In k (map fst d).
Proof.
  induction d as [|[k' v'] d IH]; simpl; [tauto|].
  destruct (String.eqb_spec k' k) as [->|Hne].
  - split; [discriminate | tauto].
  - rewrite IH. tauto.
Qed.

Lemma dictUpdate_Forall (P : string * A -> Prop) (d : Dict A) key f :
  Forall P d ->
  (forall v, P (key, v) -> P (key, f v)) ->
  Forall P (dictUpdate key f d).
Proof.
  intros Hd Hf. induction Hd as [|[k' v'] d Hkv Hd IH]; simpl; [constructor|].
  destruct (String.eqb_spec k' key) as [->|Hne]; constructor; auto.
Qed.

(** [Object.values] enumerates every own property once. *)
Lemma objectValues_perm (d : Dict A) : Permutation (objectValues d) (map snd d).
Proof.
  unfold objectValues. rewrite sort_perm.
  induction d as [|[k v] d IH]; [reflexivity|].
  rewrite filter_cons. cbn [omap list_omap fst snd].
  destruct (arrayIndex k) as [i|] eqn:E.
  - rewrite decide_False by discriminate. simpl. now constructor.
  - rewrite decide_True by reflexivity. simpl.
    rewrite <- Permutation_middle. now constructor.
Qed.

End Dict.

(** A shift under an inherited name leaves the dictionary as it is. *)
Lemma acumular_herdado d turno :
  herdado (id_da_pessoa_entregadora (turnoBase turno)) = true ->
  acumular d turno = d.
Proof. intros H. unfold acumular. now rewrite H. Qed.

Lemma acumular_lookup d turno k :
  dictLookup k (acumular d turno)
  = if herdado k then dictLookup k d
    else if String.eqb (id_da_pessoa_entregadora (turnoBase turno)) k
    then passoAcc (dictLookup k d) turno
    else dictLookup k d.
Proof.
  unfold acumular.
  set (id := id_da_pessoa_entregadora (turnoBase turno)).
  destruct (herdado id) eqn:Hid.
  { destruct (herdado k) eqn:Hk; [reflexivity|].
    destruct (String.eqb_spec id k); [congruence | reflexivity]. }
  rewrite dictLookup_update.
  destruct (String.eqb_spec id k) as [<-|Hne].
  - rewrite Hid. destruct (dictLookup id d) as [e|] eqn:E.
    + now rewrite E.
    + rewrite dictLookup_add, E, String.eqb_refl. reflexivity.
  - transitivity (dictLookup k d); [|now destruct (herdado k)].
    destruct (dictLookup id d) as [e|] eqn:E; [reflexivity|].
    rewrite dictLookup_add.
    destruct (dictLookup k d); [reflexivity|].
    destruct (String.eqb_spec id k); congruence.
Qed.

Lemma foldl_acumular_lookup turnos d k :
  dictLookup k (foldl acumular d turnos)
  = if herdado k then dictLookup k d
    else foldl passoAcc (dictLookup k d) (turnosDe k turnos).
Proof.
  revert d. induction turnos as [|f turnos IH]; intros d; simpl.
  { now destruct (herdado k). }
  rewrite IH, acumular_lookup. destruct (herdado k); [reflexivity|].
  unfold turnosDe. rewrite filter_cons.
  destruct (String.eqb_spec (id_da_pessoa_entregadora (turnoBase f)) k) as [E|E].
  - rewrite decide_True by exact E. reflexivity.
  - rewrite decide_False by exact E. reflexivity.
Qed.

(** No entry of the dictionary stands under an inherited name. *)
Lemma foldl_acumular_proprio turnos k :
  herdado k = true -> dictLookup k (foldl acumular [] turnos) = None.
Proof. intros H. now rewrite foldl_acumular_lookup, H. Qed.

(** The totals an entry holds after a run of shifts of its worker. *)
Lemma foldl_passoAcc_totais grupo e :
  exists e',
    foldl passoAcc (Some e) grupo = Some e'
    /\ Acc.total_pontos e'
       = Acc.total_pontos e + somaZ (map total_pontos_final grupo)
    /\ Acc.total_entregas e'
       = Acc.total_entregas e
         + somaZ (map (fun f => default 0 (numero_de_corridas_completadas (turnoBase f)))
                      grupo)
    /\ Acc.total_turnos e' = Acc.total_turnos e + Z.of_nat (length grupo).
Proof.
  revert e. induction grupo as [|f grupo IH]; intros e.
  - exists e. simpl. repeat split; lia.
  - simpl foldl. unfold passoAcc at 2. simpl default.
    destruct (IH (somarAcc f e)) as (e' & -> & Hp & He & Ht).
    exists e'. split; [reflexivity|].
    rewrite Hp, He, Ht. simpl Acc.total_pontos. simpl Acc.total_entregas.
    simpl Acc.total_turnos. rewrite !orZeroZ_default.
    cbn [map somaZ foldr length default]. fold (somaZ (map total_pontos_final grupo)).
    destruct (Z.eqb_spec (total_pontos_final f) 0); unfold somaZ; repeat split; lia.
Qed.

Lemma acumular_ok d turno : dictOk d -> dictOk (acumular d turno).
Proof.
  intros [Hnd Hid]. unfold acumular.
  set (id := id_da_pessoa_entregadora (turnoBase turno)).
  destruct (herdado id); [now split|].
  assert (Hok' : dictOk (match dictLookup id d with
                         | Some _ => d
                         | None => dictAdd id (novoAcc turno) d
                         end)).
  { destruct (dictLookup id d) eqn:E; [now split|].
    apply dictLookup_None in E. unfold dictAdd. split.
    - rewrite map_app. simpl. apply NoDup_app. repeat split; auto.
      + intros x Hx [->|[]]%list_elem_of_In. apply E. now apply list_elem_of_In.
      + apply NoDup_singleton.
    - apply Forall_app. split; [exact Hid|]. now repeat constructor. }
  destruct Hok' as [Hnd' Hid']. split.
  - now rewrite dictUpdate_keys.
  - apply dictUpdate_Forall; [exact Hid'|]. intros v Hv. exact Hv.
Qed.

Lemma foldl_acumular_ok turnos d : dictOk d -> dictOk (foldl acumular d turnos).
Proof.
  revert d. induction turnos as [|f turnos IH]; intros d Hd; simpl; [exact Hd|].
  apply IH, acumular_ok, Hd.
Qed.

Lemma filter_nenhum {A} (P : A -> Prop) `{forall x, Decision (P x)} (l : list A) :
  (forall x, x ∈ l -> ~ P x) -> filter P l = [].
Proof.
  induction l as [|x l IH]; intros Hl; [reflexivity|].
  rewrite filter_cons_False by (apply Hl; left).
  apply IH. intros y Hy. apply Hl. now right.
Qed.

Lemma dictOk_filter d w e :
  dictOk d -> dictLookup w d = Some e ->
  filter (fun a => Acc.id_da_pessoa_entregadora a = w) (map snd d) = [e].
Proof.
  intros [Hnd Hid]. induction d as [|[k v] d IH]; simpl; [discriminate|].
  inversion Hnd as [|? ? Hk Hnd']; subst. inversion Hid as [|? ? Hkv Hid']; subst.
  simpl in Hkv. rewrite filter_cons.
  destruct (String.eqb_spec k w) as [->|Hne].
  - intros [= ->]. rewrite decide_True by exact Hkv. f_equal.
    apply filter_nenhum. intros a Ha Haw.
    apply Hk. apply list_elem_of_fmap in Ha as ([k' v'] & -> & Hin).
    rewrite Forall_forall in Hid'. specialize (Hid' _ Hin). simpl in *. subst.
    apply (list_elem_of_fmap_2 fst) in Hin. simpl in Hin.
    rewrite Haw in Hin. exact Hin.
  - intros Hl. rewrite decide_False by congruence. now apply IH.
Qed.

Lemma filter_entradaDoRanking w (l : list Acc.t) :
  filter (fun r => Rank.id_da_pessoa_entregadora r = w) (map entradaDoRanking l)
  = map entradaDoRanking (filter (fun a => Acc.id_da_pessoa_entregadora a = w) l).
Proof.
  induction l as [|a l IH]; [reflexivity|].
  cbn [map]. rewrite !filter_cons. cbn [entradaDoRanking Rank.id_da_pessoa_entregadora].
  destruct (decide (Acc.id_da_pessoa_entregadora a = w)); cbn [map]; now rewrite IH.
Qed.

Lemma calcularRanking_perm turnos :
  Permutation (calcularRanking turnos)
              (map entradaDoRanking (map snd (foldl acumular [] turnos))).
Proof.
  unfold calcularRanking. rewrite sort_perm.
  apply Permutation_map, objectValues_perm.
Qed.

(** A worker of the input whose identifier names no inherited member has
    exactly one entry in the ranking; its [total_pontos] is the sum of
    [total_pontos_final] over the worker's shifts, its [total_entregas] the
    sum of their completed deliveries (a missing count is 0), and its
    [total_turnos] their number. *)
Lemma ranking_do_entregador (turnos : list TurnoFinal) (w : string) :
  herdado w = false ->
  w ∈ map (fun f => id_da_pessoa_entregadora (turnoBase f)) turnos ->
  exists e,
    filter (fun r => Rank.id_da_pessoa_entregadora r = w) (calcularRanking turnos) = [e]
    /\ Rank.total_pontos e = somaZ (map total_pontos_final (turnosDe w turnos))
    /\ Rank.total_entregas e
       = somaZ (map (fun f => default 0 (numero_de_corridas_completadas (turnoBase f)))
                    (turnosDe w turnos))
    /\ Rank.total_turnos e = Z.of_nat (length (turnosDe w turnos)).
Proof.
  intros Hh Hw.
  assert (Hok : dictOk (foldl acumular [] turnos)).
  { apply foldl_acumular_ok. split; constructor. }
  pose proof (foldl_acumular_lookup turnos [] w) as Hl. simpl dictLookup in Hl.
  rewrite Hh in Hl.
  destruct (turnosDe w turnos) as [|f grupo] eqn:Eg.
  { exfalso. apply list_elem_of_fmap in Hw as (f & Hfw & Hf).
    assert (Hin : f ∈ turnosDe w turnos)
      by (apply list_elem_of_filter; split; [now symmetry | exact Hf]).
    rewrite Eg in Hin. inversion Hin. }
  cbn [foldl] in Hl. unfold passoAcc at 2 in Hl. cbn [default] in Hl.
  destruct (foldl_passoAcc_totais grupo (somarAcc f (novoAcc f)))
    as (e & He & Hp & Hd & Ht).
  rewrite He in Hl.
  exists (entradaDoRanking e). split; [|split; [|split]].
  - apply Permutation_singleton_r.
    rewrite calcularRanking_perm, filter_entradaDoRanking.
    now rewrite (dictOk_filter _ _ _ Hok Hl).
  - cbn [entradaDoRanking Rank.total_pontos]. rewrite Hp.
    cbn [somarAcc novoAcc Acc.total_pontos map somaZ foldr].
    rewrite orZeroZ_default. unfold somaZ. simpl default. lia.
  - cbn [entradaDoRanking Rank.total_entregas]. rewrite Hd.
    cbn [somarAcc novoAcc Acc.total_entregas map somaZ foldr].
    rewrite orZeroZ_default. unfold somaZ. lia.
  - cbn [entradaDoRanking Rank.total_turnos]. rewrite Ht.
    cbn [somarAcc novoAcc Acc.total_turnos length]. lia.
Qed.

(** The entries of the ranking stand under identifiers that name no
    inherited member: a worker with such an identifier has no entry. *)
Lemma ranking_sem_herdados (turnos : list TurnoFinal) (r : Rank.t) :
  r ∈ calcularRanking turnos -> herdado (Rank.id_da_pessoa_entregadora r) = false.
Proof.
  intros Hr. rewrite calcularRanking_perm in Hr.
  apply list_elem_of_fmap in Hr as (a & -> & Ha).
  apply list_elem_of_fmap in Ha as ([k e] & -> & Hin).
  assert (Hok : dictOk (foldl acumular [] turnos))
    by (apply foldl_acumular_ok; split; constructor).
  destruct Hok as [Hnd Hid].
  pose proof Hin as Hk. rewrite Forall_forall in Hid. apply Hid in Hk.
  cbn [fst snd entradaDoRanking Rank.id_da_pessoa_entregadora] in *. rewrite Hk.
  destruct (herdado k) eqn:E; [|reflexivity].
  pose proof (foldl_acumular_proprio turnos k E) as Hn.
  apply dictLookup_None in Hn. exfalso. apply Hn.
  apply list_elem_of_In. apply (list_elem_of_fmap_2 fst) in Hin. exact Hin.
Qed.

(** C5 fails on the code for a worker whose identifier names a member that
    the dictionary [{}] inherits from [Object.prototype]. Two shifts of
    the worker [constructor], of 12 and 8 deliveries: they are worth 120
    and 80 points, and the ranking is empty, where the claim gives the
    worker an entry with 200 points, 20 deliveries and 2 shifts. The same
    shifts of the worker [e1] give that entry, and after the shifts of
    [constructor] the ranking holds [e1] alone. *)
Theorem ranking_sem_o_entregador_constructor (host : JsDate.Host) :
  let turnos id :=
    processarTodosOsTurnos host
      (map (turnoDoEntregador id)
           [turnoDe "2024-03-10" "08:00:00" "04:00:00" 12;
            turnoDe "2024-03-11" "08:00:00" "04:00:00" 8]) in
  let totais r :=
    (Rank.id_da_pessoa_entregadora r, Rank.total_pontos r, Rank.total_entregas r,
     Rank.total_turnos r) in
  herdado "constructor" = true
  /\ map (fun f => (id_da_pessoa_entregadora (turnoBase f), total_pontos_final f))
         (turnos "constructor")
     = [("constructor", 120); ("constructor", 80)]
  /\ calcularRanking (turnos "constructor") = []
  /\ map totais (calcularRanking (turnos "e1")) = [("e1", 200, 20, 2)]
  /\ map totais (calcularRanking (turnos "constructor" ++ turnos "e1"))
     = [("e1", 200, 20, 2)].
Proof. repeat split; vm_compute; reflexivity. Qed.

(** ** Properties of the daily-goal bonus *)

Lemma contem_app c a b : contem c (a ++ b) = contem c a || contem c b.
Proof.
  induction a as [|c' a IH]; [reflexivity|].
  change (Ascii.eqb c' c || contem c (a ++ b)
          = Ascii.eqb c' c || contem c a || contem c b).
  rewrite IH. now rewrite orb_assoc.
Qed.

(** No inherited member has a bar in its name, and every key has one: the
    dictionary of the groups is looked up in its own properties. *)
Lemma herdado_sem_barra k : herdado k = true -> contem "|" k = false.
Proof.
  intros H. apply existsb_exists in H as (m & Hm & E).
  apply String.eqb_eq in E. subst m. cbn in Hm.
  repeat (destruct Hm as [<-|Hm]; [reflexivity|]). destruct Hm.
Qed.

Lemma chave_propria turno : herdado (chave turno) = false.
Proof.
  destruct (herdado (chave turno)) eqn:E; [|reflexivity].
  apply herdado_sem_barra in E. unfold chave in E. rewrite contem_app in E.
  change ("|" ++ diaDoTurno turno) with (String "|" (diaDoTurno turno)) in E.
  cbn [contem] in E. rewrite Ascii.eqb_refl in E. cbn in E.
  now rewrite orb_true_r in E.
Qed.

(** The key [`${id}|${data}`] determines the worker and the day when the
    day holds no bar. *)
Lemma chave_inj (a b x y : string) :
  a ++ "|" ++ x = b ++ "|" ++ y ->
  contem "|" x = false -> contem "|" y = false ->
  a = b /\ x = y.
Proof.
  change ("|" ++ x) with (String "|" x). change ("|" ++ y) with (String "|" y).
  revert b. induction a as [|c a IH]; intros [|c' b] E Hx Hy.
  - change (String "|" x = String "|" y) in E. injection E as E. now split.
  - change (String "|" x = String c' (b ++ String "|" y)) in E.
    injection E as <- E. subst x. rewrite contem_app in Hx. simpl in Hx.
    now rewrite orb_true_r in Hx.
  - change (String c (a ++ String "|" x) = String "|" y) in E.
    injection E as -> E. subst y. rewrite contem_app in Hy. simpl in Hy.
    now rewrite orb_true_r in Hy.
  - change (String c (a ++ String "|" x) = String c' (b ++ String "|" y)) in E.
    injection E as <- E. destruct (IH b E Hx Hy) as [-> ->]. now split.
Qed.

Lemma filter_ext_elem {A} (P Q : A -> Prop)
  `{forall x, Decision (P x)} `{forall x, Decision (Q x)} (l : list A) :
  (forall x, x ∈ l -> (P x <-> Q x)) -> filter P l = filter Q l.
Proof.
  induction l as [|x l IH]; intros Hl; [reflexivity|].
  rewrite !filter_cons.
  assert (Hx : P x <-> Q x) by (apply Hl; left).
  rewrite IH by (intros y Hy; apply Hl; now right).
  destruct (decide (P x)), (decide (Q x)); tauto.
Qed.

Lemma filter_map {A B} (f : A -> B) (P : B -> Prop)
  `{forall y, Decision (P y)} (l : list A) :
  filter P (map f l) = map f (filter (fun x => P (f x)) l).
Proof.
  induction l as [|x l IH]; [reflexivity|].
  cbn [map]. rewrite !filter_cons.
  destruct (decide (P (f x))); cbn [map]; now rewrite IH.
Qed.

Lemma agruparPasso_lookup grupos turno k :
  agruparPasso grupos turno !! k
  = if decide (chave (turno_de (deref turno)) = k)
    then Some (default [] (grupos !! k) ++ [turno])%list
    else grupos !! k.
Proof.
  unfold agruparPasso. rewrite lookup_alter.
  destruct (decide (chave (turno_de (deref turno)) = k)) as [->|Hne].
  - destruct (grupos !! k) as [g|] eqn:E.
    + now rewrite E.
    + now rewrite lookup_insert_eq.
  - destruct (grupos !! chave (turno_de (deref turno))); [reflexivity|].
    now rewrite lookup_insert_ne.
Qed.

Lemma foldl_agruparPasso_lookup turnos grupos k :
  foldl agruparPasso grupos turnos !! k
  = if decide (grupoDe k turnos = []) then grupos !! k
    else Some (default [] (grupos !! k) ++ grupoDe k turnos)%list.
Proof.
  revert grupos. induction turnos as [|r turnos IH]; intros grupos; [reflexivity|].
  cbn [foldl]. rewrite IH, agruparPasso_lookup. clear IH.
  assert (Hc : grupoDe k (r :: turnos)
               = if decide (chave (turno_de (deref r)) = k)
                 then r :: grupoDe k turnos else grupoDe k turnos)
    by (unfold grupoDe; rewrite filter_cons; reflexivity).
  rewrite Hc.
  destruct (decide (chave (turno_de (deref r)) = k)) as [E|E]; [|reflexivity].
  rewrite (decide_False (P := _ :: _ = [])) by discriminate.
  destruct (decide (grupoDe k turnos = [])) as [Hg|Hg].
  - now rewrite Hg.
  - simpl. rewrite <- List.app_assoc. reflexivity.
Qed.

(** The group stored under a key is the run of the shifts of that key;
    a key without shifts has no group. *)
Lemma agrupar_lookup turnos k :
  default [] (agruparPorDiaEntregador turnos !! k) = grupoDe k turnos.
Proof.
  unfold agruparPorDiaEntregador.
  rewrite foldl_agruparPasso_lookup, lookup_empty.
  case_decide as Hg; [now rewrite Hg | reflexivity].
Qed.

(** The group of a shift's own key is defined, and the shift is in it. *)
Lemma grupo_do_turno turnos r :
  r ∈ turnos ->
  exists g, agruparPorDiaEntregador turnos !! chave (turno_de (deref r)) = Some g
            /\ r ∈ g.
Proof.
  intros Hr. unfold agruparPorDiaEntregador.
  rewrite foldl_agruparPasso_lookup, lookup_empty.
  assert (Hin : r ∈ grupoDe (chave (turno_de (deref r))) turnos)
    by (apply list_elem_of_filter; now split).
  case_decide as Hg.
  - rewrite Hg in Hin. inversion Hin.
  - eexists. split; [reflexivity | exact Hin].
Qed.

Lemma calcularEntregasNoDia_soma g :
  calcularEntregasNoDia g
  = somaZ (map (fun r => default 0 (numero_de_corridas_completadas (turno_de (deref r)))) g).
Proof.
  unfold calcularEntregasNoDia.
  assert (H : forall acc,
             foldl (fun total turno =>
                      total + orZeroZ (numero_de_corridas_completadas
                                         (turno_de (deref turno)))) acc g
             = acc + somaZ (map (fun r => default 0 (numero_de_corridas_completadas
                                                      (turno_de (deref r)))) g)).
  { induction g as [|r g IH]; intros acc; cbn [foldl map somaZ foldr]; [lia|].
    rewrite IH, orZeroZ_default. unfold somaZ. lia. }
  rewrite H. lia.
Qed.

Lemma imap_project {A B C} (l : list A) (f : nat -> A -> B) (g : B -> C) (h : A -> C) :
  (forall i t, g (f i t) = h t) -> map g (imap f l) = map h l.
Proof.
  revert f. induction l as [|x l IH]; intros f Hf; [reflexivity|].
  rewrite imap_cons. cbn [map]. rewrite Hf. f_equal.
  apply IH. intros i t. apply Hf.
Qed.

Lemma imap_index {A B} (l : list A) (f : nat -> A -> B) (g : B -> nat) (n : nat) :
  (forall i t, g (f i t) = (n + i)%nat) -> map g (imap f l) = seq n (length l).
Proof.
  revert f n. induction l as [|x l IH]; intros f n Hf; [reflexivity|].
  rewrite imap_cons. cbn [map length seq]. rewrite Hf, Nat.add_0_r. f_equal.
  apply IH. intros i t. unfold compose. rewrite Hf. lia.
Qed.

Lemma NoDup_map_filter {A B} (f : A -> B) (P : A -> Prop)
  `{forall x, Decision (P x)} (l : list A) :
  NoDup (map f l) -> NoDup (map f (filter P l)).
Proof.
  induction l as [|x l IH]; intros Hnd; [constructor|].
  cbn [map] in Hnd. apply NoDup_cons in Hnd as [Hx Hnd].
  rewrite filter_cons. destruct (decide (P x)); [|now apply IH].
  cbn [map]. apply NoDup_cons. split; [|now apply IH].
  intros Hin. apply Hx.
  apply list_elem_of_fmap in Hin as (y & Hy & Hin).
  apply list_elem_of_filter in Hin as [_ Hin].
  rewrite Hy. now apply (list_elem_of_fmap_2 f).
Qed.

Section DailyGoal.

Variable host : JsDate.Host.

Lemma pontuarTurnos_base turnos :
  map (fun r => turno_de (deref r)) (pontuarTurnos host turnos) = turnos.
Proof.
  unfold pontuarTurnos. rewrite (imap_project _ _ _ id); [apply map_id | reflexivity].
Qed.

(** The objects of step 1 are pairwise distinct. *)
Lemma pontuarTurnos_addr turnos :
  NoDup (map addr (pontuarTurnos host turnos)).
Proof.
  unfold pontuarTurnos. rewrite (imap_index _ _ _ 0%nat); [apply NoDup_seq | reflexivity].
Qed.

Lemma finalizarTurno_base grupos r :
  turnoBase (finalizarTurno grupos r) = turno_de (deref r).
Proof. reflexivity. Qed.

Lemma processar_base turnos :
  map turnoBase (processarTodosOsTurnos host turnos) = turnos.
Proof.
  unfold processarTodosOsTurnos. rewrite map_map.
  apply pontuarTurnos_base.
Qed.

(** Inside the group of a key, the first object earns the bonus of the
    total of the group and the others earn none. *)
Lemma bonus_no_grupo turnos k r1 resto :
  NoDup (map addr turnos) ->
  grupoDe k turnos = r1 :: resto ->
  let grupos := agruparPorDiaEntregador turnos in
  bonus_meta_diaria (finalizarTurno grupos r1)
  = calcularBonusMetaDiaria (calcularEntregasNoDia (r1 :: resto))
  /\ Forall (fun r => bonus_meta_diaria (finalizarTurno grupos r) = 0) resto.
Proof.
  intros Hnd Hg grupos.
  assert (Hk : forall r, r ∈ r1 :: resto ->
                 default [] (grupos !! chave (turno_de (deref r))) = r1 :: resto).
  { intros r Hr. rewrite <- Hg in Hr.
    apply list_elem_of_filter in Hr as [Hr _].
    unfold grupos. now rewrite agrupar_lookup, Hr. }
  assert (Hnd' : NoDup (map addr (r1 :: resto))).
  { rewrite <- Hg. now apply NoDup_map_filter. }
  split.
  - unfold finalizarTurno. cbn [bonus_meta_diaria].
    rewrite (Hk r1) by left. unfold primeiroDoDia. cbn [lookup list_lookup].
    now rewrite Nat.eqb_refl.
  - apply Forall_forall. intros r Hr.
    unfold finalizarTurno. cbn [bonus_meta_diaria].
    rewrite (Hk r) by now right.
    unfold primeiroDoDia. cbn [lookup list_lookup].
    destruct (Nat.eqb_spec (addr r1) (addr r)) as [E|E]; [|reflexivity].
    exfalso. cbn [map] in Hnd'. apply NoDup_cons in Hnd' as [Hx _].
    apply Hx. rewrite E. now apply (list_elem_of_fmap_2 addr).
Qed.

(** Within every group of the shifts of one worker that have one day
    text, the text before the first [T] of [data_do_periodo], in the order
    of the input, every member after the first has [bonus_meta_diaria = 0];
    the bonuses of the group add up to the bonus of the group's total of
    completed deliveries (300 from 30 on, else 200 from 20 on, else 0); and
    every shift has [total_pontos_final = total_pontos_turno +
    bonus_meta_diaria]. The day texts are taken free of the bar that
    separates worker and day in the key of a group. *)
Lemma bonus_meta_diaria_por_texto_do_dia (turnos : list Turno) (w d : string) :
  Forall (fun t => contem "|" (diaDoTurno t) = false) turnos ->
  let finais := processarTodosOsTurnos host turnos in
  let grupo :=
    filter (fun f => id_da_pessoa_entregadora (turnoBase f) = w
                     /\ diaDoTurno (turnoBase f) = d) finais in
  let entregas :=
    somaZ (map (fun f => default 0 (numero_de_corridas_completadas (turnoBase f)))
               grupo) in
  map turnoBase finais = turnos
  /\ Forall (fun f => bonus_meta_diaria f = 0) (tail grupo)
  /\ somaZ (map bonus_meta_diaria grupo)
     = (if 30 <=? entregas then 300 else if 20 <=? entregas then 200 else 0)
  /\ Forall (fun f => total_pontos_final f
                      = total_pontos_turno (pontos_de (pontuado f))
                        + bonus_meta_diaria f) finais.
Proof.
  intros Hbar finais grupo entregas.
  split; [apply processar_base|].
  set (pontuados := pontuarTurnos host turnos).
  set (grupos := agruparPorDiaEntregador pontuados).
  assert (Hfinais : finais = map (finalizarTurno grupos) pontuados) by reflexivity.
  assert (Hbar' : forall r, r ∈ pontuados ->
                    contem "|" (diaDoTurno (turno_de (deref r))) = false).
  { intros r Hr. rewrite Forall_forall in Hbar. apply Hbar.
    rewrite <- (pontuarTurnos_base turnos).
    now apply (list_elem_of_fmap_2 (fun r => turno_de (deref r))). }
  assert (Hgrupo : grupo
                   = map (finalizarTurno grupos)
                         (filter (fun r => id_da_pessoa_entregadora (turno_de (deref r)) = w
                                           /\ diaDoTurno (turno_de (deref r)) = d)
                                 pontuados)).
  { unfold grupo. rewrite Hfinais. now rewrite filter_map. }
  assert (Hlast : Forall (fun f => total_pontos_final f
                                   = total_pontos_turno (pontos_de (pontuado f))
                                     + bonus_meta_diaria f) finais).
  { rewrite Hfinais. apply Forall_forall. intros f Hf.
    apply list_elem_of_fmap in Hf as (r & -> & _). reflexivity. }
  destruct (filter (fun r => id_da_pessoa_entregadora (turno_de (deref r)) = w
                             /\ diaDoTurno (turno_de (deref r)) = d) pontuados)
    as [|r1 resto] eqn:Ef.
  { unfold entregas. rewrite Hgrupo. cbn. repeat split; [constructor | exact Hlast]. }
  assert (Hr1 : r1 ∈ pontuados /\ id_da_pessoa_entregadora (turno_de (deref r1)) = w
                /\ diaDoTurno (turno_de (deref r1)) = d).
  { assert (Hin : r1 ∈ r1 :: resto) by left.
    rewrite <- Ef in Hin. apply list_elem_of_filter in Hin. tauto. }
  destruct Hr1 as (Hr1in & Hw & Hd).
  assert (Hkey : grupoDe (w ++ "|" ++ d) pontuados = r1 :: resto).
  { rewrite <- Ef. unfold grupoDe. apply filter_ext_elem. intros r Hr. split.
    - intros E. unfold chave in E. apply chave_inj in E; [exact E| |].
      + now apply Hbar'.
      + rewrite <- Hd. now apply Hbar'.
    - intros [<- <-]. reflexivity. }
  destruct (bonus_no_grupo pontuados _ r1 resto (pontuarTurnos_addr turnos) Hkey)
    as [Hb1 Hb0].
  fold grupos in Hb1, Hb0.
  assert (Hzeros : Forall (fun f => bonus_meta_diaria f = 0)
                          (map (finalizarTurno grupos) resto)).
  { apply Forall_forall. intros f Hf. apply list_elem_of_fmap in Hf as (r & -> & Hr).
    rewrite Forall_forall in Hb0. now apply Hb0. }
  assert (Hsoma0 : somaZ (map bonus_meta_diaria (map (finalizarTurno grupos) resto)) = 0).
  { clear -Hzeros. induction Hzeros as [|f l Hf _ IH]; [reflexivity|].
    cbn [map somaZ foldr]. fold (somaZ (map bonus_meta_diaria l)). lia. }
  split; [|split].
  - rewrite Hgrupo. exact Hzeros.
  - unfold entregas. rewrite Hgrupo. cbn [map somaZ foldr].
    fold (somaZ (map bonus_meta_diaria (map (finalizarTurno grupos) resto))).
    rewrite Hsoma0, Hb1, calcularEntregasNoDia_soma, map_map.
    cbn [map somaZ foldr]. unfold calcularBonusMetaDiaria. rewrite Z.add_0_r.
    reflexivity.
  - exact Hlast.
Qed.

(** C1 fails on the code for date texts that carry the time after a space.
    The day of a group is the text before the first [T]: the two shifts of
    one worker on 25 December 2024, of 20 deliveries each, one of the
    morning and one of the afternoon, stand in two groups, and each earns
    the daily bonus of 200. For the 40 deliveries of the day the claim
    gives 300 on the first shift and 0 on the second; written with [T],
    the same shifts earn that. *)
Theorem bonus_meta_diaria_duas_vezes_no_dia :
  let manha := turnoDe "2024-12-25 08:00:00" "04:00:00" "02:00:00" 20 in
  let tarde := turnoDe "2024-12-25 14:00:00" "04:00:00" "02:00:00" 20 in
  let manhaT := turnoDe "2024-12-25T08:00:00" "04:00:00" "02:00:00" 20 in
  let tardeT := turnoDe "2024-12-25T14:00:00" "04:00:00" "02:00:00" 20 in
  let bonus f := (entregas_no_dia f, bonus_meta_diaria f, total_pontos_final f) in
  id_da_pessoa_entregadora manha = id_da_pessoa_entregadora tarde
  /\ diaDoTurno manha = "2024-12-25 08:00:00"
  /\ diaDoTurno tarde = "2024-12-25 14:00:00"
  /\ map bonus (processarTodosOsTurnos host [manha; tarde])
     = [(20, 200, 400); (20, 200, 400)]
  /\ map bonus (processarTodosOsTurnos host [manhaT; tardeT])
     = [(40, 300, 500); (40, 0, 200)].
Proof. repeat split; vm_compute; reflexivity. Qed.

End DailyGoal.

(** ** Properties of the duration parser *)

Lemma shr_1_nonneg mrs : 0 <= shr_m mrs -> 0 <= shr_m (shr_1 mrs).
Proof.
  destruct mrs as [m r s]. destruct m as [|[p|p|]|p]; simpl; lia.
Qed.

Lemma iter_shr_1_nonneg p mrs :
  0 <= shr_m mrs -> 0 <= shr_m (@SpecFloat.iter_pos _ shr_1 p mrs).
Proof.
  revert mrs. induction p as [p IH|p IH|]; intros mrs H; simpl.
  - apply IH, IH, shr_1_nonneg, H.
  - apply IH, IH, H.
  - apply shr_1_nonneg, H.
Qed.

Lemma shr_fexp_nonneg m e l :
  0 <= m -> 0 <= shr_m (fst (shr_fexp prec emax m e l)).
Proof.
  intros H. unfold shr_fexp, shr.
  assert (H0 : 0 <= shr_m (shr_record_of_loc m l))
    by (destruct l as [|[]]; exact H).
  destruct (fexp prec emax (Zdigits2 m + e) - e); simpl; auto.
  now apply iter_shr_1_nonneg.
Qed.

Lemma round_nearest_even_nonneg m l : 0 <= m -> 0 <= round_nearest_even m l.
Proof.
  intros H. destruct l as [|[]]; simpl; try lia.
  destruct (Z.even m); lia.
Qed.

Lemma binary_round_aux_naoNegativo m e l :
  0 <= m -> naoNegativo (binary_round_aux prec emax false m e l).
Proof.
  intros H. unfold binary_round_aux.
  pose proof (shr_fexp_nonneg m e l H) as H1.
  destruct (shr_fexp prec emax m e l) as [mrs' e']. simpl in H1.
  pose proof (shr_fexp_nonneg _ e' loc_Exact
                (round_nearest_even_nonneg _ (loc_of_shr_record mrs') H1)) as H2.
  destruct (shr_fexp prec emax _ e' loc_Exact) as [mrs'' e'']. simpl in H2.
  destruct (shr_m mrs''); [exact I | | lia].
  destruct (e'' <=? emax - prec); exact I.
Qed.

Lemma binary_round_naoNegativo m e :
  naoNegativo (binary_round prec emax false m e).
Proof.
  unfold binary_round.
  destruct (shl_align m e _) as [mz ez].
  apply binary_round_aux_naoNegativo. lia.
Qed.

Lemma binary_normalize_naoNegativo m e :
  0 <= m -> naoNegativo (binary_normalize prec emax m e false).
Proof.
  intros H. destruct m; simpl; [exact I | apply binary_round_naoNegativo | lia].
Qed.

Lemma SF2Prim_naoNegativo sf :
  naoNegativo sf -> naoNegativo (Prim2SF (SF2Prim sf)).
Proof.
  destruct sf as [[]|[]| |[] m e]; simpl; intros H; try contradiction; try exact I.
  rewrite Z_ldexp_spec, of_uint63_spec.
  pose proof (to_Z_bounded (of_Z (Z.pos m))) as [Hb _].
  pose proof (binary_normalize_naoNegativo _ 0 Hb) as Hn.
  destruct (binary_normalize prec emax _ 0 false) as [[]|[]| |[] m' e']; simpl in *;
    try contradiction; try exact I.
  apply binary_round_naoNegativo.
Qed.

Lemma orZero_naoNegativo x : naoNegativo (Prim2SF x) -> orZero x = x.
Proof.
  intros H. unfold orZero, truthyNumber, PrimFloat.is_nan.
  rewrite !FloatAxioms.eqb_spec.
  change (Prim2SF 0) with (S754_zero false).
  rewrite <- (SF2Prim_Prim2SF x) at 4 5.
  destruct (Prim2SF x) as [[]|[]| |[] m e]; simpl in H; try contradiction.
  - reflexivity.
  - reflexivity.
  - unfold SFeqb, SFcompare. rewrite Z.compare_refl, Pos.compare_cont_refl.
    reflexivity.
Qed.

Lemma orZero_ofZ n : 0 <= n -> orZero (ofZ n) = ofZ n.
Proof.
  intros H. apply orZero_naoNegativo, SF2Prim_naoNegativo.
  now apply binary_normalize_naoNegativo.
Qed.

Lemma orZero_ofFraction n d : orZero (ofFraction n d) = ofFraction n d.
Proof.
  apply orZero_naoNegativo. unfold ofFraction.
  destruct ((n <=? 0) || (d <=? 0)) eqn:E; [exact I|].
  apply orb_false_iff in E as [Hn Hd].
  apply Z.leb_gt in Hn. apply Z.leb_gt in Hd.
  apply SF2Prim_naoNegativo, binary_normalize_naoNegativo.
  set (k := Z.max 0 (Z.log2 d + 60 - Z.log2 n)).
  assert (0 <= Z.shiftl n k / d).
  { apply Z.div_pos; [|exact Hd]. apply Z.shiftl_nonneg. lia. }
  destruct (Z.shiftl n k mod d =? 0); lia.
Qed.

Lemma orZero_ofDecimal m e : orZero (ofDecimal m e) = ofDecimal m e.
Proof.
  unfold ofDecimal.
  destruct (Z.leb_spec m 0); [reflexivity|].
  destruct (400 <? e); [reflexivity|].
  destruct (e + Z.log2 m <? -1200); [reflexivity|].
  destruct (Z.leb_spec 0 e).
  - apply orZero_ofZ. apply Z.mul_nonneg_nonneg; [lia|]. now apply Z.pow_nonneg.
  - apply orZero_ofFraction.
Qed.

Lemma ehDigito_casos c :
  ehDigito c = true ->
  In c ["0"; "1"; "2"; "3"; "4"; "5"; "6"; "7"; "8"; "9"]%char.
Proof.
  destruct c as [[] [] [] [] [] [] [] []]; intros H; try discriminate H;
    simpl; tauto.
Qed.

Lemma digitValue_digito c :
  ehDigito c = true -> digitValue 10 c = Some (valorDigito c).
Proof.
  intros H. apply ehDigito_casos in H. simpl in H.
  repeat (destruct H as [<-|H]; [reflexivity|]). contradiction.
Qed.

Lemma digitValue_naoDigito c :
  ehDigito c = false -> digitValue 10 c = None.
Proof.
  destruct c as [[] [] [] [] [] [] [] []]; intros H; try discriminate H;
    reflexivity.
Qed.

Lemma isWhiteSpace_digito c : ehDigito c = true -> isWhiteSpace c = false.
Proof.
  intros H. apply ehDigito_casos in H. simpl in H.
  repeat (destruct H as [<-|H]; [reflexivity|]). contradiction.
Qed.

Lemma readSign_digito c l : ehDigito c = true -> readSign (c :: l) = (false, c :: l).
Proof.
  intros H. apply ehDigito_casos in H. simpl in H.
  repeat (destruct H as [<-|H]; [reflexivity|]). contradiction.
Qed.

Lemma readDigits_digitos l rest acc count :
  forallb ehDigito l = true -> semDigitoInicial rest ->
  readDigits 10 (l ++ rest) acc count
  = (fold_left (fun a c => a * 10 + valorDigito c) l acc,
     count + Z.of_nat (List.length l), rest).
Proof.
  revert acc count. induction l as [|c l IH]; intros acc count Hl Hrest.
  - simpl. rewrite Z.add_0_r. destruct rest as [|c rest]; [reflexivity|].
    simpl in Hrest. simpl. now rewrite (digitValue_naoDigito c Hrest).
  - simpl in Hl. apply andb_true_iff in Hl as [Hc Hl].
    cbn [app readDigits]. rewrite (digitValue_digito c Hc), IH by assumption.
    cbn [fold_left List.length]. f_equal. f_equal. lia.
Qed.

Lemma list_ascii_of_string_app a b :
  list_ascii_of_string (a ++ b)
  = (list_ascii_of_string a ++ list_ascii_of_string b)%list.
Proof.
  induction a as [|c a IH]; [reflexivity|].
  change (c :: list_ascii_of_string (a ++ b)
          = c :: (list_ascii_of_string a ++ list_ascii_of_string b)%list).
  now rewrite IH.
Qed.

Lemma soDigitos_lista s :
  soDigitos s = true ->
  exists c l, list_ascii_of_string s = c :: l
              /\ ehDigito c = true /\ forallb ehDigito l = true.
Proof.
  unfold soDigitos. destruct s as [|c s]; [discriminate|].
  intros H. apply andb_true_iff in H as [_ H]. simpl in H.
  apply andb_true_iff in H as [Hc Hl]. now exists c, (list_ascii_of_string s).
Qed.

(** [parseInt] reads a decimal numeral as the number it denotes. *)
Lemma parseInt_digitos s :
  soDigitos s = true -> parseInt s = ofZ (valorDecimal s).
Proof.
  intros H. destruct (soDigitos_lista s H) as (c & l & Hs & Hc & Hl).
  unfold parseInt, valorDecimal. rewrite Hs.
  cbn [trimStart]. rewrite (isWhiteSpace_digito c Hc), (readSign_digito c l Hc).
  assert (Hbody : match c :: l with
                  | "0"%char :: "x"%char :: rest => (16, rest)
                  | "0"%char :: "X"%char :: rest => (16, rest)
                  | _ => (10, c :: l)
                  end = (10, c :: l)).
  { destruct l as [|c' l']; [now destruct c as [[] [] [] [] [] [] [] []]|].
    simpl in Hl. apply andb_true_iff in Hl as [Hc' _].
    apply ehDigito_casos in Hc'. simpl in Hc'.
    repeat (destruct Hc' as [<-|Hc'];
            [now destruct c as [[] [] [] [] [] [] [] []]|]).
    contradiction. }
  rewrite Hbody.
  assert (Hall : forallb ehDigito (c :: l) = true) by (simpl; now rewrite Hc, Hl).
  pose proof (readDigits_digitos (c :: l) [] 0 0 Hall I) as Hr.
  rewrite app_nil_r in Hr. rewrite Hr.
  cbn [List.length]. destruct (Z.eqb_spec (0 + Z.of_nat (S (List.length l))) 0); [lia|].
  reflexivity.
Qed.

Lemma startsWith_Infinity_digito c l :
  ehDigito c = true -> startsWith "Infinity" (c :: l) = false.
Proof.
  intros H. unfold startsWith. case_decide as E; [|reflexivity].
  exfalso. cbn in E. injection E as -> _. discriminate H.
Qed.

(** [parseFloat] reads a decimal numeral with an optional fraction as the
    decimal number it denotes. *)
Lemma parseFloat_decimal ip (fp : option string) :
  soDigitos ip = true ->
  from_option (fun f => forallb ehDigito (list_ascii_of_string f)) true fp = true ->
  parseFloat (ip ++ from_option (fun f => "." ++ f) "" fp)
  = ofDecimal (valorDecimal (ip ++ default "" fp))
              (- Z.of_nat (String.length (default "" fp))).
Proof.
  intros H Hfp. destruct (soDigitos_lista ip H) as (c & l & Hs & Hc & Hl).
  assert (Hall : forallb ehDigito (c :: l) = true) by (simpl; now rewrite Hc, Hl).
  unfold parseFloat, valorDecimal. rewrite !list_ascii_of_string_app, Hs.
  cbn [app trimStart]. rewrite (isWhiteSpace_digito c Hc), (readSign_digito c _ Hc).
  rewrite startsWith_Infinity_digito by exact Hc.
  destruct fp as [f|]; cbn [from_option default] in *.
  - change (list_ascii_of_string ("." ++ f)) with ("."%char :: list_ascii_of_string f).
    unfold id. rewrite !app_comm_cons.
    rewrite (readDigits_digitos (c :: l) _ 0 0 Hall) by reflexivity.
    pose proof (readDigits_digitos (list_ascii_of_string f) [] (valorDeDigitos (c :: l)) 0 Hfp I) as Hr.
    rewrite app_nil_r in Hr. unfold valorDeDigitos at 1 in Hr. rewrite Hr.
    cbn [List.length]. cbn [readExponent].
    destruct (Z.eqb_spec (0 + Z.of_nat (S (List.length l))
                          + (0 + Z.of_nat (List.length (list_ascii_of_string f)))) 0); [lia|].
    cbn [withSign]. unfold valorDeDigitos. rewrite fold_left_app.
    f_equal. rewrite <- (string_of_list_ascii_of_string f) at 2.
    clear. generalize (list_ascii_of_string f) as lf. intros lf.
    assert (Hlen : String.length (string_of_list_ascii lf) = List.length lf).
    { induction lf as [|x lf IH]; [reflexivity|]. simpl. now rewrite IH. }
    rewrite Hlen. lia.
  - change (list_ascii_of_string "") with (@nil ascii). rewrite !app_nil_r.
    pose proof (readDigits_digitos (c :: l) [] 0 0 Hall I) as Hr.
    rewrite app_nil_r in Hr. rewrite Hr. cbn [List.length readExponent].
    destruct (Z.eqb_spec (0 + Z.of_nat (S (List.length l)) + 0) 0); [lia|].
    reflexivity.
Qed.

Lemma valorDecimal_nonneg s : soDigitos s = true -> 0 <= valorDecimal s.
Proof.
  unfold soDigitos, valorDecimal, valorDeDigitos. intros H.
  apply andb_true_iff in H as [_ H].
  assert (Hpos : forall l acc, 0 <= acc -> forallb ehDigito l = true ->
                   0 <= fold_left (fun a c => a * 10 + valorDigito c) l acc).
  { induction l as [|c l IH]; intros acc Ha Hl; [exact Ha|].
    simpl in Hl. apply andb_true_iff in Hl as [Hc Hl]. simpl. apply IH; [|exact Hl].
    apply ehDigito_casos in Hc. simpl in Hc.
    repeat (destruct Hc as [<-|Hc]; [unfold valorDigito; simpl; lia|]).
    contradiction. }
  apply Hpos; [lia | exact H].
Qed.

(** *** Fields of a split text *)

Lemma split_sem_separador sep a :
  contem sep a = false -> split sep a = [a].
Proof.
  induction a as [|c a IH]; [reflexivity|].
  simpl. intros H. apply orb_false_iff in H as [Hc Ha].
  rewrite Hc, (IH Ha). reflexivity.
Qed.

Lemma split_app sep a b :
  contem sep a = false ->
  split sep (a ++ String sep b) = a :: split sep b.
Proof.
  induction a as [|c a IH]; intros H.
  - change (split sep (String sep b) = "" :: split sep b).
    simpl. now rewrite Ascii.eqb_refl.
  - simpl in H. apply orb_false_iff in H as [Hc Ha].
    change (split sep (String c (a ++ String sep b)) = String c a :: split sep b).
    simpl. rewrite Hc, (IH Ha). reflexivity.
Qed.

(** The three fields of [p0:p1:p2]. *)
Lemma split_tres p0 p1 p2 :
  contem ":" p0 = false -> contem ":" p1 = false -> contem ":" p2 = false ->
  split ":" (p0 ++ ":" ++ p1 ++ ":" ++ p2) = [p0; p1; p2].
Proof.
  intros H0 H1 H2.
  change (p0 ++ ":" ++ p1 ++ ":" ++ p2)
    with (p0 ++ String ":" (p1 ++ String ":" p2)).
  now rewrite !split_app, split_sem_separador.
Qed.

Lemma durationToSeconds_campos p0 p1 p2 :
  contem ":" p0 = false -> contem ":" p1 = false -> contem ":" p2 = false ->
  durationToSeconds (Str (p0 ++ ":" ++ p1 ++ ":" ++ p2))
  = (orZero (parseInt p0) * 3600 + orZero (parseInt p1) * 60
     + orZero (parseFloat p2))%float.
Proof.
  intros H0 H1 H2. unfold durationToSeconds.
  rewrite split_tres by assumption.
  assert (Ht : truthy (Str (p0 ++ ":" ++ p1 ++ ":" ++ p2)) = true)
    by now destruct p0.
  now rewrite Ht.
Qed.

Lemma contem_lista c s :
  contem c s = existsb (fun c' => Ascii.eqb c' c) (list_ascii_of_string s).
Proof. induction s as [|c' s IH]; [reflexivity|]. simpl. now rewrite IH. Qed.

Lemma digitos_sem_separador l (c : ascii) :
  ehDigito c = false -> forallb ehDigito l = true ->
  existsb (fun c' => Ascii.eqb c' c) l = false.
Proof.
  intros Hc. induction l as [|x l IH]; [reflexivity|].
  simpl. intros H. apply andb_true_iff in H as [Hx Hl].
  rewrite (IH Hl), orb_false_r.
  destruct (Ascii.eqb_spec x c) as [->|]; [congruence | reflexivity].
Qed.

Lemma soDigitos_contem c s :
  ehDigito c = false -> soDigitos s = true -> contem c s = false.
Proof.
  intros Hc H. unfold soDigitos in H. apply andb_true_iff in H as [_ H].
  rewrite contem_lista. now apply digitos_sem_separador.
Qed.

(** *** Fields without a number *)

Lemma readDigits_semDigitoInicial l acc count :
  semDigitoInicial l -> readDigits 10 l acc count = (acc, count, l).
Proof.
  destruct l as [|c l]; [reflexivity|].
  simpl. intros H. now rewrite (digitValue_naoDigito c H).
Qed.

(** [parseInt] of a field that holds no number is NaN. *)
Lemma parseInt_semNumero s : semNumero s = true -> parseInt s = PrimFloat.nan.
Proof.
  unfold semNumero, corpo, parseInt.
  destruct (readSign (trimStart (list_ascii_of_string s))) as [neg body].
  cbn [snd]. intros H.
  assert (Hini : semDigitoInicial body).
  { destruct body as [|c body]; [exact I|].
    apply andb_true_iff in H as [Hc _]. now apply negb_true_iff in Hc. }
  assert (Hbody : match body with
                  | "0"%char :: "x"%char :: rest => (16, rest)
                  | "0"%char :: "X"%char :: rest => (16, rest)
                  | _ => (10, body)
                  end = (10, body)).
  { destruct body as [|c body]; [reflexivity|]. simpl in Hini.
    destruct c as [[] [] [] [] [] [] [] []]; try reflexivity; discriminate Hini. }
  rewrite Hbody, readDigits_semDigitoInicial by exact Hini. reflexivity.
Qed.

(** [parseFloat] of a field that holds no number is NaN, unless the field
    spells [Infinity]. *)
Lemma parseFloat_semNumero s :
  semNumero s = true -> startsWith "Infinity" (corpo s) = false ->
  parseFloat s = PrimFloat.nan.
Proof.
  unfold semNumero, corpo, parseFloat.
  destruct (readSign (trimStart (list_ascii_of_string s))) as [neg body].
  cbn [snd]. intros H Hinf. rewrite Hinf.
  destruct body as [|c body]; [reflexivity|].
  apply andb_true_iff in H as [Hc Hp]. apply negb_true_iff in Hc.
  rewrite readDigits_semDigitoInicial by exact Hc.
  destruct (Ascii.eqb_spec c ".") as [->|Hne].
  - simpl in Hp. apply negb_true_iff in Hp.
    assert (Hini : semDigitoInicial body) by (destruct body; [exact I | exact Hp]).
    rewrite readDigits_semDigitoInicial by exact Hini. reflexivity.
  - destruct c as [[] [] [] [] [] [] [] []]; try reflexivity. congruence.
Qed.

(** [durationToSeconds] has no failing path: past its guard the value
    is a string, the only thing it splits. It returns 0 on a value that is
    falsy or not a string and on a text that has not exactly three fields
    between colons. On [HH:MM:SS] with an optional fraction it returns
    hours * 3600 + minutes * 60 + seconds, on the Numbers the decimal
    numerals denote. A field that holds no number counts as 0, the seconds
    field unless it spells [Infinity]. *)
Theorem durationToSeconds_total :
  (forall v, negb (truthy v) || negb (isString v) = false ->
             exists text, v = Str text)
  /\ (forall v, truthy v = false \/ isString v = false ->
                durationToSeconds v = 0%float)
  /\ (forall text, List.length (split ":" text) <> 3%nat ->
                   durationToSeconds (Str text) = 0%float)
  /\ (forall hh mm ss fracao,
         soDigitos hh = true -> soDigitos mm = true -> soDigitos ss = true ->
         from_option (fun f => forallb ehDigito (list_ascii_of_string f)) true fracao
         = true ->
         durationToSeconds (Str (textoDuracao hh mm ss fracao))
         = (ofZ (valorDecimal hh) * 3600 + ofZ (valorDecimal mm) * 60
            + ofDecimal (valorDecimal (ss ++ default "" fracao))
                        (- Z.of_nat (String.length (default "" fracao))))%float)
  /\ (forall p0 p1 p2,
         contem ":" p0 = false -> contem ":" p1 = false -> contem ":" p2 = false ->
         durationToSeconds (Str (p0 ++ ":" ++ p1 ++ ":" ++ p2))
         = ((if semNumero p0 then 0 else orZero (parseInt p0)) * 3600
            + (if semNumero p1 then 0 else orZero (parseInt p1)) * 60
            + (if semNumero p2 && negb (startsWith "Infinity" (corpo p2)) then 0
               else orZero (parseFloat p2)))%float)
  /\ durationToSeconds (Str "08:30:15.5") = 30615.5%float
  /\ durationToSeconds (Str "ab:30:15") = 1815%float
  /\ durationToSeconds (Str "08:30") = 0%float
  /\ durationToSeconds Undefined = 0%float.
Proof.
  split; [|split; [|split; [|split; [|split]]]].
  - intros [| |b|x|s|] H; simpl in H; try discriminate H.
    + now rewrite orb_true_r in H.
    + now rewrite orb_true_r in H.
    + now exists s.
  - intros v [H|H]; unfold durationToSeconds; rewrite H; [reflexivity|].
    now rewrite orb_true_r.
  - intros text H. unfold durationToSeconds.
    destruct (negb (truthy (Str text)) || negb (isString (Str text))); [reflexivity|].
    destruct (split ":" text) as [|p0 [|p1 [|p2 [|p3 ps]]]]; try reflexivity.
    now contradiction H.
  - intros hh mm ss fracao Hh Hm Hs Hf.
    assert (Hc : forall s, soDigitos s = true -> contem ":" s = false)
      by (intros s; now apply soDigitos_contem).
    unfold textoDuracao. rewrite durationToSeconds_campos.
    + rewrite (parseInt_digitos hh Hh), (parseInt_digitos mm Hm).
      rewrite (parseFloat_decimal ss fracao Hs Hf).
      rewrite !orZero_ofZ, orZero_ofDecimal; [reflexivity| |].
      * now apply valorDecimal_nonneg.
      * now apply valorDecimal_nonneg.
    + now apply Hc.
    + now apply Hc.
    + rewrite contem_app, (Hc ss Hs). destruct fracao as [f|]; [|reflexivity].
      cbn [from_option] in *. simpl. rewrite contem_lista.
      now apply digitos_sem_separador.
  - intros p0 p1 p2 H0 H1 H2. rewrite durationToSeconds_campos by assumption.
    assert (Hi : forall p, (if semNumero p then 0%float else orZero (parseInt p))
                           = orZero (parseInt p)).
    { intros p. destruct (semNumero p) eqn:E; [|reflexivity].
      now rewrite parseInt_semNumero. }
    rewrite !Hi. f_equal.
    destruct (semNumero p2) eqn:E2; [|reflexivity].
    destruct (startsWith "Infinity" (corpo p2)) eqn:EI; [reflexivity|].
    now rewrite parseFloat_semNumero.
  - repeat split; vm_compute; reflexivity.
Qed.

(** C8 fails on the code for a seconds field that spells [Infinity]: the
    text holds no number, and the field does not degrade to 0. [parseFloat]
    reads the word as a Number, which [|| 0] lets through, and the duration
    is infinite. The hours and minutes fields, read by [parseInt], degrade
    to 0 on the same text, and the seconds field does on other words. An
    online time of [00:00:Infinity] in a shift of eight hours then earns
    the online bonus. *)
Theorem durationToSeconds_Infinity (host : JsDate.Host) :
  semNumero "Infinity" = true
  /\ durationToSeconds (Str "00:00:Infinity") = PrimFloat.infinity
  /\ PrimFloat.eqb (durationToSeconds (Str "00:00:Infinity")) 0 = false
  /\ durationToSeconds (Str "Infinity:00:00") = 0%float
  /\ durationToSeconds (Str "00:Infinity:00") = 0%float
  /\ durationToSeconds (Str "00:00:Infinito") = 0%float
  /\ bonus_90_online
       (calcularPontosTurno host (turnoDe "2024-03-10" "08:00:00" "00:00:Infinity" 0))
     = 50.
Proof. repeat split; vm_compute; reflexivity. Qed.

(** ** Properties of the special-date bonus *)

Module DateFacts.
Import JsDate.

Lemma DayFromYear_succ y : DayFromYear (y + 1) = DayFromYear y + DaysInYear y.
Proof.
  unfold DayFromYear, DaysInYear.
  destruct (Z.eqb_spec (y mod 4) 0); destruct (Z.eqb_spec (y mod 100) 0);
    destruct (Z.eqb_spec (y mod 400) 0); simpl negb; cbv iota;
    Z.div_mod_to_equations; lia.
Qed.

Lemma DaysInYear_bounds y : 365 <= DaysInYear y <= 366.
Proof.
  unfold DaysInYear.
  destruct (y mod 4 =? 0), (y mod 100 =? 0), (y mod 400 =? 0); simpl; lia.
Qed.

Lemma YearFromDay_spec y D :
  DayFromYear y <= D < DayFromYear (y + 1) -> YearFromDay D = y.
Proof.
  intros H. unfold YearFromDay.
  set (y0 := 1970 + D * 400 / 146097).
  assert (Hy0 : y - 1 <= y0 <= y + 1).
  { unfold y0. unfold DayFromYear in H. Z.div_mod_to_equations. lia. }
  pose proof (DayFromYear_succ y) as S0.
  pose proof (DayFromYear_succ (y + 1)) as S1.
  pose proof (DayFromYear_succ (y - 1)) as S2.
  pose proof (DaysInYear_bounds y). pose proof (DaysInYear_bounds (y + 1)).
  pose proof (DaysInYear_bounds (y - 1)).
  replace (y - 1 + 1) with y in S2 by lia.
  assert (Hc : y0 = y - 1 \/ y0 = y \/ y0 = y + 1) by lia.
  clearbody y0.
  destruct Hc as [-> | [-> | ->]].
  - replace (y - 1 + 1) with y by lia.
    destruct (Z.leb_spec (DayFromYear y) D); lia.
  - destruct (Z.leb_spec (DayFromYear (y + 1)) D); [lia|].
    destruct (Z.leb_spec (DayFromYear y) D); lia.
  - destruct (Z.leb_spec (DayFromYear (y + 1 + 1)) D); [lia|].
    destruct (Z.leb_spec (DayFromYear (y + 1)) D); lia.
Qed.

Lemma digito_casos v :
  0 <= v <= 9 ->
  v = 0 \/ v = 1 \/ v = 2 \/ v = 3 \/ v = 4 \/ v = 5 \/ v = 6 \/ v = 7
  \/ v = 8 \/ v = 9.
Proof. lia. Qed.

Lemma digitValue_digito_de v :
  0 <= v <= 9 -> digitValue 10 (digito v) = Some v.
Proof.
  intros H. apply digito_casos in H.
  repeat (destruct H as [->|H]; [reflexivity|]). now subst.
Qed.

Lemma readFixed_digitos k n rest acc :
  0 <= n < 10 ^ Z.of_nat k ->
  readFixed k (digitos k n ++ rest) acc = Some (acc * 10 ^ Z.of_nat k + n, rest).
Proof.
  revert n acc. induction k as [|k IH]; intros n acc Hn.
  - simpl in *. f_equal. f_equal. lia.
  - rewrite Nat2Z.inj_succ, Z.pow_succ_r in Hn by lia.
    assert (Hp : 0 < 10 ^ Z.of_nat k) by (apply Z.pow_pos_nonneg; lia).
    cbn [digitos app readFixed].
    rewrite digitValue_digito_de.
    2:{ split; [apply Z.div_pos; lia|].
        assert (n / 10 ^ Z.of_nat k < 10); [|lia].
        apply Z.div_lt_upper_bound; lia. }
    rewrite IH by (apply Z.mod_pos_bound; exact Hp).
    f_equal. f_equal. rewrite Nat2Z.inj_succ, Z.pow_succ_r by lia.
    pose proof (Z.div_mod n (10 ^ Z.of_nat k)). nia.
Qed.

Lemma readYear_digitos y rest :
  0 <= y <= 9999 -> readYear (digitos 4 y ++ rest) = Some (y, rest).
Proof.
  intros H.
  assert (Hr : readFixed 4 (digitos 4 y ++ rest) 0 = Some (y, rest)).
  { rewrite readFixed_digitos by (simpl; lia). f_equal. }
  rewrite <- Hr. cbn [digitos app].
  assert (Hd : 0 <= y / 10 ^ Z.of_nat 3 <= 9).
  { change (10 ^ Z.of_nat 3) with 1000. Z.div_mod_to_equations. lia. }
  apply digito_casos in Hd.
  repeat (destruct Hd as [->|Hd]; [reflexivity|]). now rewrite Hd.
Qed.

Lemma readDashField_digitos lo hi v rest :
  0 <= v <= 99 -> lo <= v <= hi ->
  readDashField lo hi ("-"%char :: digitos 2 v ++ rest) = Some (v, rest).
Proof.
  intros Hv Hr. unfold readDashField.
  rewrite readFixed_digitos by (simpl; lia).
  replace (0 * 10 ^ Z.of_nat 2 + v) with v by lia.
  cbn [mbind option_bind]. unfold inRange.
  destruct (Z.leb_spec lo v); [|lia]. destruct (Z.leb_spec v hi); [|lia].
  reflexivity.
Qed.

Lemma monthStart_leap y : 
  (if DaysInYear y =? 366 then 1 else 0) = if bissexto y then 1 else 0.
Proof.
  unfold DaysInYear, bissexto.
  destruct (Z.eqb_spec (y mod 4) 0); destruct (Z.eqb_spec (y mod 100) 0);
    destruct (Z.eqb_spec (y mod 400) 0); simpl; try reflexivity;
    exfalso; Z.div_mod_to_equations; lia.
Qed.

Lemma diasNoMes_max y m : diasNoMes y m <= 31.
Proof.
  unfold diasNoMes. destruct (bissexto y); destruct m as [|p|p]; try lia;
    do 4 (try destruct p as [p|p|]); lia.
Qed.

(** The day number of a calendar date and the way back. *)
Lemma campos_do_dia y m d :
  dataValida y m d ->
  let t := MakeDate (MakeDay y (m - 1) d) 0 in
  TimeClip t = Some t
  /\ YearFromTime t = y /\ MonthFromTime t = m - 1 /\ DateFromTime t = d.
Proof.
  intros (Hy & Hm & Hd) t.
  set (leap := if bissexto y then 1 else 0).
  assert (Hleap : 0 <= leap <= 1) by (unfold leap; destruct (bissexto y); lia).
  assert (Hday : MakeDay y (m - 1) d = DayFromYear y + monthStart leap (m - 1) + d - 1).
  { unfold MakeDay.
    replace ((m - 1) / 12) with 0 by (Z.div_mod_to_equations; lia).
    replace ((m - 1) mod 12) with (m - 1) by (Z.div_mod_to_equations; lia).
    rewrite Z.add_0_r, monthStart_leap. reflexivity. }
  assert (HD : Day t = MakeDay y (m - 1) d).
  { unfold t, MakeDate, Day, msPerDay. rewrite Z.add_0_r. now apply Z.div_mul. }
  assert (Hlen : DaysInYear y = 365 + leap).
  { pose proof (monthStart_leap y) as E. fold leap in E.
    pose proof (DaysInYear_bounds y).
    destruct (Z.eqb_spec (DaysInYear y) 366); lia. }
  assert (Hm12 : m = 1 \/ m = 2 \/ m = 3 \/ m = 4 \/ m = 5 \/ m = 6 \/ m = 7
                 \/ m = 8 \/ m = 9 \/ m = 10 \/ m = 11 \/ m = 12) by lia.
  assert (Hwithin : 0 <= monthStart leap (m - 1) + d - 1 < DaysInYear y
                    /\ monthStart leap (m - 1) + d - 1 < monthStart leap m).
  { rewrite Hlen. unfold diasNoMes in Hd. fold leap in Hd.
    repeat (destruct Hm12 as [->|Hm12];
            [simpl in *; unfold leap in *; destruct (bissexto y); lia|]).
    subst m; simpl in *; unfold leap in *; destruct (bissexto y); lia. }
  assert (HY : YearFromTime t = y).
  { unfold YearFromTime. rewrite HD, Hday. apply YearFromDay_spec.
    rewrite DayFromYear_succ. lia. }
  assert (HW : DayWithinYear t = monthStart leap (m - 1) + d - 1).
  { unfold DayWithinYear. rewrite HY, HD, Hday. lia. }
  assert (HL : InLeapYear t = leap).
  { unfold InLeapYear. rewrite HY. apply monthStart_leap. }
  assert (HM : MonthFromTime t = m - 1).
  { unfold MonthFromTime. rewrite HW, HL.
    destruct Hwithin as [_ Hlt]. unfold diasNoMes in Hd. fold leap in Hd.
    repeat (destruct Hm12 as [->|Hm12];
            [simpl in *;
             repeat match goal with
                    | |- context [?a <? ?b] => destruct (Z.ltb_spec a b); try lia
                    end|]).
    subst m; simpl in *;
      repeat match goal with
             | |- context [?a <? ?b] => destruct (Z.ltb_spec a b); try lia
             end. }
  split; [|split; [|split]]; try assumption.
  - unfold TimeClip.
    assert (Hb : Z.abs t <= 8640000000000000); [|destruct (Z.ltb_spec 8640000000000000 (Z.abs t)); [lia | reflexivity]].
    unfold t, MakeDate, msPerDay. rewrite Hday.
    assert (-720000 <= DayFromYear y <= 2940000)
      by (unfold DayFromYear; Z.div_mod_to_equations; lia).
    pose proof (DaysInYear_bounds y). lia.
  - unfold DateFromTime. rewrite HW, HL, HM. lia.
Qed.

Section ParseDataPura.
Variable host : JsDate.Host.

(** A text in the date-time string format is not left to the engine. *)
Lemma parse_no_formato s t :
  parseDateTimeFormat host s = Some t -> parse host s = Some t.
Proof. intros H. unfold parse. now rewrite H. Qed.

(** A date-only text names its own calendar day in UTC. *)
Lemma parse_data_pura y m d :
  dataValida y m d ->
  exists t,
    parse host (textoData y m d) = Some t
    /\ getUTCDate (Some t) = Some d
    /\ getUTCMonth (Some t) = Some (m - 1).
Proof.
  intros Hv. pose proof Hv as (Hy & Hm & Hd).
  destruct (campos_do_dia y m d Hv) as (Hclip & _ & HM & HD).
  exists (MakeDate (MakeDay y (m - 1) d) 0).
  assert (Hd99 : d <= 31) by (pose proof (diasNoMes_max y m); lia).
  split; [|split].
  - apply parse_no_formato.
    unfold parseDateTimeFormat, textoData. rewrite list_ascii_of_string_of_list_ascii.
    rewrite readYear_digitos by exact Hy. cbn [mbind option_bind].
    rewrite readDashField_digitos by lia. cbn [mbind option_bind].
    rewrite <- (app_nil_r (digitos 2 d)).
    rewrite readDashField_digitos by lia. cbn [mbind option_bind].
    exact Hclip.
  - simpl. now rewrite HD.
  - simpl. now rewrite HM.
Qed.

End ParseDataPura.
End DateFacts.

(** *** The calendar day of a date text *)

Lemma digito_ehDigito v : 0 <= v <= 9 -> ehDigito (digito v) = true.
Proof.
  intros H. apply DateFacts.digito_casos in H.
  repeat (destruct H as [->|H]; [reflexivity|]). now subst.
Qed.

Lemma digitos_caracteres k n :
  0 <= n < 10 ^ Z.of_nat k -> forallb caractereDeData (digitos k n) = true.
Proof.
  revert n. induction k as [|k IH]; intros n Hn; [reflexivity|].
  rewrite Nat2Z.inj_succ, Z.pow_succ_r in Hn by lia.
  assert (Hp : 0 < 10 ^ Z.of_nat k) by (apply Z.pow_pos_nonneg; lia).
  cbn [digitos forallb]. unfold caractereDeData at 1.
  rewrite digito_ehDigito, IH; [reflexivity | now apply Z.mod_pos_bound |].
  split; [apply Z.div_pos; lia|].
  assert (n / 10 ^ Z.of_nat k < 10); [|lia].
  apply Z.div_lt_upper_bound; lia.
Qed.

Lemma contem_string_of_list c l :
  contem c (string_of_list_ascii l) = existsb (fun c' => Ascii.eqb c' c) l.
Proof. induction l as [|x l IH]; [reflexivity|]. simpl. now rewrite IH. Qed.

Lemma caracteres_sem c l :
  caractereDeData c = false -> forallb caractereDeData l = true ->
  existsb (fun c' => Ascii.eqb c' c) l = false.
Proof.
  intros Hc. induction l as [|x l IH]; [reflexivity|].
  simpl. intros H. apply andb_true_iff in H as [Hx Hl].
  rewrite (IH Hl), orb_false_r.
  destruct (Ascii.eqb_spec x c) as [->|]; [congruence | reflexivity].
Qed.

Lemma textoData_caracteres y m d :
  dataValida y m d ->
  forallb caractereDeData (list_ascii_of_string (textoData y m d)) = true.
Proof.
  intros (Hy & Hm & Hd). pose proof (DateFacts.diasNoMes_max y m).
  unfold textoData. rewrite list_ascii_of_string_of_list_ascii.
  rewrite forallb_app. cbn [forallb]. rewrite forallb_app. cbn [forallb].
  rewrite !digitos_caracteres by (simpl; lia). reflexivity.
Qed.

Lemma append_vazio (s : string) : s ++ "" = s.
Proof.
  induction s as [|c s IH]; [reflexivity|].
  change (String c (s ++ "") = String c s). now rewrite IH.
Qed.

(** The calendar day of a shift stored as a date, alone or followed by a
    time of day, is the date; it holds no bar. *)
Lemma diaDoTurno_data turno y m d (horario : option string) :
  dataValida y m d ->
  data_do_periodo turno
  = textoData y m d ++ from_option (fun h => "T" ++ h) "" horario ->
  diaDoTurno turno = textoData y m d
  /\ contem "|" (diaDoTurno turno) = false.
Proof.
  intros Hv Ht. pose proof (textoData_caracteres y m d Hv) as Hc.
  assert (Hsem : forall c, caractereDeData c = false ->
                           contem c (textoData y m d) = false).
  { intros c Hcc. rewrite contem_lista. now apply caracteres_sem. }
  assert (Hdia : diaDoTurno turno = textoData y m d).
  { unfold diaDoTurno. rewrite Ht. destruct horario as [h|]; cbn [from_option].
    - change ("T" ++ h) with (String "T" h).
      rewrite split_app by now apply Hsem. reflexivity.
    - rewrite append_vazio, split_sem_separador by now apply Hsem. reflexivity. }
  split; [exact Hdia|]. rewrite Hdia. now apply Hsem.
Qed.

Lemma isDataEspecial_spec date :
  isDataEspecial date = true <-> dataEspecialUTC date.
Proof.
  unfold isDataEspecial, dataEspecialUTC, natalOuAnoNovo.
  destruct date as [t|]; simpl.
  - rewrite !orb_true_iff, !andb_true_iff, !Z.eqb_eq. split.
    + intros H. exists (JsDate.DateFromTime t), (JsDate.MonthFromTime t + 1).
      split; [reflexivity|]. split; [f_equal; lia|]. tauto.
    + intros (dia & mes & [= <-] & [= Hm] & H). lia.
  - split; [discriminate|]. intros (dia & mes & H & _). discriminate H.
Qed.

Section SpecialDate.

Variable host : JsDate.Host.

(** The special-date bonus is 50 exactly when the online bonus applies
    and the day and month that [new Date] gives the text, read in UTC, are
    24/12, 25/12, 31/12 or 1/1, whatever the year; otherwise it is 0. For a
    date-only text [YYYY-MM-DD] the day and month are the ones written in
    the text. On Christmas day, 7h online out of 8h (87.5 percent) earns no
    special-date bonus, and 7h30 (93.75 percent) earns it. *)
Lemma bonus_data_especial_no_dia_UTC (turno : Turno) :
  let pontos := calcularPontosTurno host turno in
  (bonus_data_especial pontos = 50
   <-> bonus_90_online pontos = 50
       /\ dataEspecialUTC (JsDate.parse host (data_do_periodo turno)))
  /\ (bonus_data_especial pontos = 50 \/ bonus_data_especial pontos = 0)
  /\ (forall y m d,
         dataValida y m d -> data_do_periodo turno = textoData y m d ->
         (bonus_data_especial pontos = 50
          <-> bonus_90_online pontos = 50 /\ natalOuAnoNovo d m))
  /\ (let abaixo := turnoDe "2024-12-25" "08:00:00" "07:00:00" 10 in
      PrimFloat.ltb (percentualDoTurno abaixo) 90 = true
      /\ bonus_data_especial (calcularPontosTurno host abaixo) = 0)
  /\ (let acima := turnoDe "2024-12-25" "08:00:00" "07:30:00" 10 in
      bonus_data_especial (calcularPontosTurno host acima) = 50).
Proof.
  intros pontos.
  assert (Hgeral : bonus_data_especial pontos = 50
                   <-> bonus_90_online pontos = 50
                       /\ dataEspecialUTC (JsDate.parse host (data_do_periodo turno))).
  { unfold pontos. rewrite bonus_data_especial_eq, bonus_90_online_eq.
    rewrite <- isDataEspecial_spec.
    destruct (PrimFloat.leb 90 (percentualDoTurno turno));
      destruct (isDataEspecial _); simpl; split; try tauto; try discriminate;
      intros [? ?]; discriminate. }
  split; [exact Hgeral|]. split; [|split; [|split]].
  - unfold pontos. rewrite bonus_data_especial_eq.
    destruct (_ && _); [now left | now right].
  - intros y m d Hv Ht. rewrite Hgeral, Ht.
    destruct (DateFacts.parse_data_pura host y m d Hv) as (t & -> & Hd & Hm).
    unfold dataEspecialUTC. rewrite Hd, Hm. split.
    + intros [H (dia & mes & [= <-] & [= E] & Hn)].
      split; [exact H|]. replace m with mes by lia. exact Hn.
    + intros [H Hn]. split; [exact H|]. now exists d, m.
  - split; vm_compute; reflexivity.
  - vm_compute. reflexivity.
Qed.

(** C4, evaluated: 22h of Christmas day at three hours behind UTC. The
    calendar day of the text is 25 December, the day the check reads is 26
    December, and the shift, fully online, earns no special-date bonus;
    the same shift stored as [2024-12-25] earns it. *)
Theorem data_com_horario_desloca_o_dia :
  let texto := "2024-12-25T22:00:00-03:00" in
  first (split "T" texto) = textoData 2024 12 25
  /\ JsDate.getUTCDate (JsDate.parse host texto) = Some 26
  /\ JsDate.getUTCMonth (JsDate.parse host texto) = Some 11
  /\ isDataEspecial (JsDate.parse host texto) = false
  /\ isDataEspecial (JsDate.parse host "2024-12-25") = true
  /\ bonus_90_online
       (calcularPontosTurno host (turnoDe texto "08:00:00" "08:00:00" 10)) = 50
  /\ bonus_data_especial
       (calcularPontosTurno host (turnoDe texto "08:00:00" "08:00:00" 10)) = 0
  /\ bonus_data_especial
       (calcularPontosTurno host (turnoDe "2024-12-25" "08:00:00" "08:00:00" 10))
     = 50.
Proof. repeat split; vm_compute; reflexivity. Qed.

(** C2 fails on the code for a date text with a time of day: the check
    reads the UTC day of the instant, not the date of the shift. A shift of the evening of 23 December at three hours behind
    UTC, fully online, earns the special-date bonus though its date is no
    special date; the same shift on the evening of Christmas day earns the
    online bonus, is on a special date, and earns no special-date bonus.
    The dates are those the grouping by day takes from the two texts. *)
Theorem bonus_data_especial_fora_da_data :
  let antevespera := turnoDe "2024-12-23T22:00:00-03:00" "08:00:00" "08:00:00" 10 in
  let natal := turnoDe "2024-12-25T22:00:00-03:00" "08:00:00" "08:00:00" 10 in
  (diaDoTurno antevespera = textoData 2024 12 23
   /\ ~ natalOuAnoNovo 23 12
   /\ bonus_90_online (calcularPontosTurno host antevespera) = 50
   /\ bonus_data_especial (calcularPontosTurno host antevespera) = 50)
  /\ (diaDoTurno natal = textoData 2024 12 25
      /\ natalOuAnoNovo 25 12
      /\ bonus_90_online (calcularPontosTurno host natal) = 50
      /\ bonus_data_especial (calcularPontosTurno host natal) = 0).
Proof.
  split; [split; [|split; [|split]] | split; [|split; [|split]]];
    try (vm_compute; reflexivity).
  - unfold natalOuAnoNovo. lia.
  - unfold natalOuAnoNovo. lia.
Qed.

End SpecialDate.

(** The same shift of the evening without offset, on a host in São Paulo:
    the local time is read three hours behind UTC and the day moves on. *)
Lemma data_local_desloca_o_dia :
  JsDate.getUTCDate (JsDate.parse fusoSaoPaulo "2024-12-25T22:00:00") = Some 26
  /\ isDataEspecial (JsDate.parse fusoSaoPaulo "2024-12-25T22:00:00") = false.
Proof. split; vm_compute; reflexivity. Qed.

(** ** Instances *)

(** The example, computed: 22 deliveries in the day, the bonus of 200 on
    the first shift only, and one entry of 520 points in the ranking. *)
Lemma turnosExemplo_calculado :
  map (fun f => (entregas_no_dia f, bonus_meta_diaria f, total_pontos_final f))
      (processarTodosOsTurnos fusoSaoPaulo turnosExemplo)
  = [(22, 200, 420); (22, 0, 100)]
  /\ map (fun r => (Rank.total_pontos r, Rank.total_entregas r, Rank.total_turnos r))
         (calcularRanking (processarTodosOsTurnos fusoSaoPaulo turnosExemplo))
     = [(520, 22, 2)].
Proof. split; vm_compute; reflexivity. Qed.

(** Why the days are taken free of the bar: the key of a group is the
    text [id|day], and a bar inside both an identifier and a day lets two
    different pairs share one key. *)
Lemma chave_com_barra (host : JsDate.Host) :
  let t1 := {| id_da_pessoa_entregadora := "a|b"; pessoa_entregadora := "";
               data_do_periodo := "c"; duracao_do_periodo := Undefined;
               tempo_disponivel_absoluto := Undefined;
               numero_de_corridas_completadas := Some 20 |} in
  let t2 := {| id_da_pessoa_entregadora := "a"; pessoa_entregadora := "";
               data_do_periodo := "b|c"; duracao_do_periodo := Undefined;
               tempo_disponivel_absoluto := Undefined;
               numero_de_corridas_completadas := Some 20 |} in
  chave t1 = chave t2
  /\ id_da_pessoa_entregadora t1 <> id_da_pessoa_entregadora t2
  /\ map bonus_meta_diaria (processarTodosOsTurnos host [t1; t2]) = [300; 0].
Proof.
  intros t1 t2. split; [reflexivity|]. split; [discriminate|].
  vm_compute. reflexivity.
Qed.

(** * More of the calculator and of the client *)

(** ** The groups of a day *)

(** X1: the dictionary of [agruparPorDiaEntregador] holds, under each key,
    the shifts of that key in the order of the input, and never an empty
    group; a key that no shift has is absent, and every shift is in the
    group of its own key. *)
Theorem agrupar_particao (turnos : list (Ref TurnoComPontos)) :
  (forall k g, agruparPorDiaEntregador turnos !! k = Some g ->
               g <> [] /\ g = grupoDe k turnos)
  /\ (forall k, agruparPorDiaEntregador turnos !! k = None
                <-> Forall (fun r => chave (turno_de (deref r)) <> k) turnos)
  /\ (forall r, r ∈ turnos ->
                exists g, agruparPorDiaEntregador turnos !! chave (turno_de (deref r))
                          = Some g /\ r ∈ g).
Proof.
  assert (Hl : forall k, agruparPorDiaEntregador turnos !! k
                         = if decide (grupoDe k turnos = []) then None
                           else Some (grupoDe k turnos)).
  { intros k. unfold agruparPorDiaEntregador.
    rewrite foldl_agruparPasso_lookup, lookup_empty. reflexivity. }
  split; [|split].
  - intros k g. rewrite Hl. case_decide as Hg; [discriminate|].
    intros [= <-]. now split.
  - intros k. rewrite Hl. case_decide as Hg; split; try discriminate; auto.
    + intros _. apply Forall_forall. intros r Hr Hk.
      assert (Hin : r ∈ grupoDe k turnos) by (apply list_elem_of_filter; now split).
      rewrite Hg in Hin. inversion Hin.
    + intros Hall. exfalso. apply Hg. apply filter_nenhum.
      intros r Hr. rewrite Forall_forall in Hall. now apply Hall.
  - intros r Hr. now apply grupo_do_turno.
Qed.

Section DailyTotals.

Variable host : JsDate.Host.

Lemma grupoDe_pontuados turnos k :
  map (fun r => turno_de (deref r)) (grupoDe k (pontuarTurnos host turnos))
  = filter (fun t => chave t = k) turnos.
Proof.
  rewrite <- (pontuarTurnos_base host turnos) at 2.
  unfold grupoDe. now rewrite filter_map.
Qed.

(** X2: [entregas_no_dia] of every shift that [processarTodosOsTurnos]
    returns is the sum of the completed deliveries (a missing count is 0)
    over all the shifts of the input that have its key; so the shifts of
    one key all carry the same total. *)
Theorem entregas_no_dia_do_grupo (turnos : list Turno) :
  let finais := processarTodosOsTurnos host turnos in
  Forall (fun f =>
            entregas_no_dia f
            = somaZ (map (fun t => default 0 (numero_de_corridas_completadas t))
                         (filter (fun t => chave t = chave (turnoBase f)) turnos)))
         finais
  /\ forall f g, f ∈ finais -> g ∈ finais ->
                 chave (turnoBase f) = chave (turnoBase g) ->
                 entregas_no_dia f = entregas_no_dia g.
Proof.
  intros finais.
  assert (H : Forall (fun f =>
            entregas_no_dia f
            = somaZ (map (fun t => default 0 (numero_de_corridas_completadas t))
                         (filter (fun t => chave t = chave (turnoBase f)) turnos)))
         finais).
  { apply Forall_forall. intros f Hf.
    apply list_elem_of_fmap in Hf as (r & -> & Hr).
    unfold finalizarTurno. cbn [entregas_no_dia turnoBase pontuado].
    rewrite agrupar_lookup, calcularEntregasNoDia_soma.
    rewrite <- grupoDe_pontuados, map_map. reflexivity. }
  split; [exact H|].
  intros f g Hf Hg E. rewrite Forall_forall in H.
  now rewrite (H f Hf), (H g Hg), E.
Qed.

End DailyTotals.

Section DailyBonusByPosition.

Variable host : JsDate.Host.

Lemma pontuarTurnos_lookup turnos i :
  pontuarTurnos host turnos !! i
  = (fun t => {| addr := i;
                 deref := {| turno_de := t;
                             pontos_de := calcularPontosTurno host t |} |})
      <$> turnos !! i.
Proof. unfold pontuarTurnos. apply list_lookup_imap. Qed.

Lemma pontuarTurnos_take turnos i :
  map (fun r => turno_de (deref r)) (take i (pontuarTurnos host turnos))
  = take i turnos.
Proof.
  rewrite <- (pontuarTurnos_base host turnos) at 2.
  apply (fmap_take (fun r => turno_de (deref r))).
Qed.

Lemma processar_posicao (turnos : list Turno) (i : nat) (t : Turno) :
  turnos !! i = Some t ->
  exists f,
    processarTodosOsTurnos host turnos !! i = Some f
    /\ turnoBase f = t
    /\ pontos_de (pontuado f) = calcularPontosTurno host t
    /\ total_pontos_final f
       = total_pontos_turno (calcularPontosTurno host t) + bonus_meta_diaria f
    /\ bonus_meta_diaria f
       = if decide (Exists (fun t' => chave t' = chave t) (take i turnos))
         then 0
         else calcularBonusMetaDiaria (entregas_no_dia f).
Proof.
  intros Ht.
  set (pontuados := pontuarTurnos host turnos).
  set (grupos := agruparPorDiaEntregador pontuados).
  set (r := {| addr := i;
               deref := {| turno_de := t;
                           pontos_de := calcularPontosTurno host t |} |}).
  assert (Hr : pontuados !! i = Some r).
  { unfold pontuados. now rewrite pontuarTurnos_lookup, Ht. }
  exists (finalizarTurno grupos r).
  split; [|split; [reflexivity|split; [reflexivity|split; [reflexivity|]]]].
  { unfold processarTodosOsTurnos. fold pontuados grupos.
    change (map (finalizarTurno grupos) pontuados)
      with (finalizarTurno grupos <$> pontuados).
    now rewrite list_lookup_fmap, Hr. }
  unfold finalizarTurno. cbn [bonus_meta_diaria entregas_no_dia].
  unfold grupos. rewrite agrupar_lookup. cbn [deref turno_de r].
  set (P := fun r0 : Ref TurnoComPontos => chave (turno_de (deref r0)) = chave t).
  assert (Hsplit : grupoDe (chave t) pontuados
                   = (filter P (take i pontuados)
                      ++ r :: filter P (drop (S i) pontuados))%list).
  { unfold grupoDe. fold P. rewrite <- (take_drop_middle pontuados i r Hr) at 1.
    rewrite filter_app, filter_cons_True by reflexivity. reflexivity. }
  assert (Hex : Exists (fun t' => chave t' = chave t) (take i turnos)
                <-> filter P (take i pontuados) <> []).
  { rewrite <- pontuarTurnos_take. fold pontuados. split.
    - intros He Hnil. apply Exists_exists in He as (t' & Hin & Hk).
      apply list_elem_of_fmap in Hin as (r' & -> & Hin).
      assert (Hf : r' ∈ filter P (take i pontuados))
        by (apply list_elem_of_filter; now split).
      rewrite Hnil in Hf. inversion Hf.
    - intros Hne. destruct (filter P (take i pontuados)) as [|r0 l] eqn:E;
        [congruence|].
      assert (Hin : r0 ∈ filter P (take i pontuados)) by (rewrite E; left).
      apply list_elem_of_filter in Hin as [Hp Hin].
      apply Exists_exists. exists (turno_de (deref r0)). split; [|exact Hp].
      now apply (list_elem_of_fmap_2 (fun r => turno_de (deref r))). }
  rewrite Hsplit. unfold primeiroDoDia.
  destruct (filter P (take i pontuados)) as [|r0 l] eqn:E.
  - rewrite decide_False by (rewrite Hex; tauto).
    cbn [app lookup list_lookup]. change (addr r) with i. now rewrite Nat.eqb_refl.
  - rewrite decide_True by (rewrite Hex; discriminate).
    cbn [app lookup list_lookup].
    assert (Hin : r0 ∈ filter P (take i pontuados)) by (rewrite E; left).
    apply list_elem_of_filter in Hin as [_ Hin].
    apply list_elem_of_lookup in Hin as [j Hj].
    apply lookup_take_Some in Hj as [Hj Hlt].
    unfold pontuados in Hj. rewrite pontuarTurnos_lookup in Hj.
    destruct (turnos !! j) as [tj|]; [|discriminate]. injection Hj as <-.
    cbn [addr]. change (addr r) with i.
    destruct (Nat.eqb_spec j i); [lia | reflexivity].
Qed.

(** X3: the shift at position [i] of the input earns the daily bonus
    exactly when no earlier shift of the input has its key; it then earns
    the bonus of its [entregas_no_dia], and 0 otherwise. *)
Theorem bonus_meta_diaria_por_posicao (turnos : list Turno) (i : nat) (t : Turno) :
  turnos !! i = Some t ->
  exists f,
    processarTodosOsTurnos host turnos !! i = Some f
    /\ turnoBase f = t
    /\ bonus_meta_diaria f
       = if decide (Exists (fun t' => chave t' = chave t) (take i turnos))
         then 0
         else calcularBonusMetaDiaria (entregas_no_dia f).
Proof.
  intros Ht.
  destruct (processar_posicao turnos i t Ht) as (f & Hf & Hb & _ & _ & Hbon).
  exists f. auto.
Qed.

End DailyBonusByPosition.

(** The second shift of the example comes after a shift of its key. *)
Lemma bonus_meta_diaria_por_posicao_witness :
  exists f,
    processarTodosOsTurnos fusoSaoPaulo turnosExemplo !! 1%nat = Some f
    /\ turnoBase f = turnoDe "2024-12-25T14:00:00" "04:00:00" "01:00:00" 10
    /\ bonus_meta_diaria f
       = if decide (Exists (fun t' =>
                              chave t'
                              = chave (turnoDe "2024-12-25T14:00:00" "04:00:00"
                                               "01:00:00" 10))
                           (take 1 turnosExemplo))
         then 0
         else calcularBonusMetaDiaria (entregas_no_dia f).
Proof.
  apply (bonus_meta_diaria_por_posicao fusoSaoPaulo turnosExemplo 1
           (turnoDe "2024-12-25T14:00:00" "04:00:00" "01:00:00" 10)).
  reflexivity.
Defined.

(** ** The key of a group *)

Lemma chave_inj_ids (a b x y : string) :
  a ++ "|" ++ x = b ++ "|" ++ y ->
  contem "|" a = false -> contem "|" b = false ->
  a = b /\ x = y.
Proof.
  change ("|" ++ x) with (String "|" x). change ("|" ++ y) with (String "|" y).
  revert b. induction a as [|c a IH]; intros [|c' b] E Ha Hb.
  - change (String "|" x = String "|" y) in E. injection E as E. now split.
  - change (String "|" x = String c' (b ++ String "|" y)) in E.
    injection E as <- E. discriminate Hb.
  - change (String c (a ++ String "|" x) = String "|" y) in E.
    injection E as -> E. discriminate Ha.
  - change (String c (a ++ String "|" x) = String c' (b ++ String "|" y)) in E.
    injection E as <- E. simpl in Ha, Hb.
    apply orb_false_iff in Ha as [_ Ha]. apply orb_false_iff in Hb as [_ Hb].
    destruct (IH b E Ha Hb) as [-> ->]. now split.
Qed.

(** X4: two shifts have the same key exactly when they have the same
    worker identifier and the same calendar day, provided the bar that
    joins the two in the key occurs in neither identifier, or in neither
    day. *)
Theorem chave_identifica_par (t1 t2 : Turno) :
  (contem "|" (id_da_pessoa_entregadora t1) = false
   /\ contem "|" (id_da_pessoa_entregadora t2) = false)
  \/ (contem "|" (diaDoTurno t1) = false /\ contem "|" (diaDoTurno t2) = false) ->
  chave t1 = chave t2
  <-> id_da_pessoa_entregadora t1 = id_da_pessoa_entregadora t2
      /\ diaDoTurno t1 = diaDoTurno t2.
Proof.
  intros H. split.
  - unfold chave. intros E. destruct H as [[H1 H2]|[H1 H2]].
    + now apply chave_inj_ids in E.
    + now apply chave_inj in E.
  - unfold chave. now intros [-> ->].
Qed.

Lemma chave_identifica_par_witness :
  let t1 := turnoDe "2024-12-25" "08:00:00" "07:30:00" 12 in
  let t2 := turnoDe "2024-12-25T14:00:00" "04:00:00" "01:00:00" 10 in
  chave t1 = chave t2
  <-> id_da_pessoa_entregadora t1 = id_da_pessoa_entregadora t2
      /\ diaDoTurno t1 = diaDoTurno t2.
Proof.
  apply (chave_identifica_par
           (turnoDe "2024-12-25" "08:00:00" "07:30:00" 12)
           (turnoDe "2024-12-25T14:00:00" "04:00:00" "01:00:00" 10)).
  left. split; reflexivity.
Defined.

(** ** More on the ranking *)

Lemma somaZ_perm l1 l2 : Permutation l1 l2 -> somaZ l1 = somaZ l2.
Proof.
  induction 1 as [|x l l' _ IH|x y l|l l' l'' _ IH1 _ IH2]; simpl; unfold somaZ in *;
    simpl; lia.
Qed.

Lemma somaZ_app l1 l2 : somaZ (l1 ++ l2) = somaZ l1 + somaZ l2.
Proof. induction l1 as [|x l1 IH]; unfold somaZ in *; simpl; lia. Qed.

Lemma dictLookup_In {A} (d : Dict A) k v :
  NoDup (map fst d) -> (k, v) ∈ d -> dictLookup k d = Some v.
Proof.
  induction d as [|[k' v'] d IH]; intros Hnd Hin; [inversion Hin|].
  cbn [map fst] in Hnd. apply NoDup_cons in Hnd as [Hk Hnd].
  apply elem_of_cons in Hin as [[= -> ->]|Hin]; simpl.
  - now rewrite String.eqb_refl.
  - destruct (String.eqb_spec k' k) as [->|Hne]; [|now apply IH].
    exfalso. apply Hk. now apply (list_elem_of_fmap_2 fst) in Hin.
Qed.

(** The fields an entry holds after a run of shifts of its worker that
    the totals leave out. *)
Lemma foldl_passoAcc_campos grupo e :
  exists e',
    foldl passoAcc (Some e) grupo = Some e'
    /\ Acc.id_da_pessoa_entregadora e' = Acc.id_da_pessoa_entregadora e
    /\ Acc.pessoa_entregadora e' = Acc.pessoa_entregadora e
    /\ Acc._soma_percentual_online e'
       = foldl (fun a f =>
                  (a + orZero (percentual_tempo_online (pontos_de (pontuado f))))%float)
               (Acc._soma_percentual_online e) grupo.
Proof.
  revert e. induction grupo as [|f grupo IH]; intros e.
  - exists e. now repeat split.
  - simpl foldl. unfold passoAcc at 2. simpl default.
    destruct (IH (somarAcc f e)) as (e' & -> & Hi & Hn & Hs).
    exists e'. split; [reflexivity|]. rewrite Hi, Hn, Hs. now repeat split.
Qed.

(** What the dictionary of [calcularRanking] holds for a worker. *)
Lemma acumulado_do_entregador turnos k e :
  (k, e) ∈ foldl acumular [] turnos ->
  exists f grupo,
    turnosDe k turnos = f :: grupo
    /\ foldl passoAcc (Some (somarAcc f (novoAcc f))) grupo = Some e.
Proof.
  intros Hin.
  assert (Hok : dictOk (foldl acumular [] turnos))
    by (apply foldl_acumular_ok; split; constructor).
  apply (dictLookup_In _ _ _ (proj1 Hok)) in Hin.
  rewrite foldl_acumular_lookup in Hin. cbn [dictLookup] in Hin.
  destruct (herdado k); [discriminate|].
  destruct (turnosDe k turnos) as [|f grupo]; [discriminate|].
  now exists f, grupo.
Qed.

Lemma ranking_ids_perm turnos :
  Permutation (map Rank.id_da_pessoa_entregadora (calcularRanking turnos))
              (map fst (foldl acumular [] turnos)).
Proof.
  rewrite calcularRanking_perm, !map_map.
  assert (Hok : dictOk (foldl acumular [] turnos))
    by (apply foldl_acumular_ok; split; constructor).
  destruct Hok as [_ Hid].
  induction Hid as [|[k e] d Hke _ IH]; [reflexivity|].
  cbn [map fst snd entradaDoRanking Rank.id_da_pessoa_entregadora] in *.
  rewrite Hke. now constructor.
Qed.

(** X5: the ranking has at most one entry per worker: no identifier
    twice; its identifiers are those of the input that name no member
    inherited from [Object.prototype], and no other; and every entry
    counts at least one shift, so that the mean of the online percentage
    never divides by zero. *)
Theorem ranking_um_por_entregador (turnos : list TurnoFinal) :
  NoDup (map Rank.id_da_pessoa_entregadora (calcularRanking turnos))
  /\ (forall w,
         w ∈ map Rank.id_da_pessoa_entregadora (calcularRanking turnos)
         <-> w ∈ map (fun f => id_da_pessoa_entregadora (turnoBase f)) turnos
             /\ herdado w = false)
  /\ Forall (fun r => 1 <= Rank.total_turnos r) (calcularRanking turnos).
Proof.
  assert (Hok : dictOk (foldl acumular [] turnos))
    by (apply foldl_acumular_ok; split; constructor).
  split; [|split].
  - rewrite ranking_ids_perm. exact (proj1 Hok).
  - intros w. rewrite ranking_ids_perm.
    pose proof (dictLookup_None (foldl acumular [] turnos) w) as Hn.
    rewrite foldl_acumular_lookup in Hn. cbn [dictLookup] in Hn.
    destruct (herdado w) eqn:Hw.
    { rewrite list_elem_of_In. split; [|intros [_ H]; discriminate H].
      intros Hin. exfalso. now apply (proj1 Hn). }
    assert (Hv : forall P : Prop, P /\ false = false <-> P) by (intros P; tauto).
    rewrite Hv. clear Hv.
    assert (Hg : turnosDe w turnos <> []
                 <-> w ∈ map (fun f => id_da_pessoa_entregadora (turnoBase f)) turnos).
    { split.
      - intros Hne. destruct (turnosDe w turnos) as [|f g] eqn:E; [congruence|].
        assert (Hin : f ∈ turnosDe w turnos) by (rewrite E; left).
        apply list_elem_of_filter in Hin as [<- Hin].
        now apply (list_elem_of_fmap_2 (fun f => id_da_pessoa_entregadora (turnoBase f))).
      - intros Hin E. apply list_elem_of_fmap in Hin as (f & -> & Hf).
        assert (Hin : f ∈ turnosDe (id_da_pessoa_entregadora (turnoBase f)) turnos)
          by (apply list_elem_of_filter; now split).
        rewrite E in Hin. inversion Hin. }
    rewrite <- Hg. rewrite list_elem_of_In.
    destruct (turnosDe w turnos) as [|f g]; cbn [foldl] in Hn.
    + split; [|congruence]. intros Hin. exfalso. now apply (proj1 Hn).
    + split; [discriminate|]. intros _.
      destruct (in_dec string_dec w (map fst (foldl acumular [] turnos)))
        as [Hin|Hnin]; [exact Hin|].
      apply Hn in Hnin. unfold passoAcc at 2 in Hnin. cbn [default] in Hnin.
      destruct (foldl_passoAcc_totais g (somarAcc f (novoAcc f))) as (e & He & _).
      congruence.
  - apply Forall_forall. intros r Hr.
    rewrite calcularRanking_perm in Hr.
    apply list_elem_of_fmap in Hr as (e & -> & He).
    apply list_elem_of_fmap in He as ([k e'] & -> & Hin).
    destruct (acumulado_do_entregador turnos k e' Hin) as (f & grupo & _ & Hf).
    destruct (foldl_passoAcc_totais grupo (somarAcc f (novoAcc f)))
      as (e & He & _ & _ & Ht).
    rewrite Hf in He. injection He as <-.
    cbn [snd entradaDoRanking Rank.total_turnos]. rewrite Ht.
    cbn [somarAcc novoAcc Acc.total_turnos]. lia.
Qed.

(** ** What the ranking conserves *)

Lemma dictUpdate_soma (g : Acc.t -> Z) (f : Acc.t -> Acc.t) (delta : Z)
      (key : string) (d : Dict Acc.t) :
  (forall v, g (f v) = g v + delta) ->
  In key (map fst d) ->
  somaZ (map (fun kv => g kv.2) (dictUpdate key f d))
  = somaZ (map (fun kv => g kv.2) d) + delta.
Proof.
  intros Hf. induction d as [|[k v] d IH]; intros Hin; [destruct Hin|].
  cbn [dictUpdate]. destruct (String.eqb_spec k key) as [->|Hne].
  - unfold somaZ. cbn [map foldr snd]. rewrite Hf. lia.
  - destruct Hin as [Hk|Hin]; [now destruct Hne|].
    unfold somaZ in *. cbn [map foldr snd]. rewrite IH by exact Hin. lia.
Qed.

Lemma foldl_acumular_soma (g : Acc.t -> Z) (delta : TurnoFinal -> Z) turnos d :
  (forall t, g (novoAcc t) = 0) ->
  (forall t v, g (somarAcc t v) = g v + delta t) ->
  somaZ (map (fun kv => g kv.2) (foldl acumular d turnos))
  = somaZ (map (fun kv => g kv.2) d) + somaZ (map delta (turnosComEntrada turnos)).
Proof.
  intros Hn Hs. revert d. induction turnos as [|t turnos IH]; intros d.
  - unfold somaZ at 3. simpl. lia.
  - simpl foldl. rewrite IH. unfold turnosComEntrada. rewrite filter_cons.
    fold (turnosComEntrada turnos). unfold acumular.
    set (id := id_da_pessoa_entregadora (turnoBase t)).
    destruct (herdado id) eqn:Hid.
    { rewrite decide_False by discriminate. reflexivity. }
    rewrite decide_True by reflexivity.
    unfold somaZ at 4. cbn [map foldr].
    fold (somaZ (map delta (turnosComEntrada turnos))).
    destruct (dictLookup id d) as [e|] eqn:E.
    + rewrite (dictUpdate_soma g _ (delta t)); [lia|apply Hs|].
      destruct (in_dec string_dec id (map fst d)) as [Hin|Hnin]; [exact Hin|].
      apply dictLookup_None in Hnin. congruence.
    + rewrite (dictUpdate_soma g _ (delta t)); [|apply Hs|].
      * unfold dictAdd. rewrite map_app, somaZ_app.
        unfold somaZ at 2. cbn [map foldr snd]. rewrite Hn. lia.
      * unfold dictAdd. rewrite map_app. apply in_or_app. right. now left.
Qed.

Lemma ranking_soma (g : Acc.t -> Z) (h : Rank.t -> Z) (delta : TurnoFinal -> Z) turnos :
  (forall e, h (entradaDoRanking e) = g e) ->
  (forall t, g (novoAcc t) = 0) ->
  (forall t v, g (somarAcc t v) = g v + delta t) ->
  somaZ (map h (calcularRanking turnos)) = somaZ (map delta (turnosComEntrada turnos)).
Proof.
  intros Hh Hn Hs.
  rewrite (somaZ_perm _ _ (Permutation_map h (calcularRanking_perm turnos))).
  rewrite !map_map.
  rewrite (map_ext _ (fun kv => g kv.2)) by (intros kv; apply Hh).
  rewrite (foldl_acumular_soma g delta turnos [] Hn Hs). reflexivity.
Qed.

(** X6: the ranking conserves the totals of the shifts whose worker gets
    an entry, those with an identifier that names no member inherited from
    [Object.prototype]: over the entries of the ranking, the points add up
    to the final totals of these shifts, the deliveries to their deliveries
    (a missing count as 0), and the numbers of shifts to their number. The
    other shifts of the input count nowhere; when there is none, the
    totals are those of the input. *)
Theorem ranking_conserva_totais (turnos : list TurnoFinal) :
  somaZ (map Rank.total_pontos (calcularRanking turnos))
  = somaZ (map total_pontos_final (turnosComEntrada turnos))
  /\ somaZ (map Rank.total_entregas (calcularRanking turnos))
     = somaZ (map (fun f => default 0 (numero_de_corridas_completadas (turnoBase f)))
                  (turnosComEntrada turnos))
  /\ somaZ (map Rank.total_turnos (calcularRanking turnos))
     = Z.of_nat (length (turnosComEntrada turnos))
  /\ (existsb (fun f => herdado (id_da_pessoa_entregadora (turnoBase f))) turnos = false
      -> turnosComEntrada turnos = turnos).
Proof.
  split; [|split; [|split]].
  - apply (ranking_soma Acc.total_pontos); [reflexivity..|].
    intros t v. cbn [somarAcc Acc.total_pontos]. now rewrite orZeroZ_default.
  - apply (ranking_soma Acc.total_entregas); [reflexivity..|].
    intros t v. cbn [somarAcc Acc.total_entregas]. now rewrite orZeroZ_default.
  - rewrite (ranking_soma Acc.total_turnos Rank.total_turnos (fun _ => 1));
      [|reflexivity..].
    induction (turnosComEntrada turnos) as [|t l IH]; [reflexivity|].
    unfold somaZ in *. cbn [map foldr length]. rewrite IH. lia.
  - intros H. induction turnos as [|t turnos IH]; [reflexivity|].
    cbn [existsb] in H. apply orb_false_elim in H as [Ht H].
    unfold turnosComEntrada in *. rewrite filter_cons, decide_True by exact Ht.
    now rewrite IH.
Qed.

(** ** The order of the entries with equal points *)

Lemma insertSorted_estavel {A} (key : A -> Z) (p : Z) x l :
  filter (fun a => key a = p) (insertSorted (fun a b => key b - key a) x l)
  = filter (fun a => key a = p) (x :: l).
Proof.
  induction l as [|y l IH]; [reflexivity|].
  cbn [insertSorted]. destruct (Z.ltb_spec 0 (key y - key x)) as [Hlt|Hge];
    [|reflexivity].
  rewrite filter_cons, IH, !filter_cons.
  destruct (decide (key y = p)), (decide (key x = p)); try reflexivity. lia.
Qed.

Lemma sort_estavel {A} (key : A -> Z) (p : Z) l :
  filter (fun a => key a = p) (sort (fun a b => key b - key a) l)
  = filter (fun a => key a = p) l.
Proof.
  induction l as [|x l IH]; [reflexivity|].
  unfold sort in *. cbn [foldr]. rewrite insertSorted_estavel, !filter_cons, IH.
  reflexivity.
Qed.

Lemma insertSorted_map {A B} (g : A -> B) (cmpA : A -> A -> Z) (cmpB : B -> B -> Z) x l :
  (forall a b, cmpB (g a) (g b) = cmpA a b) ->
  map g (insertSorted cmpA x l) = insertSorted cmpB (g x) (map g l).
Proof.
  intros Hc. induction l as [|y l IH]; [reflexivity|].
  cbn [insertSorted map]. rewrite Hc. destruct (0 <? cmpA x y); cbn [map];
    [now rewrite IH | reflexivity].
Qed.

Lemma sort_map {A B} (g : A -> B) (cmpA : A -> A -> Z) (cmpB : B -> B -> Z) l :
  (forall a b, cmpB (g a) (g b) = cmpA a b) ->
  map g (sort cmpA l) = sort cmpB (map g l).
Proof.
  intros Hc. induction l as [|x l IH]; [reflexivity|].
  unfold sort in *. cbn [foldr map].
  rewrite (insertSorted_map g cmpA cmpB) by exact Hc. now rewrite IH.
Qed.

Lemma objectValues_map {A B} (h : A -> B) (d : Dict A) :
  map h (objectValues d) = objectValues (map (fun kv => (kv.1, h kv.2)) d).
Proof.
  unfold objectValues. rewrite map_app. f_equal.
  - rewrite !map_map.
    rewrite <- (map_map (fun a : Z * A => (a.1, h a.2)) snd).
    rewrite (sort_map (fun a : Z * A => (a.1, h a.2))
                      (fun a b => a.1 - b.1) (fun a b => a.1 - b.1))
      by reflexivity.
    f_equal. f_equal.
    induction d as [|[k v] d IH]; [reflexivity|].
    cbn [map omap list_omap fst snd]. destruct (arrayIndex k); cbn [fmap option_fmap option_map map fst snd];
      now rewrite <- IH.
  - induction d as [|[k v] d IH]; [reflexivity|].
    cbn [map]. rewrite !filter_cons. cbn [fst snd].
    destruct (decide (arrayIndex k = None)); cbn [map snd]; now rewrite IH.
Qed.

Lemma ordemDeEnumeracao_nomes keys :
  Forall (fun k => arrayIndex k = None) keys -> ordemDeEnumeracao keys = keys.
Proof.
  unfold ordemDeEnumeracao, objectValues. intros Hk.
  assert (E : omap (fun kv : string * string =>
                      (fun i => (i, kv.2)) <$> arrayIndex kv.1)
                   (map (fun k => (k, k)) keys) = []).
  { induction Hk as [|k keys Hk _ IH]; [reflexivity|].
    cbn [map omap list_omap fst snd]. rewrite Hk. exact IH. }
  rewrite E. clear E. cbn [sort foldr map app].
  induction Hk as [|k keys Hk _ IH]; [reflexivity|].
  cbn [map]. rewrite filter_cons. cbn [fst]. rewrite decide_True by exact Hk.
  cbn [map snd]. f_equal. exact IH.
Qed.

Lemma acumular_chaves d t :
  herdado (id_da_pessoa_entregadora (turnoBase t)) = false ->
  map fst (acumular d t)
  = passoChave (map fst d) (id_da_pessoa_entregadora (turnoBase t)).
Proof.
  intros Hh. unfold acumular, passoChave. rewrite Hh, dictUpdate_keys.
  set (id := id_da_pessoa_entregadora (turnoBase t)).
  destruct (dictLookup id d) as [e|] eqn:E.
  - rewrite decide_True; [reflexivity|].
    apply list_elem_of_In.
    destruct (in_dec string_dec id (map fst d)) as [Hin|Hnin]; [exact Hin|].
    apply dictLookup_None in Hnin. congruence.
  - apply dictLookup_None in E. rewrite decide_False by (now rewrite list_elem_of_In).
    unfold dictAdd. now rewrite map_app.
Qed.

Lemma foldl_passoChave l acc :
  foldl passoChave acc l = (acc ++ filter (fun y => y ∉ acc) (primeiros l))%list.
Proof.
  revert acc. induction l as [|x l IH]; intros acc.
  - simpl. now rewrite app_nil_r.
  - cbn [foldl primeiros]. rewrite IH. unfold passoChave.
    rewrite filter_cons. destruct (decide (x ∈ acc)) as [Hin|Hnin].
    + rewrite decide_False by tauto. f_equal.
      rewrite list_filter_filter. apply filter_ext_elem. intros y _.
      split; [|tauto]. intros Hy. split; [exact Hy|]. intros ->. tauto.
    + rewrite decide_True by exact Hnin. rewrite <- app_assoc. cbn [app]. do 2 f_equal.
      rewrite list_filter_filter. apply filter_ext_elem. intros y _.
      rewrite elem_of_app, list_elem_of_singleton. tauto.
Qed.

Lemma chaves_do_ranking turnos :
  map fst (foldl acumular [] turnos)
  = primeiros (map (fun f => id_da_pessoa_entregadora (turnoBase f))
                   (turnosComEntrada turnos)).
Proof.
  assert (H : forall d, map fst (foldl acumular d turnos)
                        = foldl passoChave (map fst d)
                            (map (fun f => id_da_pessoa_entregadora (turnoBase f))
                                 (turnosComEntrada turnos))).
  { induction turnos as [|t turnos IH]; intros d; [reflexivity|].
    cbn [foldl]. rewrite IH. unfold turnosComEntrada at 2. rewrite filter_cons.
    fold (turnosComEntrada turnos).
    destruct (herdado (id_da_pessoa_entregadora (turnoBase t))) eqn:Hh.
    - rewrite decide_False by discriminate. now rewrite acumular_herdado.
    - rewrite decide_True by reflexivity. cbn [foldl map].
      now rewrite acumular_chaves. }
  rewrite H, foldl_passoChave. cbn [map app].
  generalize (primeiros (map (fun f => id_da_pessoa_entregadora (turnoBase f))
                             (turnosComEntrada turnos))).
  intros l. induction l as [|y l IH]; [reflexivity|].
  rewrite filter_cons, decide_True by apply not_elem_of_nil. now rewrite IH.
Qed.

Lemma total_do_entregador turnos e :
  e ∈ objectValues (foldl acumular [] turnos) ->
  Acc.total_pontos e
  = somaZ (map total_pontos_final (turnosDe (Acc.id_da_pessoa_entregadora e) turnos)).
Proof.
  intros He. rewrite objectValues_perm in He.
  apply list_elem_of_fmap in He as ([k e'] & -> & Hin).
  assert (Hok : dictOk (foldl acumular [] turnos))
    by (apply foldl_acumular_ok; split; constructor).
  pose proof (proj2 Hok) as Hid. rewrite Forall_forall in Hid.
  specialize (Hid _ Hin). cbn [fst snd] in *. rewrite Hid.
  destruct (acumulado_do_entregador turnos k e' Hin) as (f & grupo & -> & Hf).
  destruct (foldl_passoAcc_totais grupo (somarAcc f (novoAcc f)))
    as (e & He & Hp & _).
  rewrite Hf in He. injection He as <-. rewrite Hp.
  cbn [somarAcc novoAcc Acc.total_pontos]. rewrite orZeroZ_default.
  unfold somaZ. simpl. lia.
Qed.

(** X7: entries with equal points are not reordered by the sort: for every
    number of points, the workers having it stand in the ranking in the
    order in which [Object.values] enumerates the dictionary, which is the
    order of their first shift in the input when no identifier is an array
    index. The workers are those that get an entry: their identifiers
    name no member inherited from [Object.prototype]. *)
Theorem ranking_ordem_dos_empates (turnos : list TurnoFinal) :
  let ids :=
    map (fun f => id_da_pessoa_entregadora (turnoBase f)) (turnosComEntrada turnos) in
  (forall p,
      map Rank.id_da_pessoa_entregadora
          (filter (fun r => Rank.total_pontos r = p) (calcularRanking turnos))
      = filter (fun w => somaZ (map total_pontos_final (turnosDe w turnos)) = p)
               (ordemDeEnumeracao (primeiros ids)))
  /\ (Forall (fun w => arrayIndex w = None) ids ->
      ordemDeEnumeracao (primeiros ids) = primeiros ids).
Proof.
  intros ids. split.
  - intros p. unfold calcularRanking.
    rewrite (sort_estavel Rank.total_pontos p).
    rewrite (filter_map entradaDoRanking).
    rewrite map_map.
    rewrite (filter_ext_elem _
               (fun e => somaZ (map total_pontos_final
                                    (turnosDe (Acc.id_da_pessoa_entregadora e) turnos)) = p)).
    2:{ intros e He. cbn [entradaDoRanking Rank.total_pontos].
        now rewrite (total_do_entregador turnos e He). }
    rewrite (map_ext _ Acc.id_da_pessoa_entregadora) by reflexivity.
    transitivity
      (filter (fun w => somaZ (map total_pontos_final (turnosDe w turnos)) = p)
              (map Acc.id_da_pessoa_entregadora
                   (objectValues (foldl acumular [] turnos)))).
    { symmetry.
      exact (filter_map Acc.id_da_pessoa_entregadora
               (fun w => somaZ (map total_pontos_final (turnosDe w turnos)) = p)
               (objectValues (foldl acumular [] turnos))). }
    f_equal. rewrite objectValues_map.
    assert (Hok : dictOk (foldl acumular [] turnos))
      by (apply foldl_acumular_ok; split; constructor).
    unfold ordemDeEnumeracao, ids. rewrite <- chaves_do_ranking, map_map.
    f_equal. destruct Hok as [_ Hid].
    induction Hid as [|[k e] d Hke _ IH]; [reflexivity|].
    cbn [map fst snd] in *. now rewrite Hke, IH.
  - intros Hids. apply ordemDeEnumeracao_nomes.
    apply Forall_forall. intros w Hw. rewrite Forall_forall in Hids. apply Hids.
    clear Hids. revert w Hw. generalize ids. intros l.
    induction l as [|x l IH]; intros w Hw; [inversion Hw|].
    cbn [primeiros] in Hw. apply elem_of_cons in Hw as [->|Hw]; [left|].
    right. apply IH. now apply list_elem_of_filter in Hw as [_ Hw].
Qed.

(** X8: the name of an entry is the name on the first shift of its worker
    in the input, whatever the later ones say, and its mean is the sum of
    the percentages stored on the worker's shifts, added in the order of
    the input and divided by their number, rounded to two decimals. *)
Theorem ranking_nome_e_media (turnos : list TurnoFinal) :
  Forall (fun r =>
            exists f grupo,
              turnosDe (Rank.id_da_pessoa_entregadora r) turnos = f :: grupo
              /\ Rank.pessoa_entregadora r = pessoa_entregadora (turnoBase f)
              /\ Rank.media_percentual_online r
                 = toFixed2
                     (foldl (fun a g =>
                               (a + orZero (percentual_tempo_online (pontos_de (pontuado g))))%float)
                            0%float (f :: grupo)
                      / ofZ (Z.of_nat (length (f :: grupo))))%float)
         (calcularRanking turnos).
Proof.
  apply Forall_forall. intros r Hr.
  rewrite calcularRanking_perm in Hr.
  apply list_elem_of_fmap in Hr as (e & -> & He).
  apply list_elem_of_fmap in He as ([k e'] & -> & Hin).
  assert (Hok : dictOk (foldl acumular [] turnos))
    by (apply foldl_acumular_ok; split; constructor).
  pose proof (proj2 Hok) as Hid. rewrite Forall_forall in Hid.
  specialize (Hid _ Hin). cbn [fst snd] in *.
  destruct (acumulado_do_entregador turnos k e' Hin) as (f & grupo & Hg & Hf).
  exists f, grupo.
  destruct (foldl_passoAcc_campos grupo (somarAcc f (novoAcc f)))
    as (e & He & _ & Hn & Hs).
  destruct (foldl_passoAcc_totais grupo (somarAcc f (novoAcc f)))
    as (e2 & He2 & _ & _ & Ht).
  rewrite Hf in He, He2. injection He as <-. injection He2 as <-.
  cbn [entradaDoRanking Rank.id_da_pessoa_entregadora Rank.pessoa_entregadora
       Rank.media_percentual_online].
  rewrite Hid, Hn, Hs, Ht. split; [exact Hg|]. split; [reflexivity|].
  cbn [foldl somarAcc novoAcc Acc._soma_percentual_online Acc.total_turnos length].
  do 3 f_equal. lia.
Qed.

(** ** From the shifts to the points of a worker *)

Lemma primeiros_elem {A : Type} `{EqDecision A} (x : A) l :
  x ∈ primeiros l -> x ∈ l.
Proof.
  induction l as [|y l IH]; [intros H; inversion H|].
  cbn [primeiros]. intros H. apply elem_of_cons in H as [->|H]; [left|].
  right. apply IH. now apply list_elem_of_filter in H as [_ H].
Qed.

Lemma primeiros_map_inj {A B : Type} `{EqDecision A} `{EqDecision B}
      (g : A -> B) (l : list A) :
  (forall x y, x ∈ l -> y ∈ l -> g x = g y -> x = y) ->
  primeiros (map g l) = map g (primeiros l).
Proof.
  induction l as [|x l IH]; intros Hg; [reflexivity|].
  cbn [map primeiros]. f_equal. rewrite IH.
  2:{ intros a b Ha Hb. apply Hg; now right. }
  rewrite (filter_map g). f_equal. apply filter_ext_elem.
  intros y Hy. split; [congruence|]. intros H E. apply H.
  apply Hg; [right; now apply primeiros_elem | left | exact E].
Qed.

Lemma ranking_total_de turnos r :
  r ∈ calcularRanking turnos ->
  Rank.total_pontos r
  = somaZ (map total_pontos_final (turnosDe (Rank.id_da_pessoa_entregadora r) turnos)).
Proof.
  intros Hr. unfold calcularRanking in Hr. rewrite sort_perm in Hr.
  apply list_elem_of_fmap in Hr as (e & -> & He).
  cbn [entradaDoRanking Rank.total_pontos Rank.id_da_pessoa_entregadora].
  now apply total_do_entregador.
Qed.

(** Two calendar days have two date texts. *)
Lemma textoData_inj y m d y' m' d' :
  dataValida y m d -> dataValida y' m' d' ->
  textoData y m d = textoData y' m' d' -> (y, m, d) = (y', m', d').
Proof.
  intros (Hy & Hm & Hd) (Hy' & Hm' & Hd') E.
  pose proof (DateFacts.diasNoMes_max y m). pose proof (DateFacts.diasNoMes_max y' m').
  apply (f_equal list_ascii_of_string) in E. unfold textoData in E.
  rewrite !list_ascii_of_string_of_list_ascii in E.
  remember ("-"%char :: digitos 2 m ++ "-"%char :: digitos 2 d)%list as r eqn:Er.
  remember ("-"%char :: digitos 2 m' ++ "-"%char :: digitos 2 d')%list as r' eqn:Er'.
  pose proof (f_equal JsDate.readYear E) as Ey.
  rewrite !DateFacts.readYear_digitos in Ey by assumption.
  injection Ey as -> Em. subst r r'.
  remember ("-"%char :: digitos 2 d ++ [])%list as q eqn:Eq.
  remember ("-"%char :: digitos 2 d' ++ [])%list as q' eqn:Eq'.
  rewrite <- (app_nil_r (digitos 2 d)), <- (app_nil_r (digitos 2 d')) in Em.
  rewrite <- Eq, <- Eq' in Em.
  pose proof (f_equal (JsDate.readDashField 1 12) Em) as Em'.
  rewrite !DateFacts.readDashField_digitos in Em' by lia.
  injection Em' as -> Ed. subst q q'.
  pose proof (f_equal (JsDate.readDashField 1 31) Ed) as Ed'.
  rewrite !DateFacts.readDashField_digitos in Ed' by lia.
  now injection Ed' as ->.
Qed.

(** The day of the group of a shift is the text of the calendar day on
    which its date is written. *)
Lemma escritoEm_dia turno dia :
  escritoEm dia (data_do_periodo turno) ->
  diaDoTurno turno = textoDoDia dia /\ contem "|" (diaDoTurno turno) = false.
Proof.
  destruct dia as [[y m] d]. intros (Hv & horario & Ht).
  exact (diaDoTurno_data turno y m d horario Hv Ht).
Qed.

Lemma escritoEm_inj dia dia' texto texto' :
  escritoEm dia texto -> escritoEm dia' texto' ->
  textoDoDia dia = textoDoDia dia' -> dia = dia'.
Proof.
  destruct dia as [[y m] d], dia' as [[y' m'] d']. intros (Hv & _) (Hv' & _) E.
  now apply textoData_inj.
Qed.

Section WorkerPoints.

Variable host : JsDate.Host.

Lemma processar_imap (turnos : list Turno) :
  map (fun f => (turnoBase f, total_pontos_final f))
      (processarTodosOsTurnos host turnos)
  = imap (fun i t =>
            (t, total_pontos_turno (calcularPontosTurno host t)
                + bonusApos (fun k => calcularBonusMetaDiaria (entregasDaChave turnos k))
                            (take i turnos) t))
         turnos.
Proof.
  apply list_eq. intros i.
  change (map ?f ?l) with (f <$> l).
  rewrite list_lookup_fmap, list_lookup_imap.
  destruct (turnos !! i) as [t|] eqn:Ht.
  - destruct (processar_posicao host turnos i t Ht) as (f & Hf & Hb & _ & Htot & Hbon).
    rewrite Hf. cbn [fmap option_fmap option_map]. f_equal. f_equal; [exact Hb|].
    rewrite Htot, Hbon. f_equal. unfold bonusApos.
    destruct (decide (Exists (fun t' => chave t' = chave t) (take i turnos)));
      [reflexivity|].
    f_equal. unfold entregasDaChave.
    assert (Hin : f ∈ processarTodosOsTurnos host turnos)
      by (apply list_elem_of_lookup; now exists i).
    apply list_elem_of_fmap in Hin as (r & -> & Hr).
    unfold finalizarTurno. cbn [entregas_no_dia].
    rewrite agrupar_lookup, calcularEntregasNoDia_soma.
    rewrite <- (grupoDe_pontuados host), map_map.
    change (turno_de (deref r) = t) in Hb. now rewrite Hb.
  - cbn [fmap option_fmap option_map].
    assert (Hlen : length (processarTodosOsTurnos host turnos) = length turnos)
      by (rewrite <- (processar_base host turnos) at 2; now rewrite length_map).
    apply lookup_ge_None in Ht.
    rewrite (proj2 (lookup_ge_None _ _)) by lia. reflexivity.
Qed.

Lemma soma_dos_primeiros (w : string) (s : Turno -> Z) (V : string -> Z)
      (l antes : list Turno) :
  (forall t t', t ∈ (antes ++ l)%list -> t' ∈ (antes ++ l)%list ->
                chave t = chave t' ->
                id_da_pessoa_entregadora t = id_da_pessoa_entregadora t') ->
  somaZ (map snd
             (filter (fun p : Turno * Z => id_da_pessoa_entregadora p.1 = w)
                     (imap (fun i t => (t, s t + bonusApos V (antes ++ take i l) t)) l)))
  = somaZ (map s (filter (fun t => id_da_pessoa_entregadora t = w) l))
    + somaZ (map V (filter (fun k => k ∉ map chave antes)
                           (primeiros (map chave
                                           (filter (fun t => id_da_pessoa_entregadora t = w)
                                                   l))))).
Proof.
  revert antes. induction l as [|t l IH]; intros antes Hk; [reflexivity|].
  rewrite imap_cons.
  change ((fun i t0 => (t0, s t0 + bonusApos V (antes ++ take i (t :: l)) t0)) ∘ S)
    with (fun i t0 => (t0, s t0 + bonusApos V (antes ++ take (S i) (t :: l)) t0)).
  assert (Hext : imap (fun i t0 =>
                         (t0, s t0 + bonusApos V (antes ++ take (S i) (t :: l)) t0)) l
                 = imap (fun i t0 => (t0, s t0 + bonusApos V ((antes ++ [t]) ++ take i l) t0))
                        l).
  { apply imap_ext. intros i x _. cbn. now rewrite <- app_assoc. }
  rewrite Hext. clear Hext.
  assert (IH' := IH (antes ++ [t])%list). clear IH.
  rewrite <- app_assoc in IH'. specialize (IH' Hk).
  rewrite !filter_cons. cbn [fst take]. rewrite app_nil_r.
  assert (HG : bonusApos V antes t
               = if decide (chave t ∈ map chave antes) then 0 else V (chave t)).
  { unfold bonusApos.
    destruct (decide (Exists (fun t' => chave t' = chave t) antes)) as [He|He];
      destruct (decide (chave t ∈ map chave antes)) as [Hi|Hi]; try reflexivity.
    - exfalso. apply Hi. apply Exists_exists in He as (t' & Ht' & <-).
      now apply (list_elem_of_fmap_2 chave).
    - exfalso. apply He. apply list_elem_of_fmap in Hi as (t' & E & Ht').
      apply Exists_exists. now exists t'. }
  destruct (decide (id_da_pessoa_entregadora t = w)) as [Hw|Hw].
  - cbn [map primeiros snd]. rewrite filter_cons.
    unfold somaZ in *. cbn [foldr]. rewrite IH', HG. clear IH'.
    rewrite list_filter_filter.
    rewrite (filter_ext_elem (fun k => k ∉ map chave (antes ++ [t]))
                             (fun k => (k ∉ map chave antes) /\ k <> chave t)).
    2:{ intros k _. rewrite map_app, elem_of_app. cbn [map].
        rewrite list_elem_of_singleton. tauto. }
    destruct (decide (chave t ∈ map chave antes)) as [Hi|Hi].
    + rewrite decide_False by tauto. lia.
    + rewrite decide_True by exact Hi. cbn [map foldr]. lia.
  - rewrite IH'. clear IH'. do 3 f_equal.
    apply filter_ext_elem. intros k Hin.
    rewrite map_app, elem_of_app. cbn [map]. rewrite list_elem_of_singleton.
    split; [tauto|]. intros Hn [Ha| ->]; [tauto|].
    apply primeiros_elem in Hin.
    apply list_elem_of_fmap in Hin as (t' & E & Ht').
    apply list_elem_of_filter in Ht' as [Hw' Ht'].
    apply Hw. rewrite <- Hw'. apply Hk; [| |exact E].
    + apply elem_of_app. right. left.
    + apply elem_of_app. right. now right.
Qed.

(** X9: from the imported shifts to the ranking. The date texts are
    written on a calendar day, [YYYY-MM-DD] alone or followed by [T] and a
    time of day, and [quando] gives the day of each shift. A worker of the
    input whose identifier names no member inherited from
    [Object.prototype] has exactly one entry in the ranking, and its
    points are the subtotals of the worker's shifts plus, for each
    calendar day on which the worker has a shift, the daily bonus of the
    deliveries of the worker on that day, counted once. *)
Theorem pontos_do_entregador (turnos : list Turno) (quando : Turno -> Z * Z * Z)
        (w : string) :
  Forall (fun t => escritoEm (quando t) (data_do_periodo t)) turnos ->
  herdado w = false ->
  w ∈ map id_da_pessoa_entregadora turnos ->
  let meus := filter (fun t => id_da_pessoa_entregadora t = w) turnos in
  exists r,
    filter (fun r => Rank.id_da_pessoa_entregadora r = w)
           (calcularRanking (processarTodosOsTurnos host turnos)) = [r]
    /\ Rank.total_pontos r
       = somaZ (map (fun t => total_pontos_turno (calcularPontosTurno host t)) meus)
         + somaZ (map (fun dia =>
                         calcularBonusMetaDiaria
                           (somaZ (map (fun t => default 0 (numero_de_corridas_completadas t))
                                       (filter (fun t => quando t = dia) meus))))
                      (primeiros (map quando meus))).
Proof.
  intros Hesc Hh Hw meus.
  set (finais := processarTodosOsTurnos host turnos).
  assert (Hbase : map turnoBase finais = turnos) by apply processar_base.
  rewrite Forall_forall in Hesc.
  assert (Hdia : forall t, t ∈ turnos ->
                   diaDoTurno t = textoDoDia (quando t)
                   /\ contem "|" (diaDoTurno t) = false).
  { intros t Ht. apply escritoEm_dia. now apply Hesc. }
  destruct (ranking_do_entregador finais w Hh) as (r & Hr & Hp & _).
  { rewrite <- Hbase in Hw. now rewrite map_map in Hw. }
  exists r. split; [exact Hr|]. rewrite Hp. clear r Hr Hp.
  assert (E1 : map total_pontos_final (turnosDe w finais)
               = map snd (filter (fun p : Turno * Z => id_da_pessoa_entregadora p.1 = w)
                                 (map (fun f => (turnoBase f, total_pontos_final f)) finais))).
  { unfold turnosDe. rewrite (filter_map (fun f => (turnoBase f, total_pontos_final f))).
    now rewrite map_map. }
  rewrite E1. unfold finais. rewrite processar_imap.
  pose proof (soma_dos_primeiros w
                (fun t => total_pontos_turno (calcularPontosTurno host t))
                (fun k => calcularBonusMetaDiaria (entregasDaChave turnos k))
                turnos []) as Hs.
  cbn [app map] in Hs. rewrite Hs; clear Hs.
  2:{ intros t t' Ht Ht' E. unfold chave in E.
      apply chave_inj in E as [E _]; [exact E|now apply Hdia..]. }
  fold meus. f_equal.
  rewrite (filter_ext_elem (fun k => k ∉ []) (fun _ => True))
    by (intros k _; split; [tauto | intros _; apply not_elem_of_nil]).
  assert (Htrue : forall l : list string, filter (fun _ => True) l = l).
  { induction l as [|x l IH]; [reflexivity|].
    now rewrite filter_cons_True, IH by exact I. }
  rewrite Htrue.
  assert (Hmeus : forall t, t ∈ meus -> id_da_pessoa_entregadora t = w /\ t ∈ turnos).
  { intros t Ht. now apply list_elem_of_filter in Ht. }
  assert (Hch : map chave meus
                = map (fun dia => w ++ "|" ++ textoDoDia dia) (map quando meus)).
  { rewrite map_map. apply map_ext_in. intros t Ht.
    apply list_elem_of_In, Hmeus in Ht as [Hid Ht]. unfold chave.
    now rewrite Hid, (proj1 (Hdia t Ht)). }
  assert (Hinj : forall t t', t ∈ turnos -> t' ∈ turnos ->
                   textoDoDia (quando t) = textoDoDia (quando t') ->
                   quando t = quando t').
  { intros t t' Ht Ht'. apply (escritoEm_inj _ _ (data_do_periodo t) (data_do_periodo t'));
      now apply Hesc. }
  rewrite Hch, primeiros_map_inj, map_map.
  2:{ intros x y Hx Hy E.
      apply list_elem_of_fmap in Hx as (t & -> & Ht).
      apply list_elem_of_fmap in Hy as (t' & -> & Ht').
      apply Hmeus in Ht as [_ Ht]. apply Hmeus in Ht' as [_ Ht'].
      apply Hinj; [exact Ht | exact Ht' |].
      clear -E. induction w as [|c w IH]; [now injection E|].
      injection E as E. now apply IH. }
  f_equal. apply map_ext_in. intros dia Hin.
  apply list_elem_of_In, primeiros_elem in Hin.
  apply list_elem_of_fmap in Hin as (t0 & -> & Ht0).
  apply Hmeus in Ht0 as [_ Ht0].
  f_equal. unfold entregasDaChave. f_equal. unfold meus.
  rewrite list_filter_filter. f_equal. apply filter_ext_elem.
  intros t Ht. unfold chave. rewrite (proj1 (Hdia t Ht)). split.
  - intros E. apply chave_inj in E as [E1' E2].
    + split; [|exact E1']. now apply Hinj.
    + rewrite <- (proj1 (Hdia t Ht)). now apply Hdia.
    + rewrite <- (proj1 (Hdia t0 Ht0)). now apply Hdia.
  - intros [E ->]. now rewrite E.
Qed.

End WorkerPoints.

(** The two shifts of Christmas day 2024, one dated by the day and one
    with a time of day: 120 + 50 + 50 points for the first, 100 for the
    second, and the bonus of 200 for the 22 deliveries of the day, once. *)
Lemma pontos_do_entregador_witness :
  let quando (_ : Turno) := (2024, 12, 25) in
  Forall (fun t => escritoEm (quando t) (data_do_periodo t)) turnosExemplo
  /\ herdado "e1" = false
  /\ "e1" ∈ map id_da_pessoa_entregadora turnosExemplo
  /\ exists r,
       filter (fun r => Rank.id_da_pessoa_entregadora r = "e1")
              (calcularRanking (processarTodosOsTurnos fusoSaoPaulo turnosExemplo)) = [r]
       /\ Rank.total_pontos r = 120 + 50 + 50 + 100 + 200.
Proof.
  intros quando.
  assert (H1 : Forall (fun t => escritoEm (quando t) (data_do_periodo t)) turnosExemplo).
  { repeat constructor; try (unfold quando; cbn; lia).
    - now exists None.
    - now exists (Some "14:00:00"). }
  assert (H2 : herdado "e1" = false) by reflexivity.
  assert (H3 : "e1" ∈ map id_da_pessoa_entregadora turnosExemplo) by (left).
  split; [exact H1|]. split; [exact H2|]. split; [exact H3|].
  destruct (pontos_do_entregador fusoSaoPaulo turnosExemplo quando "e1" H1 H2 H3)
    as (r & Hr & Hp).
  exists r. split; [exact Hr|]. rewrite Hp. vm_compute. reflexivity.
Defined.

(** ** Date-time texts *)

Module DateTimeFacts.
Import JsDate DateFacts.

Lemma MonthFromTime_Day t1 t2 : Day t1 = Day t2 -> MonthFromTime t1 = MonthFromTime t2.
Proof.
  intros E. unfold MonthFromTime, DayWithinYear, InLeapYear, YearFromTime.
  now rewrite E.
Qed.

Lemma DateFromTime_Day t1 t2 : Day t1 = Day t2 -> DateFromTime t1 = DateFromTime t2.
Proof.
  intros E. unfold DateFromTime. rewrite (MonthFromTime_Day t1 t2 E).
  unfold DayWithinYear, InLeapYear, YearFromTime. now rewrite E.
Qed.

Lemma Day_MakeDate D time : 0 <= time < msPerDay -> Day (MakeDate D time) = D.
Proof.
  intros H. unfold Day, MakeDate, msPerDay in *. Z.div_mod_to_equations. lia.
Qed.

Lemma readColonField_digitos v rest :
  0 <= v <= 59 ->
  readColonField (":"%char :: digitos 2 v ++ rest) = Some (v, rest).
Proof.
  intros Hv. unfold readColonField.
  rewrite readFixed_digitos by (simpl; lia).
  replace (0 * 10 ^ Z.of_nat 2 + v) with v by lia.
  cbn [mbind option_bind]. unfold inRange.
  destruct (Z.leb_spec 0 v); [|lia]. destruct (Z.leb_spec v 59); [|lia].
  reflexivity.
Qed.

Lemma readZone_textoFuso host f t :
  fusoValido host f t ->
  exists zone,
    readZone (textoFuso f) = Some zone
    /\ match zone with
       | ZoneUTC => 0
       | ZoneOffset off => off
       | ZoneLocal => JsDate.LocalTZA host t
       end = desvioDoFuso host f t.
Proof.
  destruct f as [| |adiante h mi]; intros Hf.
  - now exists ZoneUTC.
  - now exists ZoneLocal.
  - destruct Hf as [Hh Hmi].
    exists (ZoneOffset (if adiante then MakeTime h mi 0 0 else - MakeTime h mi 0 0)).
    split; [|reflexivity].
    assert (Hr : forall sign, sign = "+"%char \/ sign = "-"%char ->
              readZone (sign :: digitos 2 h ++ ":"%char :: digitos 2 mi)
              = if Ascii.eqb sign "+" then Some (ZoneOffset (MakeTime h mi 0 0))
                else Some (ZoneOffset (- MakeTime h mi 0 0))).
    { intros sign Hs.
      assert (E : readZone (sign :: digitos 2 h ++ ":"%char :: digitos 2 mi)
                  = '(h', rest') ← readFixed 2 (digitos 2 h ++ ":"%char :: digitos 2 mi) 0;
                    _ ← inRange 0 23 h';
                    '(m', rest'') ← readColonField rest';
                    let off := MakeTime h' m' 0 0 in
                    match rest'' with
                    | [] =>
                        if Ascii.eqb sign "+" then Some (ZoneOffset off)
                        else if Ascii.eqb sign "-" then Some (ZoneOffset (- off))
                        else None
                    | _ => None
                    end).
      { destruct Hs as [-> | ->]; reflexivity. }
      rewrite E. rewrite readFixed_digitos by (simpl; lia).
      replace (0 * 10 ^ Z.of_nat 2 + h) with h by lia.
      cbn [mbind option_bind]. unfold inRange.
      destruct (Z.leb_spec 0 h); [|lia]. destruct (Z.leb_spec h 23); [|lia].
      cbn [andb mbind option_bind].
      rewrite <- (app_nil_r (digitos 2 mi)).
      rewrite readColonField_digitos by lia. cbn [mbind option_bind].
      destruct Hs as [-> | ->]; reflexivity. }
    unfold textoFuso. destruct adiante; rewrite Hr by tauto; reflexivity.
Qed.

Lemma readTime_textoHorario host h mi s f t :
  0 <= h <= 23 -> 0 <= mi <= 59 -> 0 <= s <= 59 -> fusoValido host f t ->
  exists zone,
    readTime (textoHorario h mi s ++ textoFuso f) = Some (MakeTime h mi s 0, zone)
    /\ match zone with
       | ZoneUTC => 0
       | ZoneOffset off => off
       | ZoneLocal => JsDate.LocalTZA host t
       end = desvioDoFuso host f t.
Proof.
  intros Hh Hmi Hs Hf.
  destruct (readZone_textoFuso host f t Hf) as (zone & Hz & Hd).
  exists zone. split; [|exact Hd].
  unfold readTime, textoHorario.
  rewrite <- !app_assoc. rewrite readFixed_digitos by (simpl; lia).
  replace (0 * 10 ^ Z.of_nat 2 + h) with h by lia.
  cbn [mbind option_bind]. unfold inRange at 1.
  destruct (Z.leb_spec 0 h); [|lia]. destruct (Z.leb_spec h 24); [|lia].
  cbn [andb mbind option_bind].
  rewrite <- !app_comm_cons, <- !app_assoc.
  rewrite readColonField_digitos by lia. cbn [mbind option_bind].
  rewrite <- !app_comm_cons.
  rewrite readColonField_digitos by lia. cbn [mbind option_bind].
  assert (Hms : readMillis (textoFuso f) = Some (0, textoFuso f)).
  { destruct f as [| |[] hh mm]; reflexivity. }
  rewrite Hms. cbn [mbind option_bind]. rewrite Hz. cbn [mbind option_bind].
  destruct (Z.eqb_spec h 24); [lia|]. reflexivity.
Qed.

(** The month and the day of the month of any time value within a
    calendar day. *)
Lemma campos_no_dia y m d t :
  dataValida y m d -> Day t = MakeDay y (m - 1) d ->
  MonthFromTime t = m - 1 /\ DateFromTime t = d.
Proof.
  intros Hv HD. destruct (campos_do_dia y m d Hv) as (_ & _ & HM & HDt).
  assert (E : Day t = Day (MakeDate (MakeDay y (m - 1) d) 0)).
  { rewrite HD. symmetry. apply Day_MakeDate. unfold msPerDay. lia. }
  split.
  - now rewrite (MonthFromTime_Day _ _ E).
  - now rewrite (DateFromTime_Day _ _ E).
Qed.

Lemma MakeDay_bounds y m d :
  dataValida y m d -> -720000 <= MakeDay y (m - 1) d <= 2941000.
Proof.
  intros (Hy & Hm & Hd). pose proof (diasNoMes_max y m) as Hmax.
  unfold MakeDay.
  replace ((m - 1) / 12) with 0 by (Z.div_mod_to_equations; lia).
  replace ((m - 1) mod 12) with (m - 1) by (Z.div_mod_to_equations; lia).
  rewrite Z.add_0_r.
  assert (-720000 <= DayFromYear y <= 2940000)
    by (unfold DayFromYear; Z.div_mod_to_equations; lia).
  assert (0 <= monthStart (if DaysInYear y =? 366 then 1 else 0) (m - 1) <= 335).
  { destruct (DaysInYear y =? 366);
      assert (Hm12 : m = 1 \/ m = 2 \/ m = 3 \/ m = 4 \/ m = 5 \/ m = 6 \/ m = 7
                     \/ m = 8 \/ m = 9 \/ m = 10 \/ m = 11 \/ m = 12) by lia;
      repeat (destruct Hm12 as [->|Hm12]; [simpl; lia|]); subst m; simpl; lia. }
  lia.
Qed.

(** The fields of any time value within the day of a calendar date of any
    year. *)
Lemma campos_de_um_dia y m d t :
  1 <= m <= 12 -> 1 <= d <= diasNoMes y m ->
  Day t = MakeDay y (m - 1) d ->
  MonthFromTime t = m - 1 /\ DateFromTime t = d.
Proof.
  intros Hm Hd HD0.
  set (leap := if bissexto y then 1 else 0).
  assert (Hleap : 0 <= leap <= 1) by (unfold leap; destruct (bissexto y); lia).
  assert (Hday : MakeDay y (m - 1) d = DayFromYear y + monthStart leap (m - 1) + d - 1).
  { unfold MakeDay.
    replace ((m - 1) / 12) with 0 by (Z.div_mod_to_equations; lia).
    replace ((m - 1) mod 12) with (m - 1) by (Z.div_mod_to_equations; lia).
    rewrite Z.add_0_r, monthStart_leap. reflexivity. }
  assert (HD : Day t = DayFromYear y + monthStart leap (m - 1) + d - 1) by congruence.
  assert (Hlen : DaysInYear y = 365 + leap).
  { pose proof (monthStart_leap y) as E. fold leap in E.
    pose proof (DaysInYear_bounds y).
    destruct (Z.eqb_spec (DaysInYear y) 366); lia. }
  assert (Hm12 : m = 1 \/ m = 2 \/ m = 3 \/ m = 4 \/ m = 5 \/ m = 6 \/ m = 7
                 \/ m = 8 \/ m = 9 \/ m = 10 \/ m = 11 \/ m = 12) by lia.
  assert (Hwithin : 0 <= monthStart leap (m - 1) + d - 1 < DaysInYear y
                    /\ monthStart leap (m - 1) + d - 1 < monthStart leap m).
  { rewrite Hlen. unfold diasNoMes in Hd. fold leap in Hd.
    repeat (destruct Hm12 as [->|Hm12];
            [simpl in *; unfold leap in *; destruct (bissexto y); lia|]).
    subst m; simpl in *; unfold leap in *; destruct (bissexto y); lia. }
  assert (HY : YearFromTime t = y).
  { unfold YearFromTime. rewrite HD. apply YearFromDay_spec.
    rewrite DayFromYear_succ. lia. }
  assert (HW : DayWithinYear t = monthStart leap (m - 1) + d - 1).
  { unfold DayWithinYear. rewrite HY, HD. lia. }
  assert (HL : InLeapYear t = leap).
  { unfold InLeapYear. rewrite HY. apply monthStart_leap. }
  assert (HM : MonthFromTime t = m - 1).
  { unfold MonthFromTime. rewrite HW, HL.
    destruct Hwithin as [_ Hlt]. unfold diasNoMes in Hd. fold leap in Hd.
    repeat (destruct Hm12 as [->|Hm12];
            [simpl in *;
             repeat match goal with
                    | |- context [?a <? ?b] => destruct (Z.ltb_spec a b); try lia
                    end|]).
    subst m; simpl in *;
      repeat match goal with
             | |- context [?a <? ?b] => destruct (Z.ltb_spec a b); try lia
             end. }
  split; [exact HM|].
  unfold DateFromTime. rewrite HW, HL, HM. lia.
Qed.

Lemma MakeDay_campos y m d :
  1 <= m <= 12 ->
  MakeDay y (m - 1) d
  = DayFromYear y + monthStart (if bissexto y then 1 else 0) (m - 1) + d - 1.
Proof.
  intros Hm. unfold MakeDay.
  replace ((m - 1) / 12) with 0 by (Z.div_mod_to_equations; lia).
  replace ((m - 1) mod 12) with (m - 1) by (Z.div_mod_to_equations; lia).
  rewrite Z.add_0_r, monthStart_leap. reflexivity.
Qed.

Lemma diasNoMes_min y m : 1 <= m <= 12 -> 28 <= diasNoMes y m.
Proof.
  intros Hm.
  assert (Hm12 : m = 1 \/ m = 2 \/ m = 3 \/ m = 4 \/ m = 5 \/ m = 6 \/ m = 7
                 \/ m = 8 \/ m = 9 \/ m = 10 \/ m = 11 \/ m = 12) by lia.
  unfold diasNoMes.
  repeat (destruct Hm12 as [->|Hm12]; [destruct (bissexto y); lia|]).
  subst m. lia.
Qed.

Lemma monthStart_succ y m :
  1 <= m <= 12 ->
  monthStart (if bissexto y then 1 else 0) m
  = monthStart (if bissexto y then 1 else 0) (m - 1) + diasNoMes y m.
Proof.
  intros Hm.
  assert (Hm12 : m = 1 \/ m = 2 \/ m = 3 \/ m = 4 \/ m = 5 \/ m = 6 \/ m = 7
                 \/ m = 8 \/ m = 9 \/ m = 10 \/ m = 11 \/ m = 12) by lia.
  unfold diasNoMes.
  repeat (destruct Hm12 as [->|Hm12]; [destruct (bissexto y); simpl; lia|]).
  subst m. destruct (bissexto y); simpl; lia.
Qed.

Lemma DaysInYear_bissexto y : DaysInYear y = 365 + if bissexto y then 1 else 0.
Proof.
  pose proof (monthStart_leap y) as E. pose proof (DaysInYear_bounds y).
  destruct (Z.eqb_spec (DaysInYear y) 366); lia.
Qed.

(** The day after a calendar date has another day of the month. *)
Lemma dia_seguinte y m d t :
  1 <= m <= 12 -> 1 <= d <= diasNoMes y m ->
  Day t = MakeDay y (m - 1) d + 1 -> DateFromTime t <> d.
Proof.
  intros Hm Hd HD. pose proof (diasNoMes_min y m Hm) as Hmin.
  rewrite MakeDay_campos in HD by exact Hm.
  destruct (Z.eq_dec d (diasNoMes y m)) as [Hult|Hult].
  - destruct (Z.eq_dec m 12) as [->|Hm12].
    + assert (E : Day t = MakeDay (y + 1) (1 - 1) 1).
      { rewrite MakeDay_campos by lia. rewrite DayFromYear_succ, DaysInYear_bissexto.
        rewrite HD, Hult. destruct (bissexto y), (bissexto (y + 1)); simpl; lia. }
      apply campos_de_um_dia in E as [_ E]; [|lia|simpl; lia]. lia.
    + assert (E : Day t = MakeDay y (m + 1 - 1) 1).
      { rewrite MakeDay_campos by lia. replace (m + 1 - 1) with m by lia.
        rewrite monthStart_succ by exact Hm. lia. }
      apply campos_de_um_dia in E as [_ E]; [lia|lia|].
      pose proof (diasNoMes_min y (m + 1)). lia.
  - assert (E : Day t = MakeDay y (m - 1) (d + 1))
      by (rewrite MakeDay_campos by exact Hm; lia).
    apply campos_de_um_dia in E as [_ E]; lia.
Qed.

(** So has the day before. *)
Lemma dia_anterior y m d t :
  1 <= m <= 12 -> 1 <= d <= diasNoMes y m ->
  Day t = MakeDay y (m - 1) d - 1 -> DateFromTime t <> d.
Proof.
  intros Hm Hd HD.
  rewrite MakeDay_campos in HD by exact Hm.
  destruct (Z.eq_dec d 1) as [->|Hprim].
  - destruct (Z.eq_dec m 1) as [->|Hm1].
    + assert (E : Day t = MakeDay (y - 1) (12 - 1) 31).
      { rewrite MakeDay_campos by lia.
        pose proof (DayFromYear_succ (y - 1)) as S.
        replace (y - 1 + 1) with y in S by lia.
        rewrite DaysInYear_bissexto in S.
        rewrite HD. destruct (bissexto y), (bissexto (y - 1)); simpl in *; lia. }
      apply campos_de_um_dia in E as [_ E]; [lia|lia|simpl; lia].
    + assert (E : Day t = MakeDay y (m - 1 - 1) (diasNoMes y (m - 1))).
      { rewrite MakeDay_campos by lia.
        pose proof (monthStart_succ y (m - 1)) as S. rewrite HD, S by lia. lia. }
      pose proof (diasNoMes_min y (m - 1)).
      apply campos_de_um_dia in E as [_ E]; lia.
  - assert (E : Day t = MakeDay y (m - 1) (d - 1))
      by (rewrite MakeDay_campos by exact Hm; lia).
    apply campos_de_um_dia in E as [_ E]; lia.
Qed.

Section ParseDataHora.
Variable host : JsDate.Host.

Lemma parse_data_hora y m d h mi s f :
  let t := MakeDate (MakeDay y (m - 1) d) (MakeTime h mi s 0) in
  dataValida y m d -> 0 <= h <= 23 -> 0 <= mi <= 59 -> 0 <= s <= 59 ->
  fusoValido host f t ->
  parse host (textoDataHora y m d h mi s f)
  = Some (t - desvioDoFuso host f t).
Proof.
  intros t Hv Hh Hmi Hs Hf. pose proof Hv as (Hy & Hm & Hd).
  assert (Hd99 : d <= 31) by (pose proof (diasNoMes_max y m); lia).
  destruct (readTime_textoHorario host h mi s f t Hh Hmi Hs Hf)
    as (zone & Hrt & Hz).
  pose proof (MakeDay_bounds y m d Hv) as Hb.
  assert (Htime : 0 <= MakeTime h mi s 0 < msPerDay)
    by (unfold MakeTime, msPerDay; lia).
  assert (Hdes : - msPerDay < desvioDoFuso host f t < msPerDay).
  { destruct f as [| |adiante hh mm]; cbn [desvioDoFuso fusoValido] in *.
    - unfold msPerDay; lia.
    - exact Hf.
    - unfold MakeTime, msPerDay. destruct adiante; lia. }
  apply DateFacts.parse_no_formato.
  unfold parseDateTimeFormat, textoDataHora, textoData.
  change ("T" ++ string_of_list_ascii (textoHorario h mi s ++ textoFuso f))
    with (String "T" (string_of_list_ascii (textoHorario h mi s ++ textoFuso f))).
  rewrite list_ascii_of_string_app, list_ascii_of_string_of_list_ascii.
  change (list_ascii_of_string (String "T" ?x)) with ("T"%char :: list_ascii_of_string x).
  cbn [list_ascii_of_string]. rewrite list_ascii_of_string_of_list_ascii.
  rewrite <- !app_assoc.
  rewrite readYear_digitos by exact Hy. cbn [mbind option_bind].
  rewrite <- !app_comm_cons, <- !app_assoc.
  rewrite readDashField_digitos by lia. cbn [mbind option_bind].
  rewrite <- !app_comm_cons.
  rewrite readDashField_digitos by lia. cbn [mbind option_bind].
  rewrite Hrt. cbn [mbind option_bind]. fold t.
  assert (Hclip : forall x, - msPerDay <= x <= msPerDay -> TimeClip (t - x) = Some (t - x)).
  { intros x Hx. unfold TimeClip.
    destruct (Z.ltb_spec 8640000000000000 (Z.abs (t - x))) as [Hlt|]; [|reflexivity].
    exfalso. unfold t, MakeDate, msPerDay in *. lia. }
  destruct zone as [|off|]; rewrite <- Hz.
  - rewrite <- (Z.sub_0_r t) at 1. apply Hclip. unfold msPerDay. lia.
  - apply Hclip. lia.
  - apply Hclip. lia.
Qed.

End ParseDataHora.
End DateTimeFacts.

Section DateTime.

Variable host : JsDate.Host.

(** X10: a date-time text [YYYY-MM-DDTHH:mm:ss], in UTC, at an offset or in
    local time, always parses, to the instant it names. The special-date
    check reads the written day of the month exactly when that instant lies
    within the written day in UTC; it then reads the written month too, and
    the special-date bonus of a shift with this date is 50 exactly when the
    online bonus applies and the written day is a special date. *)
Theorem data_hora_no_dia_escrito (y m d h mi s : Z) (f : Fuso) :
  let texto := textoDataHora y m d h mi s f in
  let t := JsDate.MakeDate (JsDate.MakeDay y (m - 1) d) (JsDate.MakeTime h mi s 0) in
  let noDia := JsDate.MakeTime h mi s 0 - desvioDoFuso host f t in
  dataValida y m d -> 0 <= h <= 23 -> 0 <= mi <= 59 -> 0 <= s <= 59 ->
  fusoValido host f t ->
  JsDate.parse host texto = Some (t - desvioDoFuso host f t)
  /\ (JsDate.getUTCDate (JsDate.parse host texto) = Some d
      <-> 0 <= noDia < JsDate.msPerDay)
  /\ (0 <= noDia < JsDate.msPerDay ->
      JsDate.getUTCMonth (JsDate.parse host texto) = Some (m - 1)
      /\ forall turno,
           data_do_periodo turno = texto ->
           (bonus_data_especial (calcularPontosTurno host turno) = 50
            <-> bonus_90_online (calcularPontosTurno host turno) = 50
                /\ natalOuAnoNovo d m)).
Proof.
  intros texto t noDia Hv Hh Hmi Hs Hf.
  pose proof (DateTimeFacts.parse_data_hora host y m d h mi s f Hv Hh Hmi Hs Hf)
    as Hp.
  fold t texto in Hp.
  pose proof Hv as (Hy & Hm & Hd).
  assert (Htime : 0 <= JsDate.MakeTime h mi s 0 < JsDate.msPerDay)
    by (unfold JsDate.MakeTime, JsDate.msPerDay; lia).
  assert (Hdes : - JsDate.msPerDay < desvioDoFuso host f t < JsDate.msPerDay).
  { destruct f as [| |adiante hh mm]; cbn [desvioDoFuso fusoValido] in *.
    - unfold JsDate.msPerDay; lia.
    - exact Hf.
    - unfold JsDate.MakeTime, JsDate.msPerDay. destruct adiante; lia. }
  set (D := JsDate.MakeDay y (m - 1) d) in *.
  assert (HDay : forall k, k * JsDate.msPerDay <= noDia < (k + 1) * JsDate.msPerDay ->
                   JsDate.Day (t - desvioDoFuso host f t) = D + k).
  { intros k Hk. unfold noDia in Hk. unfold t at 1. clear -Hk.
    generalize dependent (desvioDoFuso host f t). intros x Hk.
    generalize dependent (JsDate.MakeTime h mi s 0). intros tm Hk.
    unfold JsDate.Day, JsDate.MakeDate, JsDate.msPerDay in *.
    Z.div_mod_to_equations. lia. }
  assert (Hin : 0 <= noDia < JsDate.msPerDay ->
                JsDate.MonthFromTime (t - desvioDoFuso host f t) = m - 1
                /\ JsDate.DateFromTime (t - desvioDoFuso host f t) = d).
  { intros Hn. apply (DateTimeFacts.campos_no_dia y m d); [exact Hv|].
    rewrite (HDay 0) by lia. fold D. lia. }
  split; [exact Hp|]. rewrite Hp. cbn [JsDate.getUTCDate JsDate.getUTCMonth fmap option_fmap option_map].
  split; [split|].
  - intros [= HD].
    destruct (Z_lt_dec noDia 0) as [Hneg|Hpos].
    + exfalso. revert HD. apply (DateTimeFacts.dia_anterior y m d); [lia|lia|].
      rewrite (HDay (-1)); [fold D; lia|]. unfold noDia, JsDate.msPerDay in *. lia.
    + destruct (Z_lt_dec noDia JsDate.msPerDay) as [Hlt|Hge]; [lia|].
      exfalso. revert HD. apply (DateTimeFacts.dia_seguinte y m d); [lia|lia|].
      rewrite (HDay 1); [fold D; lia|]. unfold noDia, JsDate.msPerDay in *. lia.
  - intros Hn. now rewrite (proj2 (Hin Hn)).
  - intros Hn. destruct (Hin Hn) as [HM HD]. split; [now rewrite HM|].
    intros turno Ht. rewrite bonus_data_especial_eq, bonus_90_online_eq.
    rewrite Ht. fold texto. rewrite Hp.
    assert (He : isDataEspecial (Some (t - desvioDoFuso host f t)) = true
                 <-> natalOuAnoNovo d m).
    { rewrite isDataEspecial_spec. unfold dataEspecialUTC.
      cbn [JsDate.getUTCDate JsDate.getUTCMonth fmap option_fmap option_map].
      rewrite HM, HD. split.
      - intros (dia & mes & [= <-] & [= Hmes] & Hn'). now replace m with mes by lia.
      - intros Hn'. now exists d, m. }
    destruct (PrimFloat.leb 90 (percentualDoTurno turno)); cbn [andb].
    + destruct (isDataEspecial (Some (t - desvioDoFuso host f t))).
      * split; [intros _; split; [reflexivity | now apply He] | reflexivity].
      * split; [discriminate|]. intros [_ Hn']. apply He in Hn'. discriminate Hn'.
    + split; [discriminate|]. intros [H0 _]. discriminate H0.
Qed.

End DateTime.

Lemma data_hora_no_dia_escrito_witness :
  JsDate.parse fusoSaoPaulo (textoDataHora 2024 12 25 22 0 0 (FusoDesvio false 3 0))
  = Some 1735174800000
  /\ (JsDate.getUTCDate
        (JsDate.parse fusoSaoPaulo (textoDataHora 2024 12 25 22 0 0 (FusoDesvio false 3 0)))
      = Some 25
      <-> 0 <= 90000000 < JsDate.msPerDay).
Proof.
  pose proof (data_hora_no_dia_escrito fusoSaoPaulo 2024 12 25 22 0 0
                (FusoDesvio false 3 0)) as H.
  cbv zeta in H.
  destruct H as (Hp & Hd & _).
  - repeat split; vm_compute; congruence.
  - lia.
  - lia.
  - lia.
  - simpl. lia.
  - split; [exact Hp | exact Hd].
Defined.

(** ** Text after the number of a field *)

Lemma naoContinua_semDigito proibidos r :
  naoContinua proibidos r = true -> semDigitoInicial (list_ascii_of_string r).
Proof.
  destruct r as [|c r]; [intros _; exact I|].
  simpl. intros H. apply andb_true_iff in H as [H _]. now apply negb_true_iff in H.
Qed.

(** [parseInt] reads the leading decimal numeral of a text and ignores
    what follows it, unless that makes the text a hexadecimal literal. *)
Lemma parseInt_prefixo s r :
  soDigitos s = true -> naoContinua ["x"; "X"]%char r = true ->
  parseInt (s ++ r) = ofZ (valorDecimal s).
Proof.
  intros H Hr. destruct (soDigitos_lista s H) as (c & l & Hs & Hc & Hl).
  pose proof (naoContinua_semDigito _ _ Hr) as Hsem.
  unfold parseInt, valorDecimal. rewrite list_ascii_of_string_app, Hs.
  cbn [app trimStart]. rewrite (isWhiteSpace_digito c Hc), (readSign_digito c _ Hc).
  assert (Hbody : match c :: l ++ list_ascii_of_string r with
                  | "0"%char :: "x"%char :: rest => (16, rest)
                  | "0"%char :: "X"%char :: rest => (16, rest)
                  | _ => (10, c :: l ++ list_ascii_of_string r)
                  end = (10, (c :: l ++ list_ascii_of_string r)%list)).
  { destruct l as [|c' l'].
    - destruct r as [|c' r']; [now destruct c as [[] [] [] [] [] [] [] []]|].
      cbn [app list_ascii_of_string]. simpl in Hr.
      apply andb_true_iff in Hr as [_ Hx]. apply negb_true_iff in Hx.
      apply orb_false_iff in Hx as [Hx1 Hx2].
      apply orb_false_iff in Hx2 as [Hx2 _].
      apply Ascii.eqb_neq in Hx1, Hx2.
      destruct c as [[] [] [] [] [] [] [] []]; try reflexivity.
      destruct c' as [[] [] [] [] [] [] [] []]; try reflexivity; congruence.
    - simpl in Hl. apply andb_true_iff in Hl as [Hc' _].
      apply ehDigito_casos in Hc'. simpl in Hc'. cbn [app].
      repeat (destruct Hc' as [<-|Hc'];
              [now destruct c as [[] [] [] [] [] [] [] []]|]).
      contradiction. }
  rewrite Hbody.
  assert (Hall : forallb ehDigito (c :: l) = true) by (simpl; now rewrite Hc, Hl).
  rewrite app_comm_cons.
  rewrite (readDigits_digitos (c :: l) _ 0 0 Hall Hsem).
  cbn [List.length]. destruct (Z.eqb_spec (0 + Z.of_nat (S (List.length l))) 0); [lia|].
  reflexivity.
Qed.

Lemma readExponent_naoContinua r :
  naoContinua ["."; "e"; "E"]%char r = true ->
  readExponent (list_ascii_of_string r) = 0.
Proof.
  destruct r as [|c r]; [reflexivity|].
  simpl. intros H. apply andb_true_iff in H as [_ H]. apply negb_true_iff in H.
  apply orb_false_iff in H as [_ H]. apply orb_false_iff in H as [He H].
  apply orb_false_iff in H as [HE _]. now rewrite He, HE.
Qed.

(** [parseFloat] reads the leading decimal numeral of a text, with its
    fraction, and ignores what follows it. *)
Lemma parseFloat_prefixo ip (fp : option string) r :
  soDigitos ip = true ->
  from_option (fun f => forallb ehDigito (list_ascii_of_string f)) true fp = true ->
  naoContinua ["."; "e"; "E"]%char r = true ->
  parseFloat ((ip ++ from_option (fun f => "." ++ f) "" fp) ++ r)
  = ofDecimal (valorDecimal (ip ++ default "" fp))
              (- Z.of_nat (String.length (default "" fp))).
Proof.
  intros H Hfp Hr. destruct (soDigitos_lista ip H) as (c & l & Hs & Hc & Hl).
  pose proof (naoContinua_semDigito _ _ Hr) as Hsem.
  pose proof (readExponent_naoContinua r Hr) as Hexp.
  assert (Hall : forallb ehDigito (c :: l) = true) by (simpl; now rewrite Hc, Hl).
  unfold parseFloat, valorDecimal. rewrite !list_ascii_of_string_app, Hs.
  cbn [app trimStart]. rewrite (isWhiteSpace_digito c Hc), (readSign_digito c _ Hc).
  rewrite startsWith_Infinity_digito by exact Hc.
  destruct fp as [f|]; cbn [from_option default] in *.
  - change (list_ascii_of_string ("." ++ f)) with ("."%char :: list_ascii_of_string f).
    unfold id. rewrite <- !app_assoc, !app_comm_cons.
    rewrite (readDigits_digitos (c :: l) _ 0 0 Hall) by reflexivity.
    rewrite <- app_comm_cons.
    pose proof (readDigits_digitos (list_ascii_of_string f) _
                  (valorDeDigitos (c :: l)) 0 Hfp Hsem) as Hrd.
    unfold valorDeDigitos at 1 in Hrd. rewrite Hrd, Hexp.
    cbn [List.length].
    destruct (Z.eqb_spec (0 + Z.of_nat (S (List.length l))
                          + (0 + Z.of_nat (List.length (list_ascii_of_string f)))) 0); [lia|].
    cbn [withSign]. unfold valorDeDigitos. rewrite fold_left_app.
    f_equal. rewrite <- (string_of_list_ascii_of_string f) at 2.
    clear. generalize (list_ascii_of_string f) as lf. intros lf.
    assert (Hlen : String.length (string_of_list_ascii lf) = List.length lf).
    { induction lf as [|x lf IH]; [reflexivity|]. simpl. now rewrite IH. }
    rewrite Hlen. lia.
  - change (list_ascii_of_string "") with (@nil ascii). rewrite !app_nil_r.
    rewrite !app_comm_cons.
    assert (Hponto : match list_ascii_of_string r with
                     | "."%char :: rest => readDigits 10 rest (valorDeDigitos (c :: l)) 0
                     | _ => (valorDeDigitos (c :: l), 0, list_ascii_of_string r)
                     end = (valorDeDigitos (c :: l), 0, list_ascii_of_string r)).
    { destruct r as [|c' r']; [reflexivity|]. simpl in Hr.
      apply andb_true_iff in Hr as [_ Hx]. apply negb_true_iff in Hx.
      apply orb_false_iff in Hx as [Hx _]. apply Ascii.eqb_neq in Hx.
      cbn [list_ascii_of_string].
      destruct c' as [[] [] [] [] [] [] [] []]; try reflexivity. congruence. }
    rewrite (readDigits_digitos (c :: l) _ 0 0 Hall Hsem).
    unfold valorDeDigitos in Hponto. rewrite Hponto, Hexp.
    cbn [List.length].
    destruct (Z.eqb_spec (0 + Z.of_nat (S (List.length l)) + 0) 0); [lia|].
    reflexivity.
Qed.

(** X11: in a duration, what follows the number of a field is ignored:
    the fields count by their leading digits (the seconds with their
    fraction) whatever text comes after them, as long as that text holds no
    colon and does not continue the number (no digit; no [x] after the
    hours or minutes, which could make them hexadecimal; no point or
    exponent mark after the seconds). *)
Theorem durationToSeconds_ignora_resto
        (hh mm ss : string) (fracao : option string) (rh rm rs : string) :
  soDigitos hh = true -> soDigitos mm = true -> soDigitos ss = true ->
  from_option (fun f => forallb ehDigito (list_ascii_of_string f)) true fracao = true ->
  naoContinua ["x"; "X"]%char rh = true -> contem ":" rh = false ->
  naoContinua ["x"; "X"]%char rm = true -> contem ":" rm = false ->
  naoContinua ["."; "e"; "E"]%char rs = true -> contem ":" rs = false ->
  durationToSeconds
    (Str ((hh ++ rh) ++ ":" ++ (mm ++ rm) ++ ":"
          ++ (ss ++ from_option (fun f => "." ++ f) "" fracao) ++ rs))
  = (ofZ (valorDecimal hh) * 3600 + ofZ (valorDecimal mm) * 60
     + ofDecimal (valorDecimal (ss ++ default "" fracao))
                 (- Z.of_nat (String.length (default "" fracao))))%float.
Proof.
  intros Hh Hm Hs Hf Hrh Hch Hrm Hcm Hrs Hcs.
  assert (Hc : forall s, soDigitos s = true -> contem ":" s = false)
    by (intros s; now apply soDigitos_contem).
  rewrite durationToSeconds_campos.
  - rewrite (parseInt_prefixo hh rh Hh Hrh), (parseInt_prefixo mm rm Hm Hrm).
    rewrite (parseFloat_prefixo ss fracao rs Hs Hf Hrs).
    rewrite !orZero_ofZ, orZero_ofDecimal; [reflexivity| |].
    + now apply valorDecimal_nonneg.
    + now apply valorDecimal_nonneg.
  - now rewrite contem_app, (Hc hh Hh), Hch.
  - now rewrite contem_app, (Hc mm Hm), Hcm.
  - rewrite !contem_app, (Hc ss Hs), Hcs, orb_false_r.
    destruct fracao as [f|]; [|reflexivity].
    cbn [from_option] in *. simpl. rewrite contem_lista.
    now apply digitos_sem_separador.
Qed.

Lemma durationToSeconds_ignora_resto_witness :
  durationToSeconds (Str "8h:30min:15.5s") = 30615.5%float.
Proof.
  apply (durationToSeconds_ignora_resto "8" "30" "15" (Some "5") "h" "min" "s");
    reflexivity.
Defined.

(** ** Properties of the client of the data store *)

Section ClientFacts.

Import SupabaseClient.

Context {Linha Registro Erro Cliente Loja : Type}.

Variable executa :
  Cliente -> Consulta Registro -> Loja -> Desfecho Linha Erro * Loja.

Abbreviation Mundo := (SupabaseClient.Mundo Linha Registro Erro Cliente Loja).
Abbreviation M := (SupabaseClient.M Linha Registro Erro Cliente Loja).

Lemma envia_retornar {A} (a : A) (Q : A -> Prop) :
  Q a -> envia (retornar a : M A) [] Q.
Proof.
  intros HQ w c Hc. exists []. cbn. rewrite app_nil_r. repeat split; auto.
Qed.

Lemma envia_vincular {A B} (m : M A) (k : A -> M B) qs1 qs2 Q1 Q2 :
  envia m qs1 Q1 -> (forall a, Q1 a -> envia (k a) qs2 Q2) ->
  envia (vincular m k) (qs1 ++ qs2) Q2.
Proof.
  intros Hm Hk w c Hc. destruct (Hm w c Hc) as (p1 & Hs1 & Hp1 & Hc1).
  unfold vincular. destruct (m w) as [[a|e|] w1]; cbn [fst snd] in *.
  - destruct Hc1 as (Ha & Hq1 & Hok1).
    destruct (Hk a Ha w1 c Hs1) as (p2 & Hs2 & Hp2 & Hc2).
    exists (p1 ++ p2)%list. split; [exact Hs2|]. split.
    { rewrite Hp2, Hp1. now rewrite app_assoc. }
    destruct (k a w1) as [[b|e|] w2]; cbn [fst snd cumpre] in *.
    + destruct Hc2 as (Hb & Hq2 & Hok2). split; [exact Hb|]. split.
      * now rewrite map_app, Hq1, Hq2.
      * now apply Forall_app.
    + destruct Hc2 as (p0 & qd & -> & Hok0 & Hf & Hpre).
      exists (p1 ++ p0)%list, qd. split; [now rewrite app_assoc|].
      split; [now apply Forall_app|]. split; [exact Hf|].
      rewrite map_app, Hq1. now apply prefix_app.
    + exact Hc2.
  - exists p1. split; [exact Hs1|]. split; [exact Hp1|].
    cbn [cumpre] in *. destruct Hc1 as (p0 & qd & -> & Hok0 & Hf & Hpre).
    exists p0, qd. repeat split; auto. now apply prefix_app_r.
  - destruct Hc1.
Qed.

Lemma envia_tentar {A} (m : M A) qs Q :
  envia m qs Q -> envia (tentar m (fun e => lancar e)) qs Q.
Proof.
  intros Hm w c Hc. destruct (Hm w c Hc) as (p & Hs & Hp & Hcu).
  exists p. unfold tentar. destruct (m w) as [[a|e|] w1]; cbn [fst snd] in *; auto.
Qed.

Lemma envia_consequencia {A} (m : M A) qs (Q Q' : A -> Prop) :
  envia m qs Q -> (forall a, Q a -> Q' a) -> envia m qs Q'.
Proof.
  intros Hm HQ w c Hc. destruct (Hm w c Hc) as (p & Hs & Hp & Hcu).
  exists p. split; [exact Hs|]. split; [exact Hp|].
  destruct (m w).1; cbn [cumpre] in *; [|exact Hcu..].
  destruct Hcu as (Ha & Hr). split; auto.
Qed.

(** One query whose response is checked. *)
Lemma envia_consulta {A} (q : Consulta Registro) (f : Resposta Linha Erro -> A) :
  (forall t, q <> DeleteAll t) ->
  envia (vincular (consultar executa q)
                  (fun r => vincular (seErroLancar r) (fun _ => retornar (f r))))
        [q] (fun a => exists r, a = f r).
Proof.
  intros Hq w c Hc.
  unfold vincular, consultar, seErroLancar, retornar, lancar.
  rewrite Hc. destruct (executa c q (loja w)) as [d s'] eqn:E.
  exists [(q, d)]. destruct d as [r|e]; cbn [fst snd].
  - destruct (error r) as [e|] eqn:Er; cbn [fst snd supabase chamadas cumpre].
    + split; [first [exact Hc | reflexivity]|]. split; [reflexivity|].
      exists [], (q, Resolvido r). repeat split; auto.
      destruct q; cbn; rewrite ?Er; try reflexivity. now contradiction (Hq tabela).
    + split; [first [exact Hc | reflexivity]|]. split; [reflexivity|].
      split; [now exists r|]. split; [reflexivity|].
      constructor; [|constructor].
      destruct q; cbn; rewrite ?Er; reflexivity.
  - cbn [supabase chamadas cumpre]. split; [first [exact Hc | reflexivity]|]. split; [reflexivity|].
    exists [], (q, Rejeitado e). repeat split; auto. now destruct q.
Qed.

(** A deletion, whose response is not looked at. *)
Lemma envia_delete (tabela : string) :
  envia (consultar executa (DeleteAll tabela)) [DeleteAll tabela]
        (fun _ => True).
Proof.
  intros w c Hc. unfold consultar. rewrite Hc.
  destruct (executa c (DeleteAll tabela) (loja w)) as [d s'] eqn:E.
  exists [(DeleteAll tabela, d)]. destruct d as [r|e]; cbn [fst snd supabase chamadas cumpre].
  - repeat split; auto.
  - split; [first [exact Hc | reflexivity]|]. split; [reflexivity|].
    exists [], (DeleteAll tabela, Rejeitado e). repeat split; auto.
Qed.

Lemma envia_inserirTurnos (turnos : list Registro) :
  envia (inserirTurnos executa turnos) [TurnosInsert turnos] (fun _ => True).
Proof.
  unfold inserirTurnos. apply envia_tentar.
  eapply envia_consequencia; [apply envia_consulta; discriminate|]. auto.
Qed.

Lemma envia_recalcularRanking :
  envia (recalcularRanking executa) [Rpc "recalcular_ranking"] (fun _ => True).
Proof.
  unfold recalcularRanking. apply envia_tentar.
  eapply envia_consequencia; [apply envia_consulta; discriminate|]. auto.
Qed.

Lemma envia_limparTodosDados :
  envia (limparTodosDados executa)
        [DeleteAll "ranking_entregadores"; DeleteAll "turnos_entregadores"]
        (fun _ => True).
Proof.
  unfold limparTodosDados. apply envia_tentar.
  apply (envia_vincular _ _ [_] [_] (fun _ => True)); [apply envia_delete|].
  intros _ _.
  apply (envia_vincular _ _ [_] [] (fun _ => True)); [apply envia_delete|].
  intros _ _. now apply envia_retornar.
Qed.

Lemma envia_inserirLotes voltas (turnos : list Registro) i :
  (length turnos - i <= voltas)%nat ->
  envia (inserirLotes executa voltas turnos i)
        (map TurnosInsert (lotesAte voltas 500 (drop i turnos)))
        (fun _ => True).
Proof.
  revert i. induction voltas as [|voltas IH]; intros i Hv.
  - cbn [inserirLotes]. destruct (Nat.ltb_spec i (length turnos)); [lia|].
    cbn [lotesAte map]. now apply envia_retornar.
  - cbn [inserirLotes]. destruct (Nat.ltb_spec i (length turnos)) as [Hlt|Hge].
    + assert (Hd : exists x l', drop i turnos = x :: l').
      { destruct (drop i turnos) as [|x l'] eqn:E; [|now eauto].
        apply (f_equal length) in E. rewrite length_drop in E. simpl in E. lia. }
      destruct Hd as (x & l' & Hd). cbn [lotesAte]. rewrite Hd, <- Hd.
      cbn [map].
      apply (envia_vincular _ _ [_] _ (fun _ => True)).
      * unfold slice. replace (i + 500 - i)%nat with 500%nat by lia.
        apply envia_inserirTurnos.
      * intros _ _. rewrite drop_drop. apply IH. lia.
    + rewrite drop_ge by lia. cbn [lotesAte map]. now apply envia_retornar.
Qed.

Lemma envia_uploadCompleto (turnos : list Registro) :
  envia (uploadCompleto executa turnos) (plano turnos)
        (fun a => a = {| Upload.success := true;
                         Upload.turnosInseridos := length turnos |}).
Proof.
  unfold uploadCompleto, plano. apply envia_tentar.
  apply (envia_vincular _ _ [_; _] _ (fun _ => True)); [apply envia_limparTodosDados|].
  intros _ _.
  apply (envia_vincular _ _ _ [_] (fun _ => True)).
  { pose proof (envia_inserirLotes (length turnos) turnos 0) as H.
    rewrite drop_0 in H. apply H. lia. }
  intros _ _.
  rewrite <- (app_nil_r [Rpc "recalcular_ranking"]).
  apply (envia_vincular _ _ [_] [] (fun _ => True)); [apply envia_recalcularRanking|].
  intros _ _. now apply envia_retornar.
Qed.

(** The batches are the input cut every [n] elements. *)
Lemma lotes_concat n (l : list Registro) :
  (0 < n)%nat -> concat (lotes n l) = l.
Proof.
  intros Hn. unfold lotes.
  assert (H : forall voltas (l : list Registro), (length l <= voltas)%nat ->
                               concat (lotesAte voltas n l) = l).
  { clear l. induction voltas as [|voltas IH]; intros l Hl.
    - destruct l; [reflexivity | simpl in Hl; lia].
    - destruct l as [|x l]; [reflexivity|].
      cbn [lotesAte concat]. rewrite IH, take_drop; [reflexivity|].
      rewrite length_drop. simpl in *. lia. }
  now apply H.
Qed.

Lemma lotes_tamanho n (l : list Registro) :
  (0 < n)%nat ->
  Forall (fun b => (0 < length b <= n)%nat) (lotes n l)
  /\ Forall (fun b => length b = n) (removelast (lotes n l)).
Proof.
  intros Hn. unfold lotes.
  assert (H : forall voltas (l : list Registro), (length l <= voltas)%nat ->
             Forall (fun b => (0 < length b <= n)%nat) (lotesAte voltas n l)
             /\ Forall (fun b => length b = n) (removelast (lotesAte voltas n l))).
  { clear l. induction voltas as [|voltas IH]; intros l Hl.
    - destruct l; simpl; split; constructor.
    - destruct l as [|x l]; [simpl; split; constructor|].
      assert (Hd : (length (drop n (x :: l)) <= voltas)%nat)
        by (rewrite length_drop; simpl in *; lia).
      destruct (IH _ Hd) as [IH1 IH2].
      cbn [lotesAte]. split.
      + constructor; [|exact IH1]. rewrite length_take. simpl. lia.
      + destruct (lotesAte voltas n (drop n (x :: l))) as [|b bs] eqn:E.
        * simpl. constructor.
        * change (removelast (take n (x :: l) :: b :: bs))
            with (take n (x :: l) :: removelast (b :: bs)).
          constructor; [|exact IH2].
          rewrite length_take. 
          assert (Hnn : drop n (x :: l) <> []).
          { intros E0. rewrite E0 in E. destruct voltas; discriminate E. }
          assert (n < length (x :: l))%nat; [|lia].
          destruct (Nat.lt_ge_cases n (length (x :: l))) as [|Hge]; [assumption|].
          exfalso. apply Hnn. now apply drop_ge. }
  now apply H.
Qed.

(** X12: with a client, [uploadCompleto] sends the two deletions, the
    input in batches of 500 in order, and the recomputation of the ranking
    last, and stops at the first query that fails, throwing its error: an
    insertion or the recomputation that is rejected or answers with an
    error, or a deletion that is rejected. An error in the answer of a
    deletion does not stop it. It returns, with the number of shifts, only
    after the whole plan succeeded. *)
Theorem uploadCompleto_plano (turnos : list Registro)
        (w : SupabaseClient.Mundo Linha Registro Erro Cliente Loja) (c : Cliente) :
  supabase w = Some c ->
  exists p,
    chamadas (uploadCompleto executa turnos w).2 = (chamadas w ++ p)%list
    /\ match (uploadCompleto executa turnos w).1 with
       | Retorna a =>
           a = {| Upload.success := true; Upload.turnosInseridos := length turnos |}
           /\ map fst p = plano turnos
           /\ Forall (fun qd => falha qd = None) p
       | Lanca e =>
           exists p0 qd,
             p = (p0 ++ [qd])%list
             /\ Forall (fun qd => falha qd = None) p0
             /\ falha qd = Some e
             /\ map fst p `prefix_of` plano turnos
       | Esgotado => False
       end
    /\ concat (lotes 500 turnos) = turnos
    /\ Forall (fun b => (0 < length b <= 500)%nat) (lotes 500 turnos)
    /\ Forall (fun b => length b = 500%nat) (removelast (lotes 500 turnos)).
Proof.
  intros Hc. destruct (envia_uploadCompleto turnos w c Hc) as (p & _ & Hp & Hcu).
  exists p. split; [exact Hp|]. split; [exact Hcu|].
  split; [apply lotes_concat; lia|]. apply lotes_tamanho. lia.
Qed.

End ClientFacts.

Section ClientPagination.

Import SupabaseClient.

Context {Linha Registro Erro Cliente Loja : Type}.

Variable executa :
  Cliente -> Consulta Registro -> Loja -> Desfecho Linha Erro * Loja.

Abbreviation Mundo := (SupabaseClient.Mundo Linha Registro Erro Cliente Loja).

Lemma paginar_parado voltas totalLimit (todos : list Linha) from (w : Mundo) :
  paginar executa voltas totalLimit todos from false w = (Retorna todos, w).
Proof. now destruct voltas. Qed.

Lemma paginar_geral voltas totalLimit (todos : list Linha) (k : nat)
      (w : SupabaseClient.Mundo Linha Registro Erro Cliente Loja) c :
  supabase w = Some c ->
  totalLimit - Z.of_nat (length todos) <= 1000 * Z.of_nat voltas ->
  exists p,
    supabase (paginar executa voltas totalLimit todos (Z.of_nat (1000 * k)) true w).2
    = Some c
    /\ chamadas (paginar executa voltas totalLimit todos (Z.of_nat (1000 * k)) true w).2
       = (chamadas w ++ p)%list
    /\ map fst p = map pagina (seq k (length p))
    /\ (p <> [] -> 1000 * (Z.of_nat (length p) - 1)
                   < totalLimit - Z.of_nat (length todos))
    /\ (Z.of_nat (length todos) < totalLimit -> p <> [])
    /\ match (paginar executa voltas totalLimit todos (Z.of_nat (1000 * k)) true w).1 with
       | Retorna rows =>
           Forall (fun qd => falha qd = None) p
           /\ rows = (todos ++ concat (map linhasDe p))%list
       | Lanca e =>
           exists p0 qd,
             p = (p0 ++ [qd])%list
             /\ Forall (fun qd => falha qd = None) p0
             /\ falha qd = Some e
       | Esgotado => False
       end.
Proof.
  revert todos k w. induction voltas as [|voltas IH]; intros todos k w Hc Hv.
  - cbn [paginar andb].
    destruct (Z.ltb_spec (Z.of_nat (length todos)) totalLimit) as [Hlt|Hge]; [lia|].
    exists []. cbn. rewrite !app_nil_r. repeat split; auto; try congruence. lia.
  - cbn [paginar andb].
    destruct (Z.ltb_spec (Z.of_nat (length todos)) totalLimit) as [Hlt|Hge].
    2:{ exists []. cbn. rewrite !app_nil_r. repeat split; auto; try congruence. lia. }
    unfold mbind, M_bind, vincular, consultar. rewrite Hc.
    fold (@pagina Registro k).
    destruct (executa c (@pagina Registro k) (loja w)) as [d s'] eqn:E.
    set (w' := {| supabase := Some c; loja := s';
                  chamadas := (chamadas w ++ [(@pagina Registro k, d)])%list |}).
    destruct d as [r|e].
    + unfold seErroLancar. destruct (error r) as [e|] eqn:Er.
      * exists [(@pagina Registro k, Resolvido r)]. cbn [lancar fst snd supabase chamadas].
        repeat split; auto; try congruence; try (cbn; lia).
        exists [], (@pagina Registro k, Resolvido r). repeat split; auto.
        cbn. now rewrite Er.
      * cbn [retornar].
        assert (Hok : falha (@pagina Registro k, Resolvido r) = None)
          by (cbn; now rewrite Er).
        destruct (data r) as [[|x linhas]|] eqn:Ed.
        -- rewrite paginar_parado. exists [(@pagina Registro k, Resolvido r)].
           cbn [fst snd supabase chamadas].
           repeat split; auto; try congruence; try (cbn; lia).
           cbn. rewrite Ed. cbn. now rewrite app_nil_r.
        -- destruct (Z.ltb_spec (Z.of_nat (length (x :: linhas))) 1000) as [Hs|Hf];
             cbn [negb].
           ++ rewrite paginar_parado. exists [(@pagina Registro k, Resolvido r)].
              cbn [fst snd supabase chamadas].
              repeat split; auto; try congruence; try (cbn; lia).
              cbn. rewrite Ed. cbn. now rewrite app_nil_r.
           ++ replace (Z.of_nat (1000 * k) + 1000) with (Z.of_nat (1000 * S k)) by lia.
              destruct (IH (todos ++ x :: linhas)%list (S k) w' eq_refl)
                as (p & Hs & Hp & Hq & Hn & Hne & Hres).
              { rewrite length_app. lia. }
              exists ((@pagina Registro k, Resolvido r) :: p). split; [exact Hs|].
              split; [rewrite Hp; unfold w'; cbn [chamadas];
                      now rewrite <- app_assoc|].
              split; [cbn [map fst length seq]; now rewrite Hq|].
              split.
              { intros _. rewrite length_app in Hn. cbn [length] in *.
                destruct p as [|qd p']; [cbn; lia|].
                specialize (Hn ltac:(discriminate)). cbn [length] in *. lia. }
              split; [discriminate|].
              destruct (paginar executa voltas totalLimit (todos ++ x :: linhas)
                                (Z.of_nat (1000 * S k)) true w').1 as [rows|e|].
              ** destruct Hres as [Hall ->]. split; [now constructor|].
                 cbn [map concat]. unfold linhasDe at 2. cbn [snd]. rewrite Ed.
                 cbn [default]. unfold id. now rewrite <- app_assoc.
              ** destruct Hres as (p0 & qd & -> & Hall & Hf').
                 exists ((@pagina Registro k, Resolvido r) :: p0), qd.
                 repeat split; auto.
              ** exact Hres.
        -- rewrite paginar_parado. exists [(@pagina Registro k, Resolvido r)].
           cbn [fst snd supabase chamadas].
           repeat split; auto; try congruence; try (cbn; lia).
           cbn. rewrite Ed. cbn. now rewrite app_nil_r.
    + exists [(@pagina Registro k, Rejeitado e)]. cbn [fst snd supabase chamadas].
      repeat split; auto; try congruence; try (cbn; lia).
      exists [], (@pagina Registro k, Rejeitado e). repeat split; auto.
Qed.

Lemma limite_paginado (limit : Limite) :
  buscaPaginada limit ->
  let lim := match limit with
             | Omitido => Some 1000
             | Nulo => None
             | Numero n => Some n
             end in
  let verdadeiro := match lim with Some n => negb (n =? 0) | None => false end in
  let n := default 0 lim in
  let totalLimit := if verdadeiro then n else 1000000 in
  totalLimit = limiteEfetivo limit /\ 0 < totalLimit
  /\ verdadeiro && (n <=? 1000) = false.
Proof.
  destruct limit as [| |x]; cbn; [contradiction|intros _; repeat split; lia|].
  intros Hx. destruct (Z.eqb_spec x 0); cbn; [repeat split; lia|].
  destruct (Z.leb_spec x 1000); [lia|]. repeat split; lia.
Qed.

Lemma corte_final (limit : Limite) (todos : list Linha)
      (w : SupabaseClient.Mundo Linha Registro Erro Cliente Loja) :
  buscaPaginada limit ->
  let lim := match limit with
             | Omitido => Some 1000
             | Nulo => None
             | Numero n => Some n
             end in
  let verdadeiro := match lim with Some n => negb (n =? 0) | None => false end in
  let n := default 0 lim in
  (if verdadeiro && (n <? Z.of_nat (length todos))
   then retornar (take (Z.to_nat n) todos)
   else retornar todos) w
  = (Retorna match limit with
             | Numero n => if n =? 0 then todos else take (Z.to_nat n) todos
             | _ => todos
             end, w).
Proof.
  intros Hpag. destruct limit as [| |x]; cbn; [contradiction|reflexivity|].
  destruct (Z.eqb_spec x 0); cbn [negb andb]; [reflexivity|].
  destruct (Z.ltb_spec x (Z.of_nat (length todos))); cbn [retornar]; [reflexivity|].
  rewrite take_ge by lia. reflexivity.
Qed.

(** X13: whatever the store answers, a paged search asks for the pages of
    1000 rows in order from the first, at least one and no more than the
    limit needs, and stops at the first query that fails, throwing its
    error. When it returns, it returns the rows of the answers in order,
    cut to the limit when a limit above 1000 was given. *)
Theorem buscarRanking_paginas (limit : Limite)
        (w : SupabaseClient.Mundo Linha Registro Erro Cliente Loja) (c : Cliente) :
  supabase w = Some c -> buscaPaginada limit ->
  exists p,
    chamadas (buscarRanking executa limit w).2 = (chamadas w ++ p)%list
    /\ map fst p = map pagina (seq 0 (length p))
    /\ (1 <= length p)%nat
    /\ 1000 * (Z.of_nat (length p) - 1) < limiteEfetivo limit
    /\ match (buscarRanking executa limit w).1 with
       | Retorna rows =>
           Forall (fun qd => falha qd = None) p
           /\ rows = match limit with
                     | Numero n =>
                         if n =? 0 then concat (map linhasDe p)
                         else take (Z.to_nat n) (concat (map linhasDe p))
                     | _ => concat (map linhasDe p)
                     end
           /\ (forall n, limit = Numero n -> n <> 0 -> Z.of_nat (length rows) <= n)
       | Lanca e =>
           exists p0 qd,
             p = (p0 ++ [qd])%list
             /\ Forall (fun qd => falha qd = None) p0
             /\ falha qd = Some e
       | Esgotado => False
       end.
Proof.
  intros Hc Hpag.
  set (lim := match limit with
              | Omitido => Some 1000
              | Nulo => None
              | Numero n => Some n
              end).
  set (verdadeiro := match lim with Some n => negb (n =? 0) | None => false end).
  set (n := default 0 lim).
  set (totalLimit := if verdadeiro then n else 1000000).
  pose proof (limite_paginado limit Hpag) as Htl. cbv zeta in Htl.
  fold lim in Htl. fold verdadeiro in Htl. fold n in Htl. fold totalLimit in Htl.
  destruct Htl as (Hef & Hpos & Hcond).
  assert (Hdef : totalLimit = if verdadeiro then n else 1000000) by reflexivity.
  clearbody totalLimit.
  assert (E : buscarRanking executa limit w
              = tentar
                  (vincular
                     (paginar executa (Z.to_nat (totalLimit / 1000 + 1)) totalLimit [] 0 true)
                     (fun todosEntregadores =>
                        if verdadeiro && (n <? Z.of_nat (length todosEntregadores))
                        then retornar (take (Z.to_nat n) todosEntregadores)
                        else retornar todosEntregadores))
                  (fun e => lancar e) w).
  { unfold buscarRanking. fold lim. fold verdadeiro. fold n. rewrite Hcond.
    rewrite Hdef. reflexivity. }
  rewrite E. clear E.
  destruct (paginar_geral (Z.to_nat (totalLimit / 1000 + 1)) totalLimit [] 0 w c Hc)
    as (p & Hs & Hp & Hq & Hn & Hne & Hres).
  { cbn [length]. Z.div_mod_to_equations. lia. }
  replace (Z.of_nat (1000 * 0)) with 0 in * by lia.
  cbn [length] in Hn, Hne. specialize (Hne ltac:(lia)). specialize (Hn Hne).
  exists p. unfold tentar, vincular.
  destruct (paginar executa (Z.to_nat (totalLimit / 1000 + 1)) totalLimit [] 0 true w)
    as [[rows|e|] w1]; cbn [fst snd] in *.
  - destruct Hres as [Hall ->]. cbn [app].
    pose proof (corte_final limit (concat (map linhasDe p)) w1 Hpag) as Hfinal.
    cbv zeta in Hfinal. fold lim in Hfinal. fold verdadeiro in Hfinal. fold n in Hfinal.
    rewrite Hfinal. cbn [fst snd].
    split; [exact Hp|]. split; [exact Hq|].
    split; [destruct p; [congruence | cbn; lia]|]. split; [lia|].
    split; [exact Hall|]. split; [reflexivity|].
    intros x Hlx Hx. rewrite Hlx. rewrite Hlx in Hpag. cbn [buscaPaginada] in Hpag.
    destruct (Z.eqb_spec x 0); [contradiction|]. rewrite length_take. lia.
  - split; [exact Hp|]. split; [exact Hq|].
    split; [destruct p; [congruence | cbn; lia]|]. split; [lia|]. exact Hres.
  - destruct Hres.
Qed.

Lemma paginar_tabela tabela voltas totalLimit (k : nat) (w : Mundo) c :
  serve executa tabela -> supabase w = Some c ->
  let m := Z.to_nat ((totalLimit + 999) / 1000) in
  0 < totalLimit ->
  (1000 * k <= length tabela)%nat -> (k <= m)%nat -> (m - k <= voltas)%nat ->
  (paginar executa voltas totalLimit (take (1000 * k) tabela)
           (Z.of_nat (1000 * k)) true w).1
  = Retorna (take (1000 * m) tabela).
Proof.
  intros Hserve Hc m Htl. revert k w Hc.
  induction voltas as [|voltas IH]; intros k w Hc Hk Hkm Hv.
  - assert (k = m) by lia. subst k. cbn [paginar andb].
    rewrite length_take, Nat.min_l by exact Hk.
    destruct (Z.ltb_spec (Z.of_nat (1000 * m)) totalLimit) as [Hlt|Hge];
      [|reflexivity].
    exfalso. unfold m in Hlt. Z.div_mod_to_equations. lia.
  - cbn [paginar andb]. rewrite length_take, Nat.min_l by exact Hk.
    destruct (Z.ltb_spec (Z.of_nat (1000 * k)) totalLimit) as [Hlt|Hge].
    + assert (Hkm' : (k < m)%nat).
      { unfold m. Z.div_mod_to_equations. lia. }
      unfold mbind, M_bind, vincular, consultar. rewrite Hc.
      destruct (Hserve c (loja w)) as [_ Hr].
      rewrite Hr by lia. clear Hr.
      replace (Z.to_nat (Z.of_nat (1000 * k) + 1000 - 1 - Z.of_nat (1000 * k) + 1))
        with 1000%nat by lia.
      rewrite Nat2Z.id.
      cbn [seErroLancar error retornar data].
      set (w' := {| supabase := Some c; loja := loja w;
                    chamadas := _ |}).
      destruct (take 1000 (drop (1000 * k) tabela)) as [|x d] eqn:Ed.
      * rewrite paginar_parado. cbn [fst]. f_equal.
        assert (Hlen : (length tabela <= 1000 * k)%nat).
        { apply (f_equal length) in Ed. rewrite length_take, length_drop in Ed.
          cbn [length] in Ed. lia. }
        rewrite !take_ge by lia. reflexivity.
      * assert (Hlen : length (x :: d) = Nat.min 1000 (length tabela - 1000 * k))
          by (rewrite <- Ed, length_take, length_drop; reflexivity).
        assert (Hcat : (take (1000 * k) tabela ++ x :: d)%list
                       = take (1000 * S k) tabela).
        { rewrite <- Ed. replace (1000 * S k)%nat with (1000 * k + 1000)%nat by lia.
          now rewrite take_take_drop. }
        rewrite Hcat.
        destruct (Z.ltb_spec (Z.of_nat (length (x :: d))) 1000) as [Hshort|Hfull];
          cbn [negb].
        -- rewrite paginar_parado. cbn [fst]. f_equal.
           rewrite !take_ge by lia. reflexivity.
        -- replace (Z.of_nat (1000 * k) + 1000) with (Z.of_nat (1000 * S k)) by lia.
           apply IH; [reflexivity | lia | lia | lia].
    + assert (k = m) by (unfold m in *; Z.div_mod_to_equations; lia). now subst k.
Qed.

Lemma buscarRanking_paginado tabela (limit : option Z) (w : Mundo) c :
  serve executa tabela -> supabase w = Some c ->
  let verdadeiro := match limit with Some n => negb (n =? 0) | None => false end in
  let n := default 0 limit in
  let totalLimit := if verdadeiro then n else 1000000 in
  0 < totalLimit ->
  (vincular (paginar executa (Z.to_nat (totalLimit / 1000 + 1)) totalLimit [] 0 true)
            (fun todosEntregadores =>
               if verdadeiro && (n <? Z.of_nat (length todosEntregadores))
               then retornar (take (Z.to_nat n) todosEntregadores)
               else retornar todosEntregadores) w).1
  = Retorna (take (Z.to_nat totalLimit) tabela).
Proof.
  intros Hserve Hc verdadeiro n totalLimit Htl.
  assert (Hdef : totalLimit = if verdadeiro then n else 1000000) by reflexivity.
  clearbody totalLimit.
  set (m := Z.to_nat ((totalLimit + 999) / 1000)).
  pose proof (paginar_tabela tabela (Z.to_nat (totalLimit / 1000 + 1)) totalLimit
                0 w c Hserve Hc Htl) as Hp.
  fold m in Hp. cbv zeta in Hp.
  replace (1000 * 0)%nat with 0%nat in Hp by lia.
  change (take 0 tabela) with (@nil Linha) in Hp.
  change (Z.of_nat 0) with 0 in Hp.
  assert (Hm : (Z.to_nat totalLimit <= 1000 * m)%nat
               /\ (1000 * m < Z.to_nat totalLimit + 1000)%nat).
  { unfold m. Z.div_mod_to_equations. lia. }
  specialize (Hp ltac:(lia) ltac:(lia)).
  assert (Hv : (m - 0 <= Z.to_nat (totalLimit / 1000 + 1))%nat).
  { unfold m. Z.div_mod_to_equations. lia. }
  specialize (Hp Hv). unfold vincular.
  destruct (paginar executa (Z.to_nat (totalLimit / 1000 + 1)) totalLimit [] 0 true w)
    as [r w'].
  cbn [fst] in Hp. subst r.
  assert (Hlen : length (take (1000 * m) tabela)
                 = Nat.min (1000 * m) (length tabela)) by apply length_take.
  destruct verdadeiro eqn:Hver; cbn [andb].
  - rename Hdef into Hn.
    destruct (Z.ltb_spec n (Z.of_nat (length (take (1000 * m) tabela)))) as [Hlt|Hge];
      cbn [retornar fst]; f_equal.
    + rewrite take_take. f_equal. lia.
    + destruct (Nat.le_gt_cases (length tabela) (1000 * m)) as [Hl|Hl].
      * rewrite !take_ge by lia. reflexivity.
      * f_equal. lia.
  - cbn [retornar fst].
    replace (1000 * m)%nat with (Z.to_nat totalLimit); [reflexivity|].
    unfold m. Z.div_mod_to_equations. lia.
Qed.

(** X14: against a store that holds the ranking and answers every search
    with the rows asked for, [buscarRanking] returns the first rows of the
    ranking, as many as the limit says: 1000 when the limit is left out, a
    million when it is [null] or 0, however many pages that takes. *)
Theorem buscarRanking_tabela (tabela : list Linha) (limit : Limite) (w : Mundo)
        (c : Cliente) :
  serve executa tabela -> supabase w = Some c -> 0 <= limiteEfetivo limit ->
  (buscarRanking executa limit w).1
  = Retorna (take (Z.to_nat (limiteEfetivo limit)) tabela).
Proof.
  intros Hserve Hc Hl.
  assert (Hsimples : forall n, 0 <= n ->
            (vincular (consultar executa (RankingLimit n))
                      (fun r => vincular (seErroLancar r)
                                         (fun _ => retornar (default [] (data r)))) w).1
            = Retorna (take (Z.to_nat n) tabela)).
  { intros n Hn. unfold vincular, consultar. rewrite Hc.
    destruct (Hserve c (loja w)) as [Hr _]. rewrite Hr by exact Hn. reflexivity. }
  assert (Htentar : forall (m : SupabaseClient.M Linha Registro Erro Cliente Loja (list Linha)) x,
            (m w).1 = Retorna x -> (tentar m (fun e => lancar e) w).1 = Retorna x).
  { intros m x Hm. unfold tentar. destruct (m w) as [[a|e|] w']; cbn [fst] in *;
      congruence. }
  unfold buscarRanking. apply Htentar.
  destruct limit as [| |n]; cbn [limiteEfetivo] in *.
  - change (negb (1000 =? 0)) with true. change (default 0 (Some 1000)) with 1000.
    change (1000 <=? 1000) with true. cbn [andb]. now apply Hsimples.
  - cbn [andb]. now apply (buscarRanking_paginado tabela None w c).
  - change (default 0 (Some n)) with n.
    destruct (Z.eqb_spec n 0) as [->|Hn0]; cbn [negb andb].
    + now apply (buscarRanking_paginado tabela (Some 0) w c).
    + destruct (Z.leb_spec n 1000) as [Hle|Hgt].
      * now apply Hsimples.
      * pose proof (buscarRanking_paginado tabela (Some n) w c Hserve Hc) as Hp.
        cbn [default] in Hp. unfold id in Hp.
        destruct (Z.eqb_spec n 0) as [|_]; [contradiction|]. cbn [negb andb] in Hp.
        apply Hp. lia.
Qed.

End ClientPagination.

Section ClientProperties.

Import SupabaseClient.

Context {Linha Registro Erro Cliente Loja : Type}.

Variable createClient : Js.Value -> Js.Value -> Excecao Erro + Cliente.
Variable executa :
  Cliente -> Consulta Registro -> Loja -> Desfecho Linha Erro * Loja.

(** X15: before [initSupabase] has set a client, and after an
    initialisation without URL or key, which sets none, every function of
    the module throws a [TypeError] without sending anything to the store;
    [verificarConexao] alone returns, with [false]. *)
Theorem sem_cliente (s : Loja) (enviadas : list (Consulta Registro * Desfecho Linha Erro)) :
  let w : SupabaseClient.Mundo Linha Registro Erro Cliente Loja :=
    {| supabase := None; loja := s; chamadas := enviadas |} in
  (forall url key,
      Js.truthy url = false \/ Js.truthy key = false ->
      initSupabase createClient url key w = (Retorna None, w))
  /\ (forall limit, buscarRanking executa limit w = (Lanca TypeError, w))
  /\ (forall termo limit,
         buscarEntregadoresPorNome executa termo limit w = (Lanca TypeError, w))
  /\ (forall turnos, inserirTurnos executa turnos w = (Lanca TypeError, w))
  /\ recalcularRanking executa w = (Lanca TypeError, w)
  /\ limparTodosDados executa w = (Lanca TypeError, w)
  /\ (forall turnos, uploadCompleto executa turnos w = (Lanca TypeError, w))
  /\ verificarConexao executa w = (Retorna false, w).
Proof.
  intros w. repeat split; try reflexivity.
  - intros url key [H|H]; unfold initSupabase; rewrite H; [reflexivity|].
    now rewrite orb_true_r.
  - intros [| |n]; [reflexivity|reflexivity|].
    unfold buscarRanking. cbn [default]. unfold id.
    destruct (negb (n =? 0) && (n <=? 1000)) eqn:Hs; [reflexivity|].
    set (totalLimit := if negb (n =? 0) then n else 1000000).
    assert (Hpos : 0 < totalLimit).
    { unfold totalLimit. destruct (Z.eqb_spec n 0); cbn [negb] in *; [lia|].
      destruct (Z.leb_spec n 1000); [discriminate|lia]. }
    clearbody totalLimit.
    destruct (Z.to_nat (totalLimit / 1000 + 1)) as [|v] eqn:Ev.
    { exfalso. Z.div_mod_to_equations. lia. }
    unfold tentar, mbind, M_bind, vincular. cbn [paginar andb length].
    destruct (Z.ltb_spec (Z.of_nat 0) totalLimit); [reflexivity|lia].
Qed.

(** X16: [verificarConexao] never throws. It answers [true] exactly when
    there is a client and the count query resolves without error, and
    [false] in every other case. *)
Theorem verificarConexao_nunca_lanca
        (w : SupabaseClient.Mundo Linha Registro Erro Cliente Loja) :
  exists b,
    (verificarConexao executa w).1 = Retorna b
    /\ (b = true
        <-> exists c r s,
              supabase w = Some c
              /\ executa c RankingCount (loja w) = (Resolvido r, s)
              /\ error r = None).
Proof.
  unfold verificarConexao, tentar, mbind, M_bind, vincular, consultar.
  destruct (supabase w) as [c|] eqn:Hc.
  - destruct (executa c RankingCount (loja w)) as [[r|e] s] eqn:E.
    + unfold seErroLancar. destruct (error r) as [e|] eqn:Er; cbn.
      * exists false. split; [reflexivity|]. split; [discriminate|].
        intros (c' & r' & s' & [= <-] & He & Hr). rewrite E in He.
        injection He as <- <-. congruence.
      * exists true. split; [reflexivity|]. split; [|reflexivity].
        intros _. now exists c, r, s.
    + cbn. exists false. split; [reflexivity|]. split; [discriminate|].
      intros (c' & r' & s' & [= <-] & He & _). rewrite E in He. discriminate He.
  - cbn. exists false. split; [reflexivity|]. split; [discriminate|].
    intros (c' & r' & s' & [=] & _).
Qed.

End ClientProperties.

Section ClientInstances.

Import SupabaseClient.

Lemma uploadCompleto_plano_witness :
  exists p,
    chamadas (uploadCompleto (lojaExemplo []) [1; 2; 3] mundoExemplo).2
    = (chamadas mundoExemplo ++ p)%list
    /\ map fst p = plano [1; 2; 3].
Proof.
  destruct (uploadCompleto_plano (lojaExemplo []) [1; 2; 3] mundoExemplo tt eq_refl)
    as (p & Hp & Hres & _).
  exists p. split; [exact Hp|].
  vm_compute in Hres. destruct Hres as (_ & Hq & _). exact Hq.
Defined.

Lemma buscarRanking_paginas_witness :
  exists p,
    chamadas (buscarRanking (lojaExemplo [30; 20; 10]) (Numero 1001) mundoExemplo).2
    = (chamadas mundoExemplo ++ p)%list
    /\ map fst p = map pagina (seq 0 (length p))
    /\ (1 <= length p)%nat.
Proof.
  destruct (buscarRanking_paginas (lojaExemplo [30; 20; 10]) (Numero 1001)
              mundoExemplo tt eq_refl)
    as (p & Hp & Hq & Hl & _).
  - right. lia.
  - exists p. auto.
Defined.

Lemma buscarRanking_tabela_witness :
  (buscarRanking (lojaExemplo [30; 20; 10]) (Numero 2) mundoExemplo).1
  = Retorna (take (Z.to_nat (limiteEfetivo (Numero 2))) [30; 20; 10]).
Proof.
  apply (buscarRanking_tabela (lojaExemplo [30; 20; 10]) [30; 20; 10] (Numero 2)
           mundoExemplo tt).
  - intros c s. split; intros; reflexivity.
  - reflexivity.
  - cbn. lia.
Defined.

End ClientInstances.
